(** * The ctags parser of arduino-cli: a shallow embedding and its properties

    The development follows the Go package [ctags]: the record parser
    [parseTag], the filter passes of [Parse] and the prototype
    generation of [addPrototype].

    Go strings are byte sequences; they are modelled by [string] (a list
    of 8-bit [ascii]).  Go's [int] is 64 bits wide on the supported
    platforms; indices and lengths are far from the bounds, so they are
    plain [Z], and [strconv.Atoi] saturates at the 64-bit bounds as the
    library does.  A run-time panic is an explicit [Panic] result. *)

From Stdlib Require Import ZArith Ascii.
From stdpp Require Import base option list strings gmap.

Local Open Scope Z_scope.

(** ** Run-time panics *)

Inductive panic : Type :=
| IndexOutOfRange
| SliceBoundsOutOfRange.

Inductive res (A : Type) : Type :=
| Ok (a : A)
| Panic (e : panic).
Arguments Ok {A} a.
Arguments Panic {A} e.

Definition bind {A B : Type} (r : res A) (k : A -> res B) : res B :=
  match r with
  | Ok a => k a
  | Panic e => Panic e
  end.

Notation "x <-! r ; k" := (bind r (fun x => k))
  (at level 100, r at next level, right associativity).

Definition is_Ok {A : Type} (r : res A) : bool :=
  match r with Ok _ => true | Panic _ => false end.

(** ** Characters the source names by escapes *)

Definition tab : ascii := "009"%char.
Definition newline : ascii := "010"%char.
Definition backslash : ascii := "092"%char.
Definition dquote : ascii := "034"%char.

Definition str1 (c : ascii) : string := String c "".

(** ** Go's [strings] package, as far as the parser uses it *)

Module GoStrings.

Definition len (s : string) : Z := Z.of_nat (String.length s).

(** [strings.HasPrefix s prefix]. *)
Fixpoint HasPrefix (s prefix : string) {struct prefix} : bool :=
  match prefix, s with
  | "", _ => true
  | String p prefix', String c s' =>
      if Ascii.eqb c p then HasPrefix s' prefix' else false
  | String _ _, "" => false
  end.

(** [strings.Index s substr]: the byte index of the first occurrence of
    [substr] in [s], or [-1]. *)
Fixpoint Index (s substr : string) {struct s} : Z :=
  if HasPrefix s substr then 0
  else match s with
       | "" => -1
       | String _ s' =>
           let i := Index s' substr in
           if i <? 0 then -1 else i + 1
       end.

(** [strings.LastIndex s substr]: the index of the last occurrence, or
    [-1]. *)
Fixpoint LastIndex (s substr : string) {struct s} : Z :=
  match s with
  | "" => if HasPrefix "" substr then 0 else -1
  | String _ s' =>
      let i := LastIndex s' substr in
      if 0 <=? i then i + 1
      else if HasPrefix s substr then 0 else -1
  end.

(** [strings.Contains s substr] is [Index s substr >= 0]. *)
Definition Contains (s substr : string) : bool := 0 <=? Index s substr.

(** The first [n] bytes and what follows them. *)
Fixpoint firstBytes (n : nat) (s : string) : string :=
  match n, s with
  | S n', String c s' => String c (firstBytes n' s')
  | _, _ => ""
  end.

Fixpoint skipBytes (n : nat) (s : string) : string :=
  match n, s with
  | S n', String _ s' => skipBytes n' s'
  | _, _ => s
  end.

(** The slice expression [s[lo:hi]]: Go panics unless
    [0 <= lo <= hi <= len(s)]. *)
Definition slice (s : string) (lo hi : Z) : res string :=
  if (0 <=? lo) && (lo <=? hi) && (hi <=? len s)
  then Ok (firstBytes (Z.to_nat (hi - lo)) (skipBytes (Z.to_nat lo) s))
  else Panic SliceBoundsOutOfRange.

(** [s[:hi]] and [s[lo:]]. *)
Definition sliceTo (s : string) (hi : Z) : res string := slice s 0 hi.
Definition sliceFrom (s : string) (lo : Z) : res string := slice s lo (len s).

(** [strings.Split s sep] for a one-byte separator, the only kind the
    parser uses: the fields between the separators, at least one. *)
Fixpoint Split (s : string) (sep : ascii) : list string :=
  match s with
  | "" => [""]
  | String c s' =>
      if Ascii.eqb c sep then "" :: Split s' sep
      else match Split s' sep with
           | field :: fields => String c field :: fields
           | [] => [String c ""]
           end
  end.

(** [strings.ReplaceAll s old new] for a non-empty [old]: the
    non-overlapping occurrences are replaced from the left.  [skip]
    counts the bytes of an occurrence still to be passed over. *)
Fixpoint replaceFrom (old new : string) (skip : nat) (s : string) : string :=
  match s with
  | "" => ""
  | String c s' =>
      match skip with
      | S k => replaceFrom old new k s'
      | O =>
          if HasPrefix s old
          then new +:+ replaceFrom old new (String.length old - 1) s'
          else String c (replaceFrom old new 0 s')
      end
  end.

Definition ReplaceAll (s old new : string) : string := replaceFrom old new 0 s.

(** White space as [unicode.IsSpace] has it, in UTF-8: the six ASCII
    characters, U+0085, U+00A0, U+1680, U+2000..U+200A, U+2028, U+2029,
    U+202F, U+205F and U+3000. *)
Definition asciiSpace (c : ascii) : bool :=
  let n := nat_of_ascii c in
  ((9 <=? n) && (n <=? 13))%nat || (n =? 32)%nat.

Definition space2 (c1 c2 : ascii) : bool :=
  let a := nat_of_ascii c1 in
  let b := nat_of_ascii c2 in
  ((a =? 194) && ((b =? 133) || (b =? 160)))%nat.

Definition space3 (c1 c2 c3 : ascii) : bool :=
  let a := nat_of_ascii c1 in
  let b := nat_of_ascii c2 in
  let c := nat_of_ascii c3 in
  (((a =? 225) && (b =? 154) && (c =? 128))
   || ((a =? 226) && (b =? 128)
       && (((128 <=? c) && (c <=? 138)) || (c =? 168) || (c =? 169) || (c =? 175)))
   || ((a =? 226) && (b =? 129) && (c =? 159))
   || ((a =? 227) && (b =? 128) && (c =? 128)))%nat.

(** [strings.TrimLeftFunc s unicode.IsSpace]. *)
Fixpoint trimLeft (s : string) : string :=
  match s with
  | "" => ""
  | String c1 s1 =>
      if asciiSpace c1 then trimLeft s1
      else match s1 with
           | "" => s
           | String c2 s2 =>
               if space2 c1 c2 then trimLeft s2
               else match s2 with
                    | "" => s
                    | String c3 s3 =>
                        if space3 c1 c2 c3 then trimLeft s3 else s
                    end
           end
  end.

(** The same from the right, on the reversed bytes. *)
Fixpoint trimLeftRev (s : string) : string :=
  match s with
  | "" => ""
  | String c1 s1 =>
      if asciiSpace c1 then trimLeftRev s1
      else match s1 with
           | "" => s
           | String c2 s2 =>
               if space2 c2 c1 then trimLeftRev s2
               else match s2 with
                    | "" => s
                    | String c3 s3 =>
                        if space3 c3 c2 c1 then trimLeftRev s3 else s
                    end
           end
  end.

Definition trimRight (s : string) : string :=
  String.rev (trimLeftRev (String.rev s)).

(** [strings.TrimSpace s]. *)
Definition TrimSpace (s : string) : string := trimRight (trimLeft s).

End GoStrings.

(** ** Go's [strconv.Atoi], for 64-bit [int] *)

Module GoStrconv.

Inductive numError : Type :=
| ErrSyntax
| ErrRange.

Definition byteVal (c : ascii) : Z := Z.of_nat (nat_of_ascii c).

Definition isDigit (c : ascii) : bool :=
  (48 <=? byteVal c) && (byteVal c <=? 57).

Definition maxUint64 : Z := 18446744073709551615.
Definition cutoffUint64 : Z := maxUint64 / 10 + 1.
Definition maxInt64 : Z := 9223372036854775807.
Definition minInt64 : Z := -9223372036854775808.

(** The digit loop of [ParseUint(s, 10, 64)], [n] being the value
    read so far: a byte that is no decimal digit is a syntax error, and
    an overflow returns the largest value at once, before the bytes
    that follow are looked at. *)
Fixpoint parseUintFrom (n : Z) (s : string) : Z * option numError :=
  match s with
  | "" => (n, None)
  | String c s' =>
      if isDigit c then
        if cutoffUint64 <=? n then (maxUint64, Some ErrRange)
        else
          let n1 := n * 10 + (byteVal c - 48) in
          if maxUint64 <? n1 then (maxUint64, Some ErrRange)
          else parseUintFrom n1 s'
      else (0, Some ErrSyntax)
  end.

Definition ParseUint (s : string) : Z * option numError :=
  match s with
  | "" => (0, Some ErrSyntax)
  | _ => parseUintFrom 0 s
  end.

(** [ParseInt(s, 10, 0)]: an optional sign, then [ParseUint]; a value
    out of range is replaced by the nearest bound. *)
Definition ParseInt (s : string) : Z * option numError :=
  match s with
  | "" => (0, Some ErrSyntax)
  | String c s' =>
      let neg := Ascii.eqb c "-" in
      let digits := if Ascii.eqb c "+" || neg then s' else s in
      match ParseUint digits with
      | (_, Some ErrSyntax) => (0, Some ErrSyntax)
      | (un, _) =>
          if negb neg && (maxInt64 + 1 <=? un) then (maxInt64, Some ErrRange)
          else if neg && (maxInt64 + 1 <? un) then (minInt64, Some ErrRange)
          else (if neg then - un else un, None)
      end
  end.

(** The fast path of [Atoi]: the digits of a string of fewer than 19
    bytes, which cannot overflow. *)
Fixpoint atoiDigits (n : Z) (s : string) : option Z :=
  match s with
  | "" => Some n
  | String c s' =>
      if isDigit c then atoiDigits (n * 10 + (byteVal c - 48)) s' else None
  end.

Definition Atoi (s : string) : Z * option numError :=
  let sLen := GoStrings.len s in
  if (0 <? sLen) && (sLen <? 19) then
    match s with
    | "" => (0, Some ErrSyntax)
    | String c s' =>
        let signed := Ascii.eqb c "-" || Ascii.eqb c "+" in
        let digits := if signed then s' else s in
        if GoStrings.len digits <? 1 then (0, Some ErrSyntax)
        else match atoiDigits 0 digits with
             | None => (0, Some ErrSyntax)
             | Some n => (if Ascii.eqb c "-" then - n else n, None)
             end
    end
  else ParseInt s.

End GoStrconv.

(** ** The data model *)

Definition kindPrototype : string := "prototype".
Definition kindFunction : string := "function".
Definition keywordTemplate : string := "template".
Definition keywordStatic : string := "static".
Definition keywordExternC : string := "extern " +:+ str1 dquote +:+ "C" +:+ str1 dquote.

Definition knownTagKinds : gmap string bool :=
  <["prototype" := true]> (<["function" := true]> ∅).

(** Reading a [map[string]bool]: an absent key reads as [false]. *)
Definition mapGet (m : gmap string bool) (k : string) : bool :=
  default false (m !! k).

(** [Tag] is a tag generated by ctags. *)
Record Tag : Type := mkTag {
  FunctionName : string;
  Kind : string;
  Line : Z;
  Code : string;
  Class : string;
  Struct : string;
  Namespace : string;
  Filename : string;
  Typeref : string;
  SkipMe : bool;
  Signature : string;
  Prototype : string;
  PrototypeModifiers : string
}.

(** [&Tag{}]: every field at its zero value. *)
Definition emptyTag : Tag := mkTag "" "" 0 "" "" "" "" "" "" false "" "" "".

Definition setFunctionName (v : string) (t : Tag) : Tag :=
  mkTag v (Kind t) (Line t) (Code t) (Class t) (Struct t) (Namespace t)
        (Filename t) (Typeref t) (SkipMe t) (Signature t) (Prototype t)
        (PrototypeModifiers t).
Definition setKind (v : string) (t : Tag) : Tag :=
  mkTag (FunctionName t) v (Line t) (Code t) (Class t) (Struct t) (Namespace t)
        (Filename t) (Typeref t) (SkipMe t) (Signature t) (Prototype t)
        (PrototypeModifiers t).
Definition setLine (v : Z) (t : Tag) : Tag :=
  mkTag (FunctionName t) (Kind t) v (Code t) (Class t) (Struct t) (Namespace t)
        (Filename t) (Typeref t) (SkipMe t) (Signature t) (Prototype t)
        (PrototypeModifiers t).
Definition setCode (v : string) (t : Tag) : Tag :=
  mkTag (FunctionName t) (Kind t) (Line t) v (Class t) (Struct t) (Namespace t)
        (Filename t) (Typeref t) (SkipMe t) (Signature t) (Prototype t)
        (PrototypeModifiers t).
Definition setClass (v : string) (t : Tag) : Tag :=
  mkTag (FunctionName t) (Kind t) (Line t) (Code t) v (Struct t) (Namespace t)
        (Filename t) (Typeref t) (SkipMe t) (Signature t) (Prototype t)
        (PrototypeModifiers t).
Definition setStruct (v : string) (t : Tag) : Tag :=
  mkTag (FunctionName t) (Kind t) (Line t) (Code t) (Class t) v (Namespace t)
        (Filename t) (Typeref t) (SkipMe t) (Signature t) (Prototype t)
        (PrototypeModifiers t).
Definition setNamespace (v : string) (t : Tag) : Tag :=
  mkTag (FunctionName t) (Kind t) (Line t) (Code t) (Class t) (Struct t) v
        (Filename t) (Typeref t) (SkipMe t) (Signature t) (Prototype t)
        (PrototypeModifiers t).
Definition setFilename (v : string) (t : Tag) : Tag :=
  mkTag (FunctionName t) (Kind t) (Line t) (Code t) (Class t) (Struct t)
        (Namespace t) v (Typeref t) (SkipMe t) (Signature t) (Prototype t)
        (PrototypeModifiers t).
Definition setTyperef (v : string) (t : Tag) : Tag :=
  mkTag (FunctionName t) (Kind t) (Line t) (Code t) (Class t) (Struct t)
        (Namespace t) (Filename t) v (SkipMe t) (Signature t) (Prototype t)
        (PrototypeModifiers t).
Definition setSkipMe (v : bool) (t : Tag) : Tag :=
  mkTag (FunctionName t) (Kind t) (Line t) (Code t) (Class t) (Struct t)
        (Namespace t) (Filename t) (Typeref t) v (Signature t) (Prototype t)
        (PrototypeModifiers t).
Definition setSignature (v : string) (t : Tag) : Tag :=
  mkTag (FunctionName t) (Kind t) (Line t) (Code t) (Class t) (Struct t)
        (Namespace t) (Filename t) (Typeref t) (SkipMe t) v (Prototype t)
        (PrototypeModifiers t).
Definition setPrototype (v : string) (t : Tag) : Tag :=
  mkTag (FunctionName t) (Kind t) (Line t) (Code t) (Class t) (Struct t)
        (Namespace t) (Filename t) (Typeref t) (SkipMe t) (Signature t) v
        (PrototypeModifiers t).
Definition setPrototypeModifiers (v : string) (t : Tag) : Tag :=
  mkTag (FunctionName t) (Kind t) (Line t) (Code t) (Class t) (Struct t)
        (Namespace t) (Filename t) (Typeref t) (SkipMe t) (Signature t)
        (Prototype t) v.

(** ** Parsing one row: [parseTag] *)

Import GoStrings.

(** [parts[i]] on a slice of strings. *)
Definition index (parts : list string) (i : nat) : res string :=
  match parts !! i with
  | Some part => Ok part
  | None => Panic IndexOutOfRange
  end.

(** [parts[n:]]. *)
Definition sliceListFrom (parts : list string) (n : nat) : res (list string) :=
  if (n <=? length parts)%nat then Ok (list.drop n parts)
  else Panic SliceBoundsOutOfRange.

(** The [switch field] of [parseTag]; [returntype] is the local variable
    the loop carries beside the tag. *)
Definition assignField (field value : string) (tag : Tag) (returntype : string)
  : Tag * string :=
  if decide (field = "kind") then (setKind value tag, returntype)
  else if decide (field = "line") then
    (setLine (GoStrconv.Atoi value).1 tag, returntype)
  else if decide (field = "typeref") then (setTyperef value tag, returntype)
  else if decide (field = "signature") then (setSignature value tag, returntype)
  else if decide (field = "returntype") then (tag, value)
  else if decide (field = "class") then (setClass value tag, returntype)
  else if decide (field = "struct") then (setStruct value tag, returntype)
  else if decide (field = "namespace") then (setNamespace value tag, returntype)
  else (tag, returntype).

(** One iteration of [for _, part := range parts]. *)
Definition parsePart (st : Tag * string) (part : string) : res (Tag * string) :=
  if Contains part ":" then
    let colon := Index part ":" in
    field <-! sliceTo part colon;
    rest <-! sliceFrom part (colon + 1);
    let value := TrimSpace rest in
    Ok (assignField field value st.1 st.2)
  else Ok st.

Fixpoint parseParts (st : Tag * string) (parts : list string) : res (Tag * string) :=
  match parts with
  | [] => Ok st
  | part :: parts' => st' <-! parsePart st part; parseParts st' parts'
  end.

Definition parseTag (row : string) : res Tag :=
  let tag := emptyTag in
  let parts := Split row tab in
  name <-! index parts 0;
  let tag := setFunctionName name tag in
  file <-! index parts 1;
  let tag :=
    setFilename (ReplaceAll file (str1 backslash +:+ str1 backslash) (str1 backslash)) tag in
  parts <-! sliceListFrom parts 2;
  st <-! parseParts (tag, "") parts;
  let tag := st.1 in
  let returntype := st.2 in
  let tag :=
    setPrototype (returntype +:+ " " +:+ FunctionName tag +:+ Signature tag +:+ ";") tag in
  if Contains row "/^" && Contains row "$/;" then
    code <-! slice row (Index row "/^" + 2) (Index row "$/;");
    Ok (setCode code tag)
  else Ok tag.

Fixpoint removeEmpty (rows : list string) : list string :=
  match rows with
  | [] => []
  | row :: rows' =>
      let row := TrimSpace row in
      if 0 <? len row then row :: removeEmpty rows' else removeEmpty rows'
  end.

(** ** The parser and its passes *)

(** [Parser] is a parser for ctags output; [mainFile] is a path. *)
Record Parser : Type := mkParser {
  tags : list Tag;
  mainFile : string
}.

(** Modelled from the spec: the [Prototype] struct that [Parse] returns
    is declared outside the files at hand.  A Prototype Record has a
    function name, the final prototype text, the modifier text and the
    original line number. *)
Record PrototypeRecord : Type := mkPrototypeRecord {
  protoFunctionName : string;
  protoPrototype : string;
  protoModifiers : string;
  protoLine : Z
}.

Definition isHandled (tag : Tag) : bool :=
  if negb (String.eqb (Class tag) "") then false
  else if negb (String.eqb (Struct tag) "") then false
  else if negb (String.eqb (Namespace tag) "") then false
  else true.

Definition tagIsUnhandled (tag : Tag) : bool := negb (isHandled tag).

Definition tagIsUnknown (tag : Tag) : bool := negb (mapGet knownTagKinds (Kind tag)).

(** [skipTagsWhere]: the predicate is asked only about tags not yet
    skipped, and its answer becomes the flag. *)
Definition skipTagsWhere (skipFunc : Tag -> bool) (tags : list Tag) : list Tag :=
  map (fun tag => if negb (SkipMe tag) then setSkipMe (skipFunc tag) tag else tag) tags.

(** The first loop of [removeDefinedProtypes]. *)
Fixpoint collectDefined (definedPrototypes : gmap string bool) (tags : list Tag)
  : gmap string bool :=
  match tags with
  | [] => definedPrototypes
  | tag :: rest =>
      if String.eqb (Kind tag) kindPrototype
      then collectDefined (<[Prototype tag := true]> definedPrototypes) rest
      else collectDefined definedPrototypes rest
  end.

Definition removeDefinedProtypes (tags : list Tag) : list Tag :=
  let definedPrototypes := collectDefined ∅ tags in
  map (fun tag =>
         if mapGet definedPrototypes (Prototype tag) then setSkipMe true tag else tag)
      tags.

(** The loop of [skipDuplicates], from a given [definedPrototypes]. *)
Fixpoint skipDuplicatesFrom (definedPrototypes : gmap string bool) (tags : list Tag)
  : list Tag :=
  match tags with
  | [] => []
  | tag :: rest =>
      if negb (mapGet definedPrototypes (Prototype tag)) && negb (SkipMe tag)
      then tag :: skipDuplicatesFrom (<[Prototype tag := true]> definedPrototypes) rest
      else setSkipMe true tag :: skipDuplicatesFrom definedPrototypes rest
  end.

Definition skipDuplicates (tags : list Tag) : list Tag := skipDuplicatesFrom ∅ tags.

Section Passes.

(** [findTemplateMultiline] reads the source file of the tag (the Line
    Source) and is defined outside the files at hand: a parameter. *)
Variable findTemplateMultiline : Tag -> string.

(** The predicate of the consistency filter, [prototypeAndCodeDontMatch],
    is defined outside the files at hand: a parameter. *)
Variable prototypeAndCodeDontMatch : Tag -> bool.

(** Whether the source text around a tag is an [extern "C"] block is
    found by reading the source files: a parameter. *)
Variable insideCLinkageBlock : Tag -> bool.

(** [mainFile.EquivalentTo(paths.New(tag.Filename))], from the paths
    library: a parameter. *)
Variable EquivalentTo : string -> string -> bool.

Definition addPrototype (tag : Tag) : res Tag :=
  if Index (Prototype tag) keywordTemplate =? 0 then
    if Index (Code tag) keywordTemplate =? 0 then
      let code := Code tag in
      code <-! (if Contains code "{"
                then sliceTo code (Index code "{")
                else sliceTo code (LastIndex code ")" + 1));
      Ok (setPrototype (code +:+ ";") tag)
    else
      let code := findTemplateMultiline tag in
      Ok (setPrototype (code +:+ ";") tag)
  else
    let tag := setPrototypeModifiers "" tag in
    let tag :=
      if Contains (Code tag) (keywordStatic +:+ " ")
      then setPrototypeModifiers (PrototypeModifiers tag +:+ " " +:+ keywordStatic) tag
      else tag in
    Ok (setPrototypeModifiers (TrimSpace (PrototypeModifiers tag)) tag).

Fixpoint addPrototypes (tags : list Tag) : res (list Tag) :=
  match tags with
  | [] => Ok []
  | tag :: rest =>
      tag' <-! (if negb (SkipMe tag) then addPrototype tag else Ok tag);
      rest' <-! addPrototypes rest;
      Ok (tag' :: rest')
  end.

(** Modelled from the spec: [fixCLinkageTagsDeclarations] is defined
    outside the files at hand.  For a record inside an [extern "C"]
    block the linkage modifier is forced by prepending [extern "C"] to
    the modifier text; nothing else is touched. *)
Definition fixCLinkageTagsDeclarations (tags : list Tag) : list Tag :=
  map (fun tag =>
         if insideCLinkageBlock tag
         then setPrototypeModifiers (keywordExternC +:+ " " +:+ PrototypeModifiers tag) tag
         else tag)
      tags.

(** Modelled from the spec: [toPrototypes] is defined outside the files
    at hand.  The surviving records, in their order, are projected one
    to one into Prototype Records. *)
Definition toPrototypes (p : Parser) : list PrototypeRecord :=
  map (fun tag =>
         mkPrototypeRecord (FunctionName tag) (Prototype tag)
                           (PrototypeModifiers tag) (Line tag))
      (filter (fun tag => SkipMe tag = false) (tags p)).

(** The smallest of a list of line numbers, if there is one. *)
Fixpoint smallest (lines : list Z) : option Z :=
  match lines with
  | [] => None
  | line :: rest =>
      match smallest rest with
      | None => Some line
      | Some m => Some (Z.min line m)
      end
  end.

(** The lines of the surviving records of the main file. *)
Definition survivingLines (p : Parser) : list Z :=
  map Line
      (filter (fun tag => SkipMe tag = false
                          ∧ EquivalentTo (mainFile p) (Filename tag) = true)
              (tags p)).

(** The [int] that stands for "no insertion required". *)
Variable noInsertion : Z.

(** Modelled from the spec: [findLineWhereToInsertPrototypes] is defined
    outside the files at hand; [Parse] returns its result, an [int].
    The insertion line is the smallest original line number among the
    surviving records of the main file; when there is none it is the
    value that stands for "no insertion required", which the
    specification does not name. *)
Definition findLineWhereToInsertPrototypes (p : Parser) : Z :=
  match smallest (survivingLines p) with
  | Some line => line
  | None => noInsertion
  end.

(** The loop [p.tags = append(p.tags, parseTag(row))]. *)
Fixpoint appendParsed (tags : list Tag) (rows : list string) : res (list Tag) :=
  match rows with
  | [] => Ok tags
  | row :: rows' => tag <-! parseTag row; appendParsed (tags ++ [tag]) rows'
  end.

(** The seven passes of [Parse], in its order. *)
Definition runPasses (tags : list Tag) : res (list Tag) :=
  let tags := skipTagsWhere tagIsUnknown tags in
  let tags := skipTagsWhere tagIsUnhandled tags in
  tags <-! addPrototypes tags;
  let tags := removeDefinedProtypes tags in
  let tags := skipDuplicates tags in
  let tags := skipTagsWhere prototypeAndCodeDontMatch tags in
  let tags := fixCLinkageTagsDeclarations tags in
  Ok tags.

(** [Parse] a ctags output and generate the prototypes.  The receiver's
    state after the call is returned with the two results. *)
Definition Parse (p : Parser) (ctagsOutput : string) (mainFile : string)
  : res (Parser * (list PrototypeRecord * Z)) :=
  let rows := Split ctagsOutput newline in
  let rows := removeEmpty rows in
  let p := mkParser (tags p) mainFile in
  tags <-! appendParsed (tags p) rows;
  tags <-! runPasses tags;
  let p := mkParser tags mainFile in
  Ok (p, (toPrototypes p, findLineWhereToInsertPrototypes p)).

End Passes.

(** ** Notions the statements below use *)

(** The tag of [parseTag] before the fields are read. *)
Definition startTag (name file : string) : Tag :=
  setFilename (ReplaceAll file (str1 backslash +:+ str1 backslash) (str1 backslash))
              (setFunctionName name emptyTag).

(** The tag once the fields are read and the prototype text is derived. *)
Definition withPrototype (st : Tag * string) : Tag :=
  setPrototype (st.2 +:+ " " +:+ FunctionName st.1 +:+ Signature st.1 +:+ ";") st.1.

(** What [parseTag] does with the pattern markers. *)
Definition readCode (row : string) (tag : Tag) : res Tag :=
  if Contains row "/^" && Contains row "$/;" then
    code <-! slice row (Index row "/^" + 2) (Index row "$/;");
    Ok (setCode code tag)
  else Ok tag.

(** A string of decimal digits only. *)
Fixpoint allDigits (s : string) : bool :=
  match s with
  | "" => true
  | String c s' => GoStrconv.isDigit c && allDigits s'
  end.

(** A decimal integer as [Atoi] reads one: an optional sign, then one
    digit or more. *)
Definition wellFormedInt (s : string) : bool :=
  match s with
  | "" => false
  | String c s' =>
      let digits := if Ascii.eqb c "-" || Ascii.eqb c "+" then s' else s in
      (0 <? len digits) && allDigits digits
  end.

(** The flag of a record never goes back from [true] to [false], record
    by record, between two states of the sequence. *)
Definition skipMonotone (before after : list Tag) : Prop :=
  Forall2 (fun a b => SkipMe a = true -> SkipMe b = true) before after.

(** A filter step on one record: at most the flag changes, and never
    from [true] to [false]. *)
Definition flagOnly (a b : Tag) : Prop :=
  exists v, b = setSkipMe v a /\ (SkipMe a = true -> v = true).

(** Some record of kind "prototype" has the given prototype text. *)
Definition declaredText (tags : list Tag) (text : string) : Prop :=
  exists p, p ∈ tags /\ Kind p = kindPrototype /\ Prototype p = text.

Section Stages.

Variable findTemplateMultiline : Tag -> string.
Variable prototypeAndCodeDontMatch : Tag -> bool.
Variable insideCLinkageBlock : Tag -> bool.

(** The tag [addPrototype] leaves behind. *)
Definition generated (tag : Tag) : Tag :=
  match addPrototype findTemplateMultiline tag with
  | Ok tag' => tag'
  | Panic _ => tag
  end.

(** The passes of [Parse] as a list, and the state of the records
    after the first [n] of them. *)
Definition passes : list (list Tag -> res (list Tag)) :=
  [ fun tags => Ok (skipTagsWhere tagIsUnknown tags);
    fun tags => Ok (skipTagsWhere tagIsUnhandled tags);
    addPrototypes findTemplateMultiline;
    fun tags => Ok (removeDefinedProtypes tags);
    fun tags => Ok (skipDuplicates tags);
    fun tags => Ok (skipTagsWhere prototypeAndCodeDontMatch tags);
    fun tags => Ok (fixCLinkageTagsDeclarations insideCLinkageBlock tags) ].

Fixpoint runList (ps : list (list Tag -> res (list Tag))) (tags : list Tag)
  : res (list Tag) :=
  match ps with
  | [] => Ok tags
  | pass :: ps' => tags' <-! pass tags; runList ps' tags'
  end.

Definition stateAfter (n : nat) (tags : list Tag) : res (list Tag) :=
  runList (firstn n passes) tags.

(** The records after prototype generation, and after the filters
    that follow it. *)
Definition afterGeneration (tags : list Tag) : list Tag :=
  map (fun tag => if negb (SkipMe tag) then generated tag else tag)
      (skipTagsWhere tagIsUnhandled (skipTagsWhere tagIsUnknown tags)).

Definition afterFilters (tags : list Tag) : list Tag :=
  skipTagsWhere prototypeAndCodeDontMatch
    (skipDuplicates (removeDefinedProtypes (afterGeneration tags))).

End Stages.

(** A pass that returns, and keeps every raised flag raised. *)
Definition soundPass (pass : list Tag -> res (list Tag)) : Prop :=
  forall tags, exists out, pass tags = Ok out /\ skipMonotone tags out.

(** The record [t] at position [i] is not skipped, and every record
    before it with the same prototype text is. *)
Definition firstOfText (tags : list Tag) (i : nat) (t : Tag) : Prop :=
  SkipMe t = false
  /\ forall j tj, (j < i)%nat -> tags !! j = Some tj ->
                  Prototype tj = Prototype t -> SkipMe tj = true.

(** What "exactly one survives, and it is the earliest in original
    order" asks of a filter, for every prototype text that occurs. *)
Definition onlyEarliestSurvives (before after : list Tag) : Prop :=
  forall i t, before !! i = Some t ->
    exists k tk,
      after !! k = Some tk /\ SkipMe tk = false /\ Prototype tk = Prototype t
      /\ (forall j tj, before !! j = Some tj ->
                       Prototype tj = Prototype t -> (k <= j)%nat)
      /\ (forall j tj, after !! j = Some tj -> Prototype tj = Prototype t ->
                       SkipMe tj = false -> j = k).

(** Two records with the text "void foo();": a method of a class, which
    the scope filter has skipped, and a free function. *)
Definition fooMethod : Tag :=
  mkTag "foo" "function" 3 "void foo() {" "Bar" "" "" "main.ino" "" true "()"
        "void foo();" "".
Definition fooFunction : Tag :=
  mkTag "foo" "function" 9 "void foo() {" "" "" "" "main.ino" "" false "()"
        "void foo();" "".

(** A row of ctags output for a function [foo] of the main file, and the
    record [parseTag] makes of it. *)
Definition fooRow : string :=
  "foo" +:+ str1 tab +:+ "main.ino" +:+ str1 tab +:+ "/^void foo() {$/;"
  +:+ str1 dquote +:+ str1 tab +:+ "kind:function" +:+ str1 tab +:+ "line:3"
  +:+ str1 tab +:+ "signature:()" +:+ str1 tab +:+ "returntype:void".

Definition fooParsed : Tag :=
  mkTag "foo" "function" 3 "void foo() {" "" "" "" "main.ino" "" false "()"
        "void foo();" "".

(** A second row for [foo], its snippet declared static, and its record. *)
Definition staticFooRow : string :=
  "foo" +:+ str1 tab +:+ "main.ino" +:+ str1 tab +:+ "/^static void foo() {$/;"
  +:+ str1 dquote +:+ str1 tab +:+ "kind:function" +:+ str1 tab +:+ "line:9"
  +:+ str1 tab +:+ "signature:()" +:+ str1 tab +:+ "returntype:void".

Definition staticFooParsed : Tag :=
  mkTag "foo" "function" 9 "static void foo() {" "" "" "" "main.ino" "" false "()"
        "void foo();" "".


(** ** The helpers of the consistency filter *)

(** [removeTralingSemicolon]: [s[0 : len(s)-1]]. *)
Definition removeTralingSemicolon (s : string) : res string :=
  slice s 0 (len s - 1).

Definition removeSpacesAndTabs (s : string) : string :=
  let s := ReplaceAll s " " "" in
  let s := ReplaceAll s (str1 tab) "" in
  s.

(** ** More notions the statements use *)

(** The bytes of a string that pass a test, in their order. *)
Fixpoint keepBytes (f : ascii -> bool) (s : string) : string :=
  match s with
  | "" => ""
  | String c s' => if f c then String c (keepBytes f s') else keepBytes f s'
  end.

(** A file name as a line marker of the compiler prints it: every
    backslash doubled. *)
Fixpoint escapeBackslashes (s : string) : string :=
  match s with
  | "" => ""
  | String c s' =>
      if Ascii.eqb c backslash
      then String backslash (String backslash (escapeBackslashes s'))
      else String c (escapeBackslashes s')
  end.

(** Two states of one record: all that [parseTag] read from the row is
    the same; the flag, the prototype text and the modifier text may
    differ. *)
Definition sameOrigin (a b : Tag) : Prop :=
  FunctionName b = FunctionName a /\ Kind b = Kind a /\ Line b = Line a
  /\ Code b = Code a /\ Class b = Class a /\ Struct b = Struct a
  /\ Namespace b = Namespace a /\ Filename b = Filename a
  /\ Typeref b = Typeref a /\ Signature b = Signature a.

(** A byte that [removeSpacesAndTabs] keeps. *)
Definition notSpaceOrTab (c : ascii) : bool :=
  negb (Ascii.eqb c " ") && negb (Ascii.eqb c tab).

(** The value a part gives to a key: the trimmed text after "key:" when
    the part starts with it, and what was there before otherwise; and
    the value the parts of a row give to a key, the last such part
    winning, the empty one when there is none. *)
Definition keyValue (key : string) (acc : string) (part : string) : string :=
  if HasPrefix part (key +:+ ":")
  then TrimSpace (skipBytes (String.length key + 1) part)
  else acc.

Definition fieldValue (key : string) (parts : list string) : string :=
  fold_left (keyValue key) parts "".

(** The rows [parseTag] accepts, as a test on the row. *)
Definition accepted (row : string) : bool :=
  Contains row (str1 tab)
  && negb ((0 <=? Index row "$/;") && (Index row "$/;" <? Index row "/^")).

(** ** Rows for the insertion line *)









(** ** The query tokens of the library search *)

(** [matcherTokensFromQueryString] walks the runes of the query, which
    [range] decodes from its bytes: the query is the list of these
    runes.  The builder holds the runes written to it; [ToLower] stands
    for [strings.ToLower(sb.String())] as a function of them, and
    [sb.Len() > 0] holds exactly when a rune was written. *)
Definition rune : Type := Z.

Definition runeBackslash : rune := 92.
Definition runeQuote : rune := 34.
Definition runeSpace : rune := 32.

Section QueryTokens.

Variable ToLower : list rune -> string.

(** The loop, from a state of its four variables, and what follows it. *)
Fixpoint tokensFrom (escaped quoted : bool) (tokens : list string) (sb : list rune)
         (query : list rune) : list string :=
  match query with
  | [] => if (0 <? length sb)%nat then tokens ++ [ToLower sb] else tokens
  | r :: query' =>
      if negb escaped && (r =? runeBackslash) then
        tokensFrom true quoted tokens sb query'
      else if r =? runeQuote then
        if negb escaped
        then tokensFrom false (negb quoted) tokens sb query'
        else tokensFrom false quoted tokens (sb ++ [r]) query'
      else if negb quoted && (r =? runeSpace) then
        tokensFrom false quoted (tokens ++ [ToLower sb]) [] query'
      else
        tokensFrom false quoted tokens (sb ++ [r]) query'
  end.

Definition matcherTokensFromQueryString (query : list rune) : list string :=
  tokensFrom false false [] [] query.

End QueryTokens.

(** The stretches of a list of runes between its spaces, at least one;
    and a list of stretches without its last one when that is empty. *)
Fixpoint splitAtSpaces (query : list rune) : list (list rune) :=
  match query with
  | [] => [[]]
  | r :: query' =>
      if r =? runeSpace then [] :: splitAtSpaces query'
      else match splitAtSpaces query' with
           | field :: fields => (r :: field) :: fields
           | [] => [[r]]
           end
  end.

Fixpoint dropLastEmpty (fields : list (list rune)) : list (list rune) :=
  match fields with
  | [] => []
  | [field] => match field with [] => [] | _ => [field] end
  | field :: fields' => field :: dropLastEmpty fields'
  end.

(** A query with no backslash and no quote in it. *)
Definition plainQuery (query : list rune) : Prop :=
  Forall (fun r => r <> runeBackslash /\ r <> runeQuote) query.

(** ** The query matcher of the library search *)

(** [strings.IndexAny s chars] for [chars] of ASCII bytes, as the source
    calls it: the index of the first byte of [s] that is a byte of
    [chars], or [-1]. *)
Fixpoint IndexAny (s chars : string) : Z :=
  match s with
  | "" => -1
  | String c s' =>
      if Contains chars (str1 c) then 0
      else let i := IndexAny s' chars in
           if i <? 0 then -1 else i + 1
  end.

(** The index expression [s[i]] on a string: Go panics unless
    [0 <= i < len(s)]. *)
Definition byteAt (s : string) (i : Z) : res ascii :=
  if (0 <=? i) && (i <? len s)
  then match String.get (Z.to_nat i) s with
       | Some c => Ok c
       | None => Panic IndexOutOfRange
       end
  else Panic IndexOutOfRange.

(** [strings.Join elems sep]. *)
Fixpoint Join (elems : list string) (sep : string) : string :=
  match elems with
  | [] => ""
  | [e] => e
  | e :: elems' => e +:+ sep +:+ Join elems' sep
  end.

(** What the search reads of a library of the index and of its latest
    release, which every library of the index has.  [Version] holds
    what [Version.String()] prints, [Dependencies] the names [GetName]
    gives for the dependencies, in their order. *)
Record Release : Type := mkRelease {
  Author : string;
  Version : string;
  Maintainer : string;
  Sentence : string;
  Paragraph : string;
  Website : string;
  Category : string;
  Architectures : list string;
  Types : list string;
  ProvidesIncludes : list string;
  Dependencies : list string
}.

Record Library : Type := mkLibrary {
  Name : string;
  Latest : Release
}.

(** [defaultLibraryMatchExtractor]: the text the simple search looks
    into. *)
Definition defaultLibraryMatchExtractor (lib : Library) : string :=
  let res := Name lib +:+ " " +:+
             Paragraph (Latest lib) +:+ " " +:+
             Sentence (Latest lib) +:+ " " +:+
             Author (Latest lib) +:+ " " in
  fold_left (fun res include => res +:+ include +:+ " ")
            (ProvidesIncludes (Latest lib)) res.

(** The map [qualifiers], from a qualifier name to the text it stands
    for. *)
Definition qualifiers : gmap string (Library -> string) :=
  list_to_map [
    ("name", fun lib => Name lib);
    ("architectures", fun lib => Join (Architectures (Latest lib)) " ");
    ("author", fun lib => Author (Latest lib));
    ("category", fun lib => Category (Latest lib));
    ("dependencies", fun lib => Join (Dependencies (Latest lib)) " ");
    ("maintainer", fun lib => Maintainer (Latest lib));
    ("paragraph", fun lib => Paragraph (Latest lib));
    ("sentence", fun lib => Sentence (Latest lib));
    ("types", fun lib => Join (Types (Latest lib)) " ");
    ("version", fun lib => Version (Latest lib));
    ("website", fun lib => Website (Latest lib))
  ].

Section QueryMatcher.

(** [runes] is the decoding [range] does of a string, [builderString]
    the string a builder holds after the runes written to it, [ToLower]
    is [strings.ToLower]; [Match] and [SearchTermsFromQueryString] are
    the functions of the package [utils], which are not in the files at
    hand. *)
Variable runes : string -> list rune.
Variable builderString : list rune -> string.
Variable ToLower : string -> string.
Variable Match : string -> list string -> bool.
Variable SearchTermsFromQueryString : string -> list string.

(** One turn of the loop of the closure [matcherFromQueryString]
    returns for a query in qualifier-value syntax: the new value of
    [matched]. *)
Definition matchTerm (lib : Library) (matched : bool) (term : string) : res bool :=
  let sepIdx := IndexAny term "=:" in
  if negb (sepIdx =? -1) then
    potentialKey <-! sliceTo term sepIdx;
    separator <-! byteAt term sepIdx;
    match qualifiers !! potentialKey with
    | Some extractor =>
        target <-! sliceFrom term (sepIdx + 1);
        if Ascii.eqb separator ":"
        then Ok (matched && Match (extractor lib) [target])
        else Ok (matched && String.eqb (ToLower (extractor lib)) target)
    | None =>
        Ok (matched && Match (defaultLibraryMatchExtractor lib) [term])
    end
  else
    Ok (matched && Match (defaultLibraryMatchExtractor lib) [term]).

Fixpoint matchTerms (lib : Library) (matched : bool) (queryTerms : list string)
  : res bool :=
  match queryTerms with
  | [] => Ok matched
  | term :: queryTerms' =>
      matched' <-! matchTerm lib matched term;
      matchTerms lib matched' queryTerms'
  end.

(** The tokens of a query in qualifier-value syntax. *)
Definition queryTokens (query : string) : list string :=
  matcherTokensFromQueryString (fun sb => ToLower (builderString sb)) (runes query).

(** [matcherFromQueryString query], applied to a library. *)
Definition matcherFromQueryString (query : string) (lib : Library) : res bool :=
  let qvQuery := Contains query ":" || Contains query "=" in
  if negb qvQuery then
    let queryTerms := SearchTermsFromQueryString query in
    Ok (Match (defaultLibraryMatchExtractor lib) queryTerms)
  else
    let queryTerms := queryTokens query in
    matchTerms lib true queryTerms.

(** Whether a term, on its own, lets a library through. *)
Definition termAccepts (lib : Library) (term : string) : bool :=
  match matchTerm lib true term with
  | Ok matched => matched
  | Panic _ => false
  end.

End QueryMatcher.

(** The bytes of a string as runes and back, for queries of ASCII
    bytes. *)
Definition asciiRunes (s : string) : list rune :=
  map (fun c => Z.of_nat (nat_of_ascii c)) (String.list_ascii_of_string s).

Definition asciiString (sb : list rune) : string :=
  String.string_of_list_ascii (map (fun r => ascii_of_nat (Z.to_nat r)) sb).

(** A library to try the matcher on. *)
Definition servoLibrary : Library :=
  mkLibrary "Servo"
    (mkRelease "arduino" "1.2.1" "arduino" "servo motors" "" "" "Device Control"
               ["avr"; "sam"] ["Arduino"] ["Servo.h"] []).

(** Parameters to try the matcher with, on ASCII text: lower-casing of
    the letters A to Z, and a [Match] that asks for every term to occur
    in the lower-cased text. *)
Definition lowerByte (c : ascii) : ascii :=
  let n := nat_of_ascii c in
  if (65 <=? n)%nat && (n <=? 90)%nat then ascii_of_nat (n + 32) else c.

Fixpoint asciiLower (s : string) : string :=
  match s with
  | "" => ""
  | String c s' => String (lowerByte c) (asciiLower s')
  end.

Definition occurAll (text : string) (terms : list string) : bool :=
  forallb (Contains (asciiLower text)) terms.

(** ** The order of the search results *)

(** The [less] function [searchLibrary] hands to [sort.Slice], on the
    names of two results; [<] on Go strings compares bytes, as
    [String.ltb] does.  [EqualFold] is [strings.EqualFold]. *)
Definition searchLess (EqualFold : string -> string -> bool) (query : string)
           (nameI nameJ : string) : bool :=
  let equalsI := EqualFold nameI query in
  let equalsJ := EqualFold nameJ query in
  if equalsI && negb equalsJ then true
  else if negb equalsI && equalsJ then false
  else String.ltb nameI nameJ.

(** * Properties *)

(** ** Strings *)

Module StringFacts.
Import GoStrings.

Lemma len_nonneg s : 0 <= len s.
Proof. unfold len. lia. Qed.

Lemma len_String c s : len (String c s) = len s + 1.
Proof. unfold len. simpl. lia. Qed.

Lemma len_empty : len "" = 0.
Proof. reflexivity. Qed.

Lemma app_String c s r : String c s +:+ r = String c (s +:+ r).
Proof. reflexivity. Qed.

Lemma app_empty_l r : "" +:+ r = r.
Proof. reflexivity. Qed.

Lemma len_app s r : len (s +:+ r) = len s + len r.
Proof.
  induction s as [|c s IH]; [rewrite app_empty_l, len_empty; lia|].
  rewrite app_String, !len_String, IH. lia.
Qed.

Lemma HasPrefix_app s r : HasPrefix (s +:+ r) s = true.
Proof.
  induction s as [|c s IH]; [reflexivity|].
  rewrite app_String. simpl. rewrite Ascii.eqb_refl. exact IH.
Qed.

Lemma HasPrefix_split s p :
  HasPrefix s p = true -> exists r, s = p +:+ r.
Proof.
  revert s. induction p as [|c p IH]; intros s H.
  - exists s. reflexivity.
  - destruct s as [|d s]; [discriminate|]. simpl in H.
    destruct (Ascii.eqb_spec d c) as [->|]; [|discriminate].
    destruct (IH _ H) as [r ->]. exists r. reflexivity.
Qed.

Lemma HasPrefix_len s p : HasPrefix s p = true -> len p <= len s.
Proof.
  intros H. destruct (HasPrefix_split _ _ H) as [r ->].
  rewrite len_app. pose proof (len_nonneg r). lia.
Qed.

(** [Index] is [-1] or the position of an occurrence. *)
Lemma Index_range s sub :
  Index s sub = -1 \/ (0 <= Index s sub /\ Index s sub + len sub <= len s).
Proof.
  induction s as [|c s IH]; simpl.
  - destruct sub; simpl; [right; rewrite len_empty; lia | left; reflexivity].
  - destruct (HasPrefix (String c s) sub) eqn:Hp.
    + right. apply HasPrefix_len in Hp. lia.
    + destruct (Z.ltb_spec (Index s sub) 0); [left; reflexivity|].
      right. rewrite len_String. lia.
Qed.

Lemma Index_zero s sub : Index s sub = 0 <-> HasPrefix s sub = true.
Proof.
  destruct s as [|c s]; simpl.
  - destruct (HasPrefix "" sub); split; intros; try reflexivity; try discriminate.
  - destruct (HasPrefix (String c s) sub); [tauto|].
    destruct (Index_range s sub) as [E|[E _]].
    + rewrite E. simpl. split; intros; discriminate.
    + destruct (Z.ltb_spec (Index s sub) 0); split; intros;
        try discriminate; lia.
Qed.

Lemma Index_zero_eqb s sub : (Index s sub =? 0) = HasPrefix s sub.
Proof.
  destruct (HasPrefix s sub) eqn:Hp.
  - apply Z.eqb_eq, Index_zero, Hp.
  - apply Z.eqb_neq. intros E. apply Index_zero in E. congruence.
Qed.

Lemma Contains_range s sub :
  Contains s sub = true -> 0 <= Index s sub /\ Index s sub + len sub <= len s.
Proof.
  unfold Contains. intros H. apply Z.leb_le in H.
  destruct (Index_range s sub) as [E|E]; [lia | exact E].
Qed.

Lemma Contains_false s sub : Contains s sub = false -> Index s sub = -1.
Proof.
  unfold Contains. intros H. apply Z.leb_gt in H.
  destruct (Index_range s sub) as [E|E]; [exact E | lia].
Qed.

Lemma LastIndex_range s sub :
  LastIndex s sub = -1 \/ (0 <= LastIndex s sub /\ LastIndex s sub + len sub <= len s).
Proof.
  induction s as [|c s IH]; simpl.
  - destruct sub; simpl; [right; rewrite len_empty; lia | left; reflexivity].
  - destruct (Z.leb_spec 0 (LastIndex s sub)).
    + right. rewrite len_String. lia.
    + destruct (HasPrefix (String c s) sub) eqn:Hp; [|left; reflexivity].
      right. apply HasPrefix_len in Hp. lia.
Qed.

Lemma take_drop n s : firstBytes n s +:+ skipBytes n s = s.
Proof.
  revert s. induction n as [|n IH]; intros [|c s]; simpl; try reflexivity.
  rewrite app_String, IH. reflexivity.
Qed.

Lemma take_app_len s r : firstBytes (String.length s) (s +:+ r) = s.
Proof.
  induction s as [|c s IH]; simpl; [destruct r; reflexivity|].
  rewrite IH. reflexivity.
Qed.

Lemma drop_app_len s r : skipBytes (String.length s) (s +:+ r) = r.
Proof.
  induction s as [|c s IH]; simpl; [destruct r; reflexivity|].
  exact IH.
Qed.

Lemma take_all s : firstBytes (String.length s) s = s.
Proof. induction s as [|c s IH]; simpl; [reflexivity | rewrite IH; reflexivity]. Qed.

Lemma drop_zero s : skipBytes 0 s = s.
Proof. destruct s; reflexivity. Qed.

(** A slice within bounds is the bytes it names. *)
Lemma slice_Ok s lo hi :
  0 <= lo -> lo <= hi -> hi <= len s ->
  slice s lo hi = Ok (firstBytes (Z.to_nat (hi - lo)) (skipBytes (Z.to_nat lo) s)).
Proof.
  intros H1 H2 H3. unfold slice.
  destruct (Z.leb_spec 0 lo); [|lia].
  destruct (Z.leb_spec lo hi); [|lia].
  destruct (Z.leb_spec hi (len s)); [|lia].
  reflexivity.
Qed.

Lemma slice_backwards s lo hi : hi < lo -> slice s lo hi = Panic SliceBoundsOutOfRange.
Proof.
  intros H. unfold slice.
  destruct (Z.leb_spec lo hi); [lia|].
  destruct (0 <=? lo); reflexivity.
Qed.

Lemma sliceTo_Ok s hi :
  0 <= hi -> hi <= len s -> sliceTo s hi = Ok (firstBytes (Z.to_nat hi) s).
Proof.
  intros H1 H2. unfold sliceTo. rewrite slice_Ok by lia.
  rewrite Z.sub_0_r, drop_zero. reflexivity.
Qed.

Lemma take_ge n s : (String.length s <= n)%nat -> firstBytes n s = s.
Proof.
  revert s. induction n as [|n IH]; intros [|c s] H; simpl in *; try reflexivity; try lia.
  rewrite IH by lia. reflexivity.
Qed.

Lemma length_drop n s : String.length (skipBytes n s) = (String.length s - n)%nat.
Proof.
  revert s. induction n as [|n IH]; intros [|c s]; simpl; try reflexivity; try lia.
  apply IH.
Qed.

Lemma sliceFrom_Ok s lo :
  0 <= lo -> lo <= len s -> sliceFrom s lo = Ok (skipBytes (Z.to_nat lo) s).
Proof.
  intros H1 H2. unfold sliceFrom. rewrite slice_Ok by lia.
  rewrite take_ge; [reflexivity|].
  rewrite length_drop. unfold len in *. lia.
Qed.

End StringFacts.

Module CharFacts.
Import GoStrings StringFacts.

Lemma HasPrefix_char d s c : HasPrefix (String d s) (str1 c) = Ascii.eqb d c.
Proof. simpl. destruct (Ascii.eqb d c); reflexivity. Qed.

Lemma HasPrefix_char_empty c : HasPrefix "" (str1 c) = false.
Proof. reflexivity. Qed.

Lemma Index_char_cons d s c :
  Index (String d s) (str1 c) =
  if Ascii.eqb d c then 0
  else if Index s (str1 c) <? 0 then -1 else Index s (str1 c) + 1.
Proof.
  change (Index (String d s) (str1 c))
    with (if HasPrefix (String d s) (str1 c) then 0
          else if Index s (str1 c) <? 0 then -1 else Index s (str1 c) + 1).
  rewrite HasPrefix_char. reflexivity.
Qed.

Lemma Index_char_empty c : Index "" (str1 c) = -1.
Proof. reflexivity. Qed.

(** The first occurrence of a byte splits the string; the part before
    it is free of the byte. *)
Lemma Index_char_split s c :
  0 <= Index s (str1 c) ->
  exists pre post,
    s = pre +:+ String c post
    /\ Index s (str1 c) = len pre
    /\ Index pre (str1 c) = -1.
Proof.
  induction s as [|d s IH]; [rewrite Index_char_empty; lia|].
  rewrite Index_char_cons.
  destruct (Ascii.eqb_spec d c) as [->|Hne].
  - intros _. exists "", s. repeat split; reflexivity.
  - destruct (Z.ltb_spec (Index s (str1 c)) 0) as [Hlt|Hge]; [lia|].
    intros _. destruct (IH Hge) as (pre & post & Hs & Hi & Hpre).
    exists (String d pre), post. repeat split.
    + rewrite app_String, <- Hs. reflexivity.
    + rewrite len_String, Hi. reflexivity.
    + rewrite Index_char_cons.
      destruct (Ascii.eqb_spec d c); [contradiction|].
      rewrite Hpre. reflexivity.
Qed.

Lemma Index_char_app_free pre c post :
  Index pre (str1 c) = -1 -> Index (pre +:+ String c post) (str1 c) = len pre.
Proof.
  induction pre as [|d pre IH]; intros H.
  - rewrite app_empty_l, Index_char_cons, Ascii.eqb_refl. reflexivity.
  - rewrite app_String, Index_char_cons. rewrite Index_char_cons in H.
    destruct (Ascii.eqb d c); [discriminate|].
    destruct (Z.ltb_spec (Index pre (str1 c)) 0) as [Hlt|Hge]; [|lia].
    destruct (Index_range pre (str1 c)) as [E|[E _]]; [|lia].
    rewrite (IH E), len_String.
    pose proof (len_nonneg pre).
    destruct (Z.ltb_spec (len pre) 0); [lia | reflexivity].
Qed.

Lemma LastIndex_char_cons d s c :
  LastIndex (String d s) (str1 c) =
  if 0 <=? LastIndex s (str1 c) then LastIndex s (str1 c) + 1
  else if Ascii.eqb d c then 0 else -1.
Proof.
  change (LastIndex (String d s) (str1 c))
    with (if 0 <=? LastIndex s (str1 c) then LastIndex s (str1 c) + 1
          else if HasPrefix (String d s) (str1 c) then 0 else -1).
  rewrite HasPrefix_char. reflexivity.
Qed.

Lemma LastIndex_char_empty c : LastIndex "" (str1 c) = -1.
Proof. reflexivity. Qed.

(** A string has a last occurrence of a byte exactly when it has a
    first one. *)
Lemma LastIndex_char_none s c :
  LastIndex s (str1 c) = -1 <-> Index s (str1 c) = -1.
Proof.
  induction s as [|d s IH]; [split; reflexivity|].
  rewrite LastIndex_char_cons, Index_char_cons.
  destruct (LastIndex_range s (str1 c)) as [E|[E _]];
    destruct (Index_range s (str1 c)) as [F|[F _]].
  - rewrite E, F. simpl. destruct (Ascii.eqb d c); split; intros; congruence.
  - apply IH in E. lia.
  - apply IH in F. lia.
  - destruct (Z.leb_spec 0 (LastIndex s (str1 c))); [|lia].
    destruct (Z.ltb_spec (Index s (str1 c)) 0); [lia|].
    destruct (Ascii.eqb d c); split; intros; try discriminate; lia.
Qed.

(** The last occurrence of a byte splits the string; the part after it
    is free of the byte. *)
Lemma LastIndex_char_split s c :
  0 <= LastIndex s (str1 c) ->
  exists pre post,
    s = pre +:+ String c post
    /\ LastIndex s (str1 c) = len pre
    /\ Index post (str1 c) = -1.
Proof.
  induction s as [|d s IH]; [rewrite LastIndex_char_empty; lia|].
  rewrite LastIndex_char_cons.
  destruct (Z.leb_spec 0 (LastIndex s (str1 c))) as [Hge|Hlt].
  - intros _. destruct (IH Hge) as (pre & post & Hs & Hi & Hpost).
    exists (String d pre), post. repeat split.
    + rewrite app_String, <- Hs. reflexivity.
    + rewrite len_String, Hi. reflexivity.
    + exact Hpost.
  - destruct (Ascii.eqb_spec d c) as [->|Hne]; [|lia].
    intros _. exists "", s. repeat split; try reflexivity.
    apply LastIndex_char_none.
    destruct (LastIndex_range s (str1 c)) as [E|[E _]]; [exact E | lia].
Qed.

Lemma to_nat_len s : Z.to_nat (len s) = String.length s.
Proof. unfold len. lia. Qed.

Lemma take_len_app s r : firstBytes (Z.to_nat (len s)) (s +:+ r) = s.
Proof. rewrite to_nat_len. apply take_app_len. Qed.

Lemma drop_len_app s r : skipBytes (Z.to_nat (len s)) (s +:+ r) = r.
Proof. rewrite to_nat_len. apply drop_app_len. Qed.

Lemma app_assoc s r u : (s +:+ r) +:+ u = s +:+ (r +:+ u).
Proof.
  induction s as [|c s IH]; [reflexivity|].
  rewrite !app_String, IH. reflexivity.
Qed.

Lemma app_char s c r : s +:+ String c r = (s +:+ str1 c) +:+ r.
Proof. rewrite app_assoc. reflexivity. Qed.

Lemma drop_succ_len_app s c r : skipBytes (Z.to_nat (len s + 1)) (s +:+ String c r) = r.
Proof.
  rewrite app_char.
  replace (len s + 1) with (len (s +:+ str1 c)) by (rewrite len_app; reflexivity).
  apply drop_len_app.
Qed.

Lemma take_succ_len_app s c r :
  firstBytes (Z.to_nat (len s + 1)) (s +:+ String c r) = s +:+ str1 c.
Proof.
  rewrite app_char.
  replace (len s + 1) with (len (s +:+ str1 c)) by (rewrite len_app; reflexivity).
  apply take_len_app.
Qed.

(** [Split] always yields a first field, and a string free of the
    separator is its only field. *)
Lemma Split_nonempty s sep : exists field fields, Split s sep = field :: fields.
Proof.
  induction s as [|c s IH]; simpl; [eauto|].
  destruct (Ascii.eqb c sep); [eauto|].
  destruct IH as (f & fs & ->). eauto.
Qed.

Lemma Split_free s sep : Index s (str1 sep) = -1 -> Split s sep = [s].
Proof.
  induction s as [|c s IH]; [reflexivity|].
  rewrite Index_char_cons. simpl.
  destruct (Ascii.eqb c sep); [discriminate|].
  destruct (Z.ltb_spec (Index s (str1 sep)) 0) as [Hlt|Hge].
  - intros _. rewrite IH; [reflexivity|].
    destruct (Index_range s (str1 sep)) as [E|[E _]]; [exact E | lia].
  - destruct (Index_range s (str1 sep)) as [E|[E _]]; intros; lia.
Qed.

End CharFacts.

(** ** Parsing a row *)

Module ParseFacts.
Import GoStrings StringFacts CharFacts.

(** A part with a colon is cut into the key before the first colon and
    the trimmed value after it; the two slices are within bounds. *)
Lemma parsePart_colon st part :
  Contains part ":" = true ->
  exists field rest,
    part = field +:+ ":" +:+ rest
    /\ Index field ":" = -1
    /\ parsePart st part = Ok (assignField field (TrimSpace rest) st.1 st.2).
Proof.
  intros Hc. unfold parsePart. rewrite Hc.
  destruct (Contains_range _ _ Hc) as [H0 _].
  destruct (Index_char_split part ":"%char H0) as (pre & post & Hp & Hi & Hfree).
  exists pre, post. split; [exact Hp|]. split; [exact Hfree|].
  change (Index part ":") with (Index part (str1 ":"%char)).
  rewrite Hi. pose proof (len_nonneg pre). pose proof (len_nonneg post).
  assert (Hlen : len part = len pre + 1 + len post).
  { rewrite Hp, len_app, len_String. lia. }
  rewrite sliceTo_Ok by lia. cbn [bind].
  rewrite sliceFrom_Ok by lia. cbn [bind].
  rewrite Hp at 1 2. rewrite take_len_app, drop_succ_len_app. reflexivity.
Qed.

Lemma parsePart_total st part : exists st', parsePart st part = Ok st'.
Proof.
  destruct (Contains part ":") eqn:Hc.
  - destruct (parsePart_colon st part Hc) as (f & r & _ & _ & ->). eauto.
  - unfold parsePart. rewrite Hc. eauto.
Qed.

Lemma parseParts_total parts : forall st, exists st', parseParts st parts = Ok st'.
Proof.
  induction parts as [|part parts IH]; intros st; simpl; [eauto|].
  destruct (parsePart_total st part) as [st' ->]. cbn [bind]. apply IH.
Qed.

(** A row of two fields or more: the fields are read without a panic,
    and only the pattern markers are left to decide the result. *)
Lemma parseTag_fields row name file rest :
  Split row tab = name :: file :: rest ->
  exists st,
    parseParts (startTag name file, "") rest = Ok st
    /\ parseTag row = readCode row (withPrototype st).
Proof.
  intros Hs. destruct (parseParts_total rest (startTag name file, "")) as [st Hst].
  exists st. split; [exact Hst|].
  unfold parseTag. rewrite Hs. cbn [index lookup list_lookup bind].
  unfold sliceListFrom. cbn [length Nat.leb list.drop bind].
  change (list.drop 0 rest) with rest.
  unfold startTag in Hst. rewrite Hst. cbn [bind]. reflexivity.
Qed.

(** A row of one field only: [parts[1]] is out of range. *)
Lemma parseTag_one_field row name :
  Split row tab = [name] -> parseTag row = Panic IndexOutOfRange.
Proof. intros Hs. unfold parseTag. rewrite Hs. reflexivity. Qed.

Lemma removeEmpty_single row :
  TrimSpace row = row -> 0 < len row -> removeEmpty [row] = [row].
Proof.
  intros Ht Hl. simpl. rewrite Ht.
  destruct (Z.ltb_spec 0 (len row)); [reflexivity | lia].
Qed.

End ParseFacts.

(** ** Reading an integer *)

Module AtoiFacts.
Import GoStrings GoStrconv StringFacts.

Lemma isDigit_value c : isDigit c = true -> 0 <= byteVal c - 48 <= 9.
Proof. unfold isDigit. intros H. apply andb_prop in H as [H1 H2]. lia. Qed.

Lemma atoiDigits_nonneg s : forall n m, 0 <= n -> atoiDigits n s = Some m -> 0 <= m.
Proof.
  induction s as [|c s IH]; simpl; intros n m Hn H; [congruence|].
  destruct (isDigit c) eqn:Hd; [|discriminate].
  apply isDigit_value in Hd. eapply IH; [|exact H]. lia.
Qed.

Lemma atoiDigits_malformed s : forall n, allDigits s = false -> atoiDigits n s = None.
Proof.
  induction s as [|c s IH]; simpl; intros n H; [discriminate|].
  destruct (isDigit c); [apply IH; exact H | reflexivity].
Qed.

Lemma parseUintFrom_nonneg s : forall n, 0 <= n -> 0 <= (parseUintFrom n s).1.
Proof.
  induction s as [|c s IH]; simpl; intros n Hn; [exact Hn|].
  destruct (isDigit c) eqn:Hd; [|simpl; lia].
  apply isDigit_value in Hd.
  destruct (cutoffUint64 <=? n); [simpl; unfold maxUint64; lia|].
  destruct (maxUint64 <? n * 10 + (byteVal c - 48)); [simpl; unfold maxUint64; lia|].
  apply IH. lia.
Qed.

Lemma parseUintFrom_malformed s : forall n,
  allDigits s = false ->
  parseUintFrom n s = (0, Some ErrSyntax)
  \/ parseUintFrom n s = (maxUint64, Some ErrRange).
Proof.
  induction s as [|c s IH]; simpl; intros n H; [discriminate|].
  destruct (isDigit c); [|left; reflexivity].
  destruct (cutoffUint64 <=? n); [right; reflexivity|].
  destruct (maxUint64 <? n * 10 + (byteVal c - 48)); [right; reflexivity|].
  apply IH. exact H.
Qed.

Lemma ParseUint_nonneg s : 0 <= (ParseUint s).1.
Proof.
  destruct s; [simpl; lia|]. unfold ParseUint. apply parseUintFrom_nonneg. lia.
Qed.

Lemma ParseUint_malformed s :
  (0 <? len s) && allDigits s = false ->
  ParseUint s = (0, Some ErrSyntax) \/ ParseUint s = (maxUint64, Some ErrRange).
Proof.
  destruct s as [|c s]; [left; reflexivity|].
  rewrite len_String. pose proof (len_nonneg s).
  destruct (Z.ltb_spec 0 (len s + 1)); [|lia].
  intros Hd. apply parseUintFrom_malformed. exact Hd.
Qed.

Lemma first_is_minus c s : HasPrefix (String c s) "-" = Ascii.eqb c "-".
Proof. apply CharFacts.HasPrefix_char. Qed.

Lemma ParseInt_nonneg s : HasPrefix s "-" = false -> 0 <= (ParseInt s).1.
Proof.
  destruct s as [|c s]; [simpl; lia|].
  rewrite first_is_minus. intros Hm. unfold ParseInt. rewrite Hm.
  rewrite orb_false_r. cbn [negb andb].
  set (digits := if Ascii.eqb c "+" then s else String c s).
  pose proof (ParseUint_nonneg digits) as Hu.
  destruct (ParseUint digits) as [un [[|]|]]; simpl in *; try lia;
    destruct (maxInt64 + 1 <=? un); simpl; unfold maxInt64; lia.
Qed.

Lemma ParseInt_malformed s :
  wellFormedInt s = false ->
  (ParseInt s).1 = 0 \/ (ParseInt s).1 = maxInt64 \/ (ParseInt s).1 = minInt64.
Proof.
  destruct s as [|c s]; [left; reflexivity|].
  unfold wellFormedInt, ParseInt.
  rewrite (orb_comm (Ascii.eqb c "+")).
  set (digits := if Ascii.eqb c "-" || Ascii.eqb c "+" then s else String c s).
  intros H. destruct (ParseUint_malformed digits H) as [-> | ->].
  - left. reflexivity.
  - destruct (Ascii.eqb c "-"); simpl; [right; right | right; left]; reflexivity.
Qed.

(** No leading minus sign, no negative value. *)
Lemma Atoi_nonneg s : HasPrefix s "-" = false -> 0 <= (Atoi s).1.
Proof.
  intros Hm. unfold Atoi.
  destruct ((0 <? len s) && (len s <? 19)); [|apply ParseInt_nonneg; exact Hm].
  destruct s as [|c s]; [simpl; lia|].
  rewrite first_is_minus in Hm. rewrite Hm. cbn [orb].
  set (digits := if Ascii.eqb c "+" then s else String c s).
  destruct (len digits <? 1); [simpl; lia|].
  destruct (atoiDigits 0 digits) as [n|] eqn:Hn; [|simpl; lia].
  simpl. eapply atoiDigits_nonneg; [|exact Hn]. lia.
Qed.

(** A short value that is no decimal integer reads as [0]. *)
Lemma Atoi_malformed_short s :
  wellFormedInt s = false -> len s < 19 -> Atoi s = (0, Some ErrSyntax).
Proof.
  intros Hw Hl. unfold Atoi.
  destruct s as [|c s]; [reflexivity|].
  rewrite len_String in *. pose proof (len_nonneg s).
  destruct (Z.ltb_spec 0 (len s + 1)); [|lia].
  destruct (Z.ltb_spec (len s + 1) 19); [|lia]. cbn [andb].
  unfold wellFormedInt in Hw.
  set (digits := if Ascii.eqb c "-" || Ascii.eqb c "+" then s else String c s) in *.
  pose proof (len_nonneg digits).
  destruct (Z.ltb_spec (len digits) 1); [reflexivity|].
  destruct (Z.ltb_spec 0 (len digits)); [|lia]. cbn [andb] in Hw.
  rewrite (atoiDigits_malformed _ _ Hw). reflexivity.
Qed.

(** Whatever its length, it reads as [0] or as one of the two bounds. *)
Lemma Atoi_malformed s :
  wellFormedInt s = false ->
  (Atoi s).1 = 0 \/ (Atoi s).1 = maxInt64 \/ (Atoi s).1 = minInt64.
Proof.
  intros Hw. destruct (Z.ltb_spec (len s) 19) as [Hl|Hl].
  - left. rewrite Atoi_malformed_short; [reflexivity | exact Hw | exact Hl].
  - unfold Atoi. destruct (Z.ltb_spec (len s) 19); [lia|].
    rewrite andb_false_r. apply ParseInt_malformed. exact Hw.
Qed.

End AtoiFacts.

(** ** The passes *)

Module PassFacts.
Import GoStrings StringFacts CharFacts.

Lemma lookup_map {A B : Type} (f : A -> B) (l : list A) (i : nat) :
  map f l !! i = f <$> (l !! i).
Proof.
  revert i. induction l as [|x l IH]; intros [|i]; simpl; try reflexivity.
  apply IH.
Qed.

Lemma Forall2_map_self {A : Type} (R : A -> A -> Prop) (f : A -> A) (l : list A) :
  (forall x, R x (f x)) -> Forall2 R l (map f l).
Proof. intros H. induction l; simpl; constructor; auto. Qed.

Lemma setSkipMe_same t : setSkipMe (SkipMe t) t = t.
Proof. destruct t. reflexivity. Qed.

Lemma flagOnly_refl t : flagOnly t t.
Proof. exists (SkipMe t). split; [symmetry; apply setSkipMe_same | auto]. Qed.

Lemma flagOnly_set t : flagOnly t (setSkipMe true t).
Proof. exists true. split; [reflexivity | auto]. Qed.

Lemma flagOnly_monotone a b : flagOnly a b -> SkipMe a = true -> SkipMe b = true.
Proof. intros (v & -> & Hv) Ha. simpl. auto. Qed.

Lemma flagOnly_fields a b :
  flagOnly a b ->
  FunctionName b = FunctionName a /\ Kind b = Kind a /\ Line b = Line a
  /\ Code b = Code a /\ Filename b = Filename a
  /\ Prototype b = Prototype a /\ PrototypeModifiers b = PrototypeModifiers a.
Proof. intros (v & -> & _). repeat split. Qed.

(** *** [skipTagsWhere] *)

Lemma skipTagsWhere_flagOnly f tags : Forall2 flagOnly tags (skipTagsWhere f tags).
Proof.
  apply Forall2_map_self. intros t.
  destruct (SkipMe t) eqn:Hs; simpl; [apply flagOnly_refl|].
  exists (f t). split; [reflexivity | congruence].
Qed.

Lemma skipTagsWhere_lookup f tags i t :
  tags !! i = Some t ->
  skipTagsWhere f tags !! i
  = Some (if negb (SkipMe t) then setSkipMe (f t) t else t).
Proof. intros H. unfold skipTagsWhere. rewrite lookup_map, H. reflexivity. Qed.

(** *** [removeDefinedProtypes] *)

Lemma mapGet_insert d k k' :
  mapGet (<[k := true]> d) k' = if decide (k = k') then true else mapGet d k'.
Proof.
  unfold mapGet. rewrite lookup_insert. destruct (decide (k = k')); reflexivity.
Qed.

Lemma mapGet_empty k : mapGet ∅ k = false.
Proof. unfold mapGet. rewrite lookup_empty. reflexivity. Qed.

Lemma eqb_decide (a b : string) : String.eqb a b = bool_decide (a = b).
Proof.
  destruct (String.eqb_spec a b) as [->|Hne].
  - rewrite bool_decide_eq_true_2; reflexivity.
  - rewrite bool_decide_eq_false_2; [reflexivity | exact Hne].
Qed.

(** The set the first loop builds: what was there, and the texts of the
    records of kind "prototype". *)
Lemma collectDefined_spec tags : forall d text,
  mapGet (collectDefined d tags) text = true
  <-> mapGet d text = true \/ declaredText tags text.
Proof.
  induction tags as [|t tags IH]; intros d text; simpl.
  - split; [auto|]. intros [H | (p & Hp & _)]; [exact H|].
    apply not_elem_of_nil in Hp. contradiction.
  - destruct (String.eqb_spec (Kind t) kindPrototype) as [Hk|Hk];
      rewrite IH; [rewrite mapGet_insert|].
    + destruct (decide (Prototype t = text)) as [He|He].
      * split; [|auto]. intros _. right. exists t.
        split; [apply list_elem_of_here | auto].
      * split; (intros [H | (p & Hp & Hpk & Hpt)]; [left; exact H|]).
        -- right. exists p. split; [apply list_elem_of_further; exact Hp | auto].
        -- apply elem_of_cons in Hp as [-> | Hp]; [contradiction|].
           right. exists p. auto.
    + split; (intros [H | (p & Hp & Hpk & Hpt)]; [left; exact H|]).
      * right. exists p. split; [apply list_elem_of_further; exact Hp | auto].
      * apply elem_of_cons in Hp as [-> | Hp]; [contradiction|].
        right. exists p. auto.
Qed.

Lemma removeDefinedProtypes_flagOnly tags :
  Forall2 flagOnly tags (removeDefinedProtypes tags).
Proof.
  apply Forall2_map_self. intros t.
  destruct (mapGet _ _); [apply flagOnly_set | apply flagOnly_refl].
Qed.

Lemma removeDefinedProtypes_lookup tags i t :
  tags !! i = Some t ->
  exists t',
    removeDefinedProtypes tags !! i = Some t'
    /\ (declaredText tags (Prototype t) -> t' = setSkipMe true t)
    /\ (~ declaredText tags (Prototype t) -> t' = t).
Proof.
  intros H. unfold removeDefinedProtypes. rewrite lookup_map, H. simpl.
  pose proof (collectDefined_spec tags ∅ (Prototype t)) as Hspec.
  rewrite mapGet_empty in Hspec.
  destruct (mapGet (collectDefined ∅ tags) (Prototype t)) eqn:Hm.
  - eexists. split; [reflexivity|]. split; [reflexivity|].
    intros Hn. destruct Hn. destruct Hspec as [Hspec _].
    destruct (Hspec eq_refl) as [?|?]; [discriminate | assumption].
  - eexists. split; [reflexivity|]. split; [|reflexivity].
    intros Hd. destruct Hspec as [_ Hspec].
    assert (false = true) as Hf by (apply Hspec; right; exact Hd).
    discriminate Hf.
Qed.

End PassFacts.

Module DuplicateFacts.
Import PassFacts.

Lemma skipDuplicatesFrom_flagOnly tags : forall d,
  Forall2 flagOnly tags (skipDuplicatesFrom d tags).
Proof.
  induction tags as [|t tags IH]; intros d; simpl; [constructor|].
  destruct (negb (mapGet d (Prototype t)) && negb (SkipMe t));
    constructor; auto using flagOnly_refl, flagOnly_set.
Qed.

(** A record survives the loop exactly when it is not skipped, its text
    is not in the set the loop starts from, and no record before it
    with the same text is unskipped. *)
Lemma skipDuplicatesFrom_lookup tags : forall d i t,
  tags !! i = Some t ->
  exists t',
    skipDuplicatesFrom d tags !! i = Some t'
    /\ t' = setSkipMe (SkipMe t') t
    /\ (SkipMe t' = false
        <-> mapGet d (Prototype t) = false /\ firstOfText tags i t).
Proof.
  induction tags as [|h tags IH]; intros d i t Hi; [discriminate|].
  destruct i as [|i]; simpl in Hi.
  - injection Hi as ->. simpl.
    destruct (mapGet d (Prototype t)) eqn:Hm; destruct (SkipMe t) eqn:Hs; simpl.
    + eexists. split; [reflexivity|]. split; [reflexivity|]. simpl.
      split; [discriminate | intros [? _]; discriminate].
    + eexists. split; [reflexivity|]. split; [reflexivity|]. simpl.
      split; [discriminate | intros [? _]; discriminate].
    + eexists. split; [reflexivity|]. split; [reflexivity|]. simpl.
      split; [discriminate | intros [_ [? _]]; congruence].
    + exists t. split; [reflexivity|]. rewrite Hs.
      split; [rewrite <- Hs; symmetry; apply setSkipMe_same|].
      split; [|reflexivity]. intros _. split; [reflexivity|].
      split; [exact Hs|]. intros j tj Hj. lia.
  - simpl.
    destruct (negb (mapGet d (Prototype h)) && negb (SkipMe h)) eqn:Hkeep; simpl.
    + apply andb_prop in Hkeep as [Hm Hs].
      apply negb_true_iff in Hm. apply negb_true_iff in Hs.
      destruct (IH (<[Prototype h := true]> d) i t Hi) as (t' & Hl & Ht' & Hiff).
      exists t'. split; [exact Hl|]. split; [exact Ht'|].
      rewrite Hiff, mapGet_insert. clear Hiff.
      destruct (decide (Prototype h = Prototype t)) as [He|Hne].
      * split; [intros [? _]; discriminate|].
        intros [_ [_ Hfirst]].
        specialize (Hfirst 0%nat h ltac:(lia) eq_refl He). congruence.
      * split.
        -- intros [Hd [Hst Hfirst]]. split; [exact Hd|]. split; [exact Hst|].
           intros [|j] tj Hlt Hj Hp; simpl in Hj.
           ++ injection Hj as <-. contradiction.
           ++ apply (Hfirst j tj); [lia | exact Hj | exact Hp].
        -- intros [Hd [Hst Hfirst]]. split; [exact Hd|]. split; [exact Hst|].
           intros j tj Hlt Hj Hp.
           apply (Hfirst (S j) tj); [lia | exact Hj | exact Hp].
    + destruct (IH d i t Hi) as (t' & Hl & Ht' & Hiff).
      exists t'. split; [exact Hl|]. split; [exact Ht'|].
      rewrite Hiff. clear Hiff.
      split.
      * intros [Hd [Hst Hfirst]]. split; [exact Hd|]. split; [exact Hst|].
        intros [|j] tj Hlt Hj Hp; simpl in Hj.
        -- injection Hj as <-.
           destruct (SkipMe h) eqn:Hs; [reflexivity|].
           rewrite Hp, Hd in Hkeep. discriminate.
        -- apply (Hfirst j tj); [lia | exact Hj | exact Hp].
      * intros [Hd [Hst Hfirst]]. split; [exact Hd|]. split; [exact Hst|].
        intros j tj Hlt Hj Hp.
        apply (Hfirst (S j) tj); [lia | exact Hj | exact Hp].
Qed.

Lemma skipDuplicates_lookup tags i t :
  tags !! i = Some t ->
  exists t',
    skipDuplicates tags !! i = Some t'
    /\ t' = setSkipMe (SkipMe t') t
    /\ (SkipMe t' = false <-> firstOfText tags i t).
Proof.
  intros Hi. destruct (skipDuplicatesFrom_lookup tags ∅ i t Hi) as (t' & Hl & Ht' & Hiff).
  exists t'. split; [exact Hl|]. split; [exact Ht'|].
  rewrite Hiff, mapGet_empty. tauto.
Qed.

(** Below any unskipped record there is a first unskipped record with
    the same text. *)
Lemma firstOfText_exists tags : forall i t,
  tags !! i = Some t -> SkipMe t = false ->
  exists k tk,
    (k <= i)%nat /\ tags !! k = Some tk
    /\ Prototype tk = Prototype t /\ firstOfText tags k tk.
Proof.
  intros i. induction i as [i IH] using lt_wf_ind. intros t Hi Hs.
  destruct (decide (Exists (fun tj => Prototype tj = Prototype t /\ SkipMe tj = false)
                           (firstn i tags))) as [Hex|Hno].
  - apply Exists_exists in Hex as (tj & Hin & Hp & Hsj).
    apply list_elem_of_lookup in Hin as [j Hj].
    apply lookup_take_Some in Hj as [Hj Hlt].
    destruct (IH j Hlt tj Hj Hsj) as (k & tk & Hk & Hlk & Hpk & Hfirst).
    exists k, tk. split; [lia|]. split; [exact Hlk|].
    split; [congruence | exact Hfirst].
  - exists i, t. split; [lia|]. split; [exact Hi|]. split; [reflexivity|].
    split; [exact Hs|]. intros j tj Hlt Hj Hp.
    destruct (SkipMe tj) eqn:Hsj; [reflexivity|].
    destruct Hno. apply Exists_exists. exists tj.
    split; [|auto]. apply list_elem_of_lookup. exists j.
    apply lookup_take_Some. auto.
Qed.

End DuplicateFacts.

(** ** Prototype generation *)

Module PrototypeFacts.
Import GoStrings StringFacts CharFacts PassFacts.

Section WithLineSource.

Variable findTemplateMultiline : Tag -> string.

(** Without the template keyword in front, only the modifier text is
    written: "static" when the snippet has "static " in it. *)
Lemma addPrototype_plain tag :
  HasPrefix (Prototype tag) keywordTemplate = false ->
  addPrototype findTemplateMultiline tag
  = Ok (setPrototypeModifiers
          (if Contains (Code tag) "static " then "static" else "") tag).
Proof.
  intros Hp. unfold addPrototype. rewrite Index_zero_eqb, Hp.
  change (Code (setPrototypeModifiers "" tag)) with (Code tag).
  change (keywordStatic +:+ " ") with "static ".
  destruct (Contains (Code tag) "static "); destruct tag; reflexivity.
Qed.

(** With the keyword in front of the text but not of the snippet,
    the declaration is rebuilt from the source lines. *)
Lemma addPrototype_multiline tag :
  HasPrefix (Prototype tag) keywordTemplate = true ->
  HasPrefix (Code tag) keywordTemplate = false ->
  addPrototype findTemplateMultiline tag
  = Ok (setPrototype (findTemplateMultiline tag +:+ ";") tag).
Proof.
  intros Hp Hc. unfold addPrototype.
  rewrite !Index_zero_eqb, Hp, Hc. reflexivity.
Qed.

(** With the keyword in front of both, the snippet is cut before its
    first brace. *)
Lemma addPrototype_template_brace tag :
  HasPrefix (Prototype tag) keywordTemplate = true ->
  HasPrefix (Code tag) keywordTemplate = true ->
  Contains (Code tag) "{" = true ->
  exists pre post,
    Code tag = pre +:+ "{" +:+ post
    /\ Contains pre "{" = false
    /\ addPrototype findTemplateMultiline tag = Ok (setPrototype (pre +:+ ";") tag).
Proof.
  intros Hp Hc Hb. unfold addPrototype.
  rewrite !Index_zero_eqb, Hp, Hc, Hb.
  destruct (Contains_range _ _ Hb) as [H0 _].
  destruct (Index_char_split (Code tag) "{"%char H0) as (pre & post & Hs & Hi & Hfree).
  exists pre, post. split; [exact Hs|].
  split; [unfold Contains; change "{" with (str1 "{"%char); rewrite Hfree; reflexivity|].
  change (Index (Code tag) "{") with (Index (Code tag) (str1 "{"%char)).
  rewrite Hi. pose proof (len_nonneg pre). pose proof (len_nonneg post).
  rewrite sliceTo_Ok; [|lia|rewrite Hs, len_app; rewrite len_String; lia].
  cbn [bind]. rewrite Hs at 1. rewrite take_len_app. reflexivity.
Qed.

(** Without a brace, it is cut after its last closing parenthesis. *)
Lemma addPrototype_template_paren tag :
  HasPrefix (Prototype tag) keywordTemplate = true ->
  HasPrefix (Code tag) keywordTemplate = true ->
  Contains (Code tag) "{" = false ->
  Contains (Code tag) ")" = true ->
  exists pre post,
    Code tag = pre +:+ ")" +:+ post
    /\ Contains post ")" = false
    /\ addPrototype findTemplateMultiline tag = Ok (setPrototype (pre +:+ ")" +:+ ";") tag).
Proof.
  intros Hp Hc Hb Hparen. unfold addPrototype.
  rewrite !Index_zero_eqb, Hp, Hc, Hb.
  assert (0 <= LastIndex (Code tag) (str1 ")"%char)) as H0.
  { destruct (LastIndex_range (Code tag) (str1 ")"%char)) as [E|[E _]]; [|exact E].
    apply LastIndex_char_none in E.
    apply Contains_range in Hparen as [Hparen _].
    change ")" with (str1 ")"%char) in Hparen. lia. }
  destruct (LastIndex_char_split (Code tag) ")"%char H0) as (pre & post & Hs & Hi & Hfree).
  exists pre, post. split; [exact Hs|].
  split; [unfold Contains; change ")" with (str1 ")"%char); rewrite Hfree; reflexivity|].
  change (LastIndex (Code tag) ")") with (LastIndex (Code tag) (str1 ")"%char)).
  rewrite Hi. pose proof (len_nonneg pre). pose proof (len_nonneg post).
  rewrite sliceTo_Ok; [|lia|rewrite Hs, len_app; rewrite len_String; lia].
  cbn [bind]. rewrite Hs at 1. rewrite take_succ_len_app.
  rewrite CharFacts.app_assoc. reflexivity.
Qed.

(** With neither, nothing of the snippet is kept. *)
Lemma addPrototype_template_bare tag :
  HasPrefix (Prototype tag) keywordTemplate = true ->
  HasPrefix (Code tag) keywordTemplate = true ->
  Contains (Code tag) "{" = false ->
  Contains (Code tag) ")" = false ->
  addPrototype findTemplateMultiline tag = Ok (setPrototype ";" tag).
Proof.
  intros Hp Hc Hb Hparen. unfold addPrototype.
  rewrite !Index_zero_eqb, Hp, Hc, Hb.
  apply Contains_false in Hparen.
  change ")" with (str1 ")"%char) in *.
  apply LastIndex_char_none in Hparen. rewrite Hparen.
  destruct (Code tag); reflexivity.
Qed.

(** [addPrototype] never panics. *)
Lemma addPrototype_total tag : exists tag', addPrototype findTemplateMultiline tag = Ok tag'.
Proof.
  destruct (HasPrefix (Prototype tag) keywordTemplate) eqn:Hp;
    [|rewrite addPrototype_plain by exact Hp; eauto].
  destruct (HasPrefix (Code tag) keywordTemplate) eqn:Hc;
    [|rewrite addPrototype_multiline by assumption; eauto].
  destruct (Contains (Code tag) "{") eqn:Hb.
  - destruct (addPrototype_template_brace tag Hp Hc Hb) as (? & ? & _ & _ & ->). eauto.
  - destruct (Contains (Code tag) ")") eqn:Hparen.
    + destruct (addPrototype_template_paren tag Hp Hc Hb Hparen) as (? & ? & _ & _ & ->).
      eauto.
    + rewrite addPrototype_template_bare by assumption. eauto.
Qed.

Lemma addPrototype_generated tag : addPrototype findTemplateMultiline tag = Ok (generated findTemplateMultiline tag).
Proof.
  unfold generated.
  destruct (addPrototype_total tag) as [tag' ->]. reflexivity.
Qed.

Lemma generated_eq tag tag' : addPrototype findTemplateMultiline tag = Ok tag' -> generated findTemplateMultiline tag = tag'.
Proof. intros H. unfold generated. rewrite H. reflexivity. Qed.

(** It writes the prototype text or the modifier text, nothing else. *)
Lemma generated_shape tag :
  (exists text, generated findTemplateMultiline tag = setPrototype text tag)
  \/ (exists m, generated findTemplateMultiline tag = setPrototypeModifiers m tag).
Proof.
  destruct (HasPrefix (Prototype tag) keywordTemplate) eqn:Hp;
    [|right; eexists; apply generated_eq, addPrototype_plain; exact Hp].
  left.
  destruct (HasPrefix (Code tag) keywordTemplate) eqn:Hc;
    [|eexists; apply generated_eq, addPrototype_multiline; assumption].
  destruct (Contains (Code tag) "{") eqn:Hb.
  - destruct (addPrototype_template_brace tag Hp Hc Hb) as (? & ? & _ & _ & H).
    eexists. apply generated_eq, H.
  - destruct (Contains (Code tag) ")") eqn:Hparen.
    + destruct (addPrototype_template_paren tag Hp Hc Hb Hparen) as (? & ? & _ & _ & H).
      eexists. apply generated_eq, H.
    + eexists. apply generated_eq, addPrototype_template_bare; assumption.
Qed.

Lemma generated_fields tag :
  SkipMe (generated findTemplateMultiline tag) = SkipMe tag /\ Kind (generated findTemplateMultiline tag) = Kind tag
  /\ FunctionName (generated findTemplateMultiline tag) = FunctionName tag
  /\ Line (generated findTemplateMultiline tag) = Line tag /\ Code (generated findTemplateMultiline tag) = Code tag
  /\ Filename (generated findTemplateMultiline tag) = Filename tag.
Proof.
  destruct (generated_shape tag) as [[x ->]|[x ->]]; repeat split.
Qed.

Lemma generated_plain tag :
  HasPrefix (Prototype tag) keywordTemplate = false ->
  generated findTemplateMultiline tag
  = setPrototypeModifiers (if Contains (Code tag) "static " then "static" else "") tag.
Proof. intros Hp. apply generated_eq, addPrototype_plain, Hp. Qed.

(** The pass as a whole: every unskipped record is replaced by the
    tag [addPrototype] leaves behind. *)
Lemma addPrototypes_Ok tags :
  addPrototypes findTemplateMultiline tags
  = Ok (map (fun tag => if negb (SkipMe tag) then generated findTemplateMultiline tag else tag) tags).
Proof.
  induction tags as [|tag tags IH]; simpl; [reflexivity|].
  rewrite IH. destruct (SkipMe tag); simpl; [reflexivity|].
  rewrite addPrototype_generated. reflexivity.
Qed.

Lemma addPrototypes_monotone tags out :
  addPrototypes findTemplateMultiline tags = Ok out -> skipMonotone tags out.
Proof.
  rewrite addPrototypes_Ok. intros [= <-].
  apply Forall2_map_self. intros t Hs. rewrite Hs. simpl. exact Hs.
Qed.

End WithLineSource.

End PrototypeFacts.

(** ** The pipeline *)

Module PipelineFacts.
Import GoStrings PassFacts DuplicateFacts PrototypeFacts.

Lemma skipMonotone_refl tags : skipMonotone tags tags.
Proof. unfold skipMonotone. induction tags; constructor; auto. Qed.

Lemma skipMonotone_trans l1 l2 l3 :
  skipMonotone l1 l2 -> skipMonotone l2 l3 -> skipMonotone l1 l3.
Proof.
  unfold skipMonotone. intros H12. revert l3.
  induction H12 as [|a b l1 l2 Hab _ IH]; intros l3 H23; inversion H23; subst;
    constructor; auto.
Qed.

Lemma flagOnly_skipMonotone l1 l2 : Forall2 flagOnly l1 l2 -> skipMonotone l1 l2.
Proof.
  unfold skipMonotone. intros H. eapply Forall2_impl; [exact H|].
  intros a b. apply flagOnly_monotone.
Qed.

Lemma flagOnly_trans a b c : flagOnly a b -> flagOnly b c -> flagOnly a c.
Proof.
  intros (v & -> & Hv) (w & -> & Hw). exists w. split; [reflexivity|].
  simpl in Hw. auto.
Qed.

Lemma flagOnly_chain l1 l2 l3 :
  Forall2 flagOnly l1 l2 -> Forall2 flagOnly l2 l3 -> Forall2 flagOnly l1 l3.
Proof.
  intros H12. revert l3.
  induction H12 as [|a b l1 l2 Hab _ IH]; intros l3 H23; inversion H23; subst;
    constructor; eauto using flagOnly_trans.
Qed.

Lemma skipMonotone_lookup before after k a :
  skipMonotone before after ->
  before !! k = Some a -> SkipMe a = true ->
  exists b, after !! k = Some b /\ SkipMe b = true.
Proof.
  intros Hm Hk Ha. destruct (Forall2_lookup_l _ _ _ _ _ Hm Hk) as (b & Hb & Hab).
  exists b. auto.
Qed.

Section WithEnvironment.

Variable findTemplateMultiline : Tag -> string.
Variable prototypeAndCodeDontMatch : Tag -> bool.
Variable insideCLinkageBlock : Tag -> bool.

Lemma fixCLinkage_monotone tags :
  skipMonotone tags (fixCLinkageTagsDeclarations insideCLinkageBlock tags).
Proof.
  apply Forall2_map_self. intros t Hs.
  destruct (insideCLinkageBlock t); simpl; exact Hs.
Qed.

Lemma fixCLinkage_lookup tags i t :
  tags !! i = Some t ->
  fixCLinkageTagsDeclarations insideCLinkageBlock tags !! i
  = Some (if insideCLinkageBlock t
          then setPrototypeModifiers (keywordExternC +:+ " " +:+ PrototypeModifiers t) t
          else t).
Proof.
  intros H. unfold fixCLinkageTagsDeclarations. rewrite lookup_map, H. reflexivity.
Qed.

Lemma passes_sound :
  Forall soundPass
         (passes findTemplateMultiline prototypeAndCodeDontMatch insideCLinkageBlock).
Proof.
  unfold passes. repeat (apply Forall_cons; split); try apply Forall_nil_2;
    intros tags.
  - eexists. split; [reflexivity|].
    apply flagOnly_skipMonotone, skipTagsWhere_flagOnly.
  - eexists. split; [reflexivity|].
    apply flagOnly_skipMonotone, skipTagsWhere_flagOnly.
  - eexists. split; [apply addPrototypes_Ok|].
    eapply addPrototypes_monotone, addPrototypes_Ok.
  - eexists. split; [reflexivity|].
    apply flagOnly_skipMonotone, removeDefinedProtypes_flagOnly.
  - eexists. split; [reflexivity|].
    apply flagOnly_skipMonotone, skipDuplicatesFrom_flagOnly.
  - eexists. split; [reflexivity|].
    apply flagOnly_skipMonotone, skipTagsWhere_flagOnly.
  - eexists. split; [reflexivity|]. apply fixCLinkage_monotone.
Qed.

Lemma runList_sound ps : Forall soundPass ps -> soundPass (runList ps).
Proof.
  induction 1 as [|pass ps Hp _ IH]; intros tags; simpl.
  - exists tags. split; [reflexivity | apply skipMonotone_refl].
  - destruct (Hp tags) as (mid & -> & H1). cbn [bind].
    destruct (IH mid) as (out & -> & H2).
    exists out. split; [reflexivity | eapply skipMonotone_trans; eassumption].
Qed.

Lemma runList_app ps1 ps2 tags :
  runList (ps1 ++ ps2) tags = (mid <-! runList ps1 tags; runList ps2 mid).
Proof.
  revert tags. induction ps1 as [|pass ps1 IH]; intros tags; simpl; [reflexivity|].
  destruct (pass tags); simpl; [apply IH | reflexivity].
Qed.

(** The states after [n] and after [n + d] passes both exist, and
    the flags only rise from the first to the second. *)
Lemma stateAfter_monotone tags n d :
  exists before after,
    stateAfter findTemplateMultiline prototypeAndCodeDontMatch
               insideCLinkageBlock n tags = Ok before
    /\ stateAfter findTemplateMultiline prototypeAndCodeDontMatch
                  insideCLinkageBlock (n + d) tags = Ok after
    /\ skipMonotone before after.
Proof.
  unfold stateAfter. rewrite <- take_take_drop, runList_app.
  destruct (runList_sound _ (Forall_take _ n _ passes_sound) tags)
    as (before & -> & _).
  cbn [bind].
  destruct (runList_sound _ (Forall_take _ d _ (Forall_drop _ n _ passes_sound)) before)
    as (after & -> & Hm).
  exists before, after. auto.
Qed.

(** [Parse] runs the seven passes of the list. *)
Lemma runPasses_stateAfter tags :
  runPasses findTemplateMultiline prototypeAndCodeDontMatch insideCLinkageBlock tags
  = stateAfter findTemplateMultiline prototypeAndCodeDontMatch
               insideCLinkageBlock 7 tags.
Proof.
  unfold runPasses, stateAfter, passes. simpl.
  destruct (addPrototypes _ _); reflexivity.
Qed.

Lemma stateAfter_3 tags :
  stateAfter findTemplateMultiline prototypeAndCodeDontMatch
             insideCLinkageBlock 3 tags = Ok (afterGeneration findTemplateMultiline tags).
Proof. unfold stateAfter, passes. simpl. rewrite addPrototypes_Ok. reflexivity. Qed.

Lemma runPasses_Ok tags :
  runPasses findTemplateMultiline prototypeAndCodeDontMatch insideCLinkageBlock tags
  = Ok (fixCLinkageTagsDeclarations insideCLinkageBlock (afterFilters findTemplateMultiline prototypeAndCodeDontMatch tags)).
Proof. unfold runPasses. rewrite addPrototypes_Ok. reflexivity. Qed.

(** From prototype generation to the end, a record changes in its
    flag (upwards) and its modifier text at most. *)
Lemma afterFilters_flagOnly tags :
  Forall2 flagOnly (afterGeneration findTemplateMultiline tags) (afterFilters findTemplateMultiline prototypeAndCodeDontMatch tags).
Proof.
  unfold afterFilters.
  eapply flagOnly_chain; [|apply skipTagsWhere_flagOnly].
  eapply flagOnly_chain;
    [apply removeDefinedProtypes_flagOnly | apply skipDuplicatesFrom_flagOnly].
Qed.

End WithEnvironment.

End PipelineFacts.

(** * The claims *)

Import GoStrings StringFacts CharFacts ParseFacts AtoiFacts PassFacts.
Import DuplicateFacts PrototypeFacts PipelineFacts.

(** C1: the skip flag is monotonic over a run.  Whatever the records
    [tags] the passes start from, the states after [n] passes and after
    [n + d] passes exist and list the same records in the same order;
    a record whose flag is [true] in the first has it [true] in the
    second, so no later pass resets the flag or sees it lowered.  The
    state after no pass is the input, and the state after all seven is
    what [Parse] works on. *)
Theorem C1_skip_flag_monotonic
    (findTemplateMultiline : Tag -> string)
    (prototypeAndCodeDontMatch insideCLinkageBlock : Tag -> bool)
    (tags : list Tag) (n d : nat) :
  exists before after,
    stateAfter findTemplateMultiline prototypeAndCodeDontMatch
               insideCLinkageBlock n tags = Ok before
    /\ stateAfter findTemplateMultiline prototypeAndCodeDontMatch
                  insideCLinkageBlock (n + d) tags = Ok after
    /\ length after = length before
    /\ (forall k a, before !! k = Some a -> SkipMe a = true ->
                   exists b, after !! k = Some b /\ SkipMe b = true)
    /\ stateAfter findTemplateMultiline prototypeAndCodeDontMatch
                  insideCLinkageBlock 0 tags = Ok tags
    /\ runPasses findTemplateMultiline prototypeAndCodeDontMatch
                 insideCLinkageBlock tags
       = stateAfter findTemplateMultiline prototypeAndCodeDontMatch
                    insideCLinkageBlock 7 tags.
Proof.
  destruct (stateAfter_monotone findTemplateMultiline prototypeAndCodeDontMatch
              insideCLinkageBlock tags n d) as (before & after & Hb & Ha & Hm).
  exists before, after. split; [exact Hb|]. split; [exact Ha|].
  split; [symmetry; eapply Forall2_length; exact Hm|].
  split; [intros k a; apply skipMonotone_lookup; exact Hm|].
  split; [reflexivity | apply runPasses_stateAfter].
Qed.

(** C2, as amended: the duplicate filter keeps the records in place and
    changes flags only.  A record survives it exactly when it was not
    yet skipped and every earlier record with the same prototype text
    was already skipped: the first not-yet-skipped record of each text is
    kept and every later record of that text is skipped.  So at most
    one record of a text survives, and one does whenever some record of
    the text was not yet skipped; it is the earliest not-yet-skipped
    one. *)
Theorem C2_duplicate_filter_keeps_first_unskipped (tags : list Tag) :
  length (skipDuplicates tags) = length tags
  /\ (forall i t, tags !! i = Some t ->
        exists t',
          skipDuplicates tags !! i = Some t'
          /\ t' = setSkipMe (SkipMe t') t
          /\ (SkipMe t' = false <-> firstOfText tags i t))
  /\ (forall i j ti tj,
        skipDuplicates tags !! i = Some ti -> skipDuplicates tags !! j = Some tj ->
        SkipMe ti = false -> SkipMe tj = false ->
        Prototype ti = Prototype tj -> i = j)
  /\ (forall i t, tags !! i = Some t -> SkipMe t = false ->
        exists k tk,
          (k <= i)%nat /\ skipDuplicates tags !! k = Some tk
          /\ SkipMe tk = false /\ Prototype tk = Prototype t).
Proof.
  pose proof (skipDuplicatesFrom_flagOnly tags ∅) as Hall.
  fold (skipDuplicates tags) in Hall.
  assert (Hback : forall i ti, skipDuplicates tags !! i = Some ti -> SkipMe ti = false ->
            exists t, tags !! i = Some t /\ Prototype t = Prototype ti
                      /\ firstOfText tags i t).
  { intros i ti Hi Hs.
    destruct (Forall2_lookup_r _ _ _ _ _ Hall Hi) as (t & Ht & _).
    destruct (skipDuplicates_lookup tags i t Ht) as (t' & Hl & Ht' & Hiff).
    rewrite Hi in Hl. injection Hl as <-.
    exists t. split; [exact Ht|]. split; [rewrite Ht'; reflexivity|].
    apply Hiff, Hs. }
  split; [symmetry; eapply Forall2_length; exact Hall|].
  split; [intros i t; apply skipDuplicates_lookup|].
  split.
  - intros i j ti tj Hi Hj Hsi Hsj Hp.
    destruct (Hback i ti Hi Hsi) as (a & Ha & Hpa & [Hsa Hfa]).
    destruct (Hback j tj Hj Hsj) as (b & Hb & Hpb & [Hsb Hfb]).
    destruct (Nat.lt_trichotomy i j) as [Hlt|[Heq|Hgt]]; [|exact Heq|].
    + specialize (Hfb i a Hlt Ha). rewrite Hfb in Hsa; [discriminate | congruence].
    + specialize (Hfa j b Hgt Hb). rewrite Hfa in Hsb; [discriminate | congruence].
  - intros i t Hi Hs.
    destruct (firstOfText_exists tags i t Hi Hs) as (k & tk & Hk & Hlk & Hpk & Hfirst).
    destruct (skipDuplicates_lookup tags k tk Hlk) as (t' & Hl & Ht' & Hiff).
    exists k, t'. split; [exact Hk|]. split; [exact Hl|].
    split; [apply Hiff, Hfirst|]. rewrite Ht'. exact Hpk.
Qed.

(** C2, the claim as first stated, fails: of a skipped method and a free
    function with the same prototype text, the filter leaves the
    function, the later of the two, as the survivor. *)
Lemma C2_earliest_record_need_not_survive :
  skipDuplicates [fooMethod; fooFunction] = [fooMethod; fooFunction]
  /\ ~ onlyEarliestSurvives [fooMethod; fooFunction]
                            (skipDuplicates [fooMethod; fooFunction]).
Proof.
  assert (He : skipDuplicates [fooMethod; fooFunction] = [fooMethod; fooFunction]).
  { vm_compute. reflexivity. }
  split; [exact He|]. rewrite He. intros H.
  destruct (H 0%nat fooMethod eq_refl) as (k & tk & Hk & Hs & _ & Hmin & _).
  specialize (Hmin 0%nat fooMethod eq_refl eq_refl).
  assert (k = 0%nat) as -> by lia.
  simpl in Hk. injection Hk as <-. discriminate Hs.
Qed.

(** Up to prototype generation a record keeps its kind, and its
    prototype text too unless the text starts with the template
    keyword. *)
Lemma afterGeneration_plain findTemplateMultiline tags i t :
  tags !! i = Some t ->
  HasPrefix (Prototype t) keywordTemplate = false ->
  exists t2,
    afterGeneration findTemplateMultiline tags !! i = Some t2
    /\ Kind t2 = Kind t /\ Prototype t2 = Prototype t.
Proof.
  intros Hi Hp. unfold afterGeneration.
  pose proof (flagOnly_chain _ _ _ (skipTagsWhere_flagOnly tagIsUnknown tags)
                (skipTagsWhere_flagOnly tagIsUnhandled _)) as Hf.
  destruct (Forall2_lookup_l _ _ _ _ _ Hf Hi) as (t1 & H1 & (v & -> & _)).
  rewrite lookup_map, H1. simpl. eexists. split; [reflexivity|].
  destruct v; simpl; [auto|].
  rewrite generated_plain by exact Hp. auto.
Qed.

(** C3: the already-declared filter marks every record whose prototype
    text is that of some record of kind "prototype", and leaves the
    others as they are; so a record (a "function" record, say) whose
    derived prototype text is that of a "prototype" record ends the run
    with the flag raised.  The text is any that does not start with the
    template keyword, "void foo();" for one. *)
Theorem C3_declared_prototypes_suppress_synthesis
    (findTemplateMultiline : Tag -> string)
    (prototypeAndCodeDontMatch insideCLinkageBlock : Tag -> bool)
    (tags : list Tag) :
  (forall i t, tags !! i = Some t ->
     exists t',
       removeDefinedProtypes tags !! i = Some t'
       /\ (declaredText tags (Prototype t) -> t' = setSkipMe true t)
       /\ (~ declaredText tags (Prototype t) -> t' = t))
  /\ (forall text i j p f,
        HasPrefix text keywordTemplate = false ->
        tags !! i = Some p -> Kind p = "prototype" -> Prototype p = text ->
        tags !! j = Some f -> Prototype f = text ->
        exists out f',
          runPasses findTemplateMultiline prototypeAndCodeDontMatch
                    insideCLinkageBlock tags = Ok out
          /\ out !! j = Some f' /\ SkipMe f' = true).
Proof.
  split; [intros i t; apply removeDefinedProtypes_lookup|].
  intros text i j p f Ht Hi Hk Hp Hj Hf.
  rewrite runPasses_Ok. eexists. 
  destruct (afterGeneration_plain findTemplateMultiline tags i p Hi) as (p2 & Hp2 & Hkp & Hpp);
    [rewrite Hp; exact Ht|].
  destruct (afterGeneration_plain findTemplateMultiline tags j f Hj) as (f2 & Hf2 & _ & Hpf);
    [rewrite Hf; exact Ht|].
  destruct (removeDefinedProtypes_lookup _ j f2 Hf2) as (f3 & Hf3 & Hset & _).
  assert (f3 = setSkipMe true f2) as ->.
  { apply Hset. exists p2. split; [eapply list_elem_of_lookup_2; exact Hp2|].
    split; [rewrite Hkp; exact Hk | congruence]. }
  pose proof (flagOnly_chain _ _ _
                (skipDuplicatesFrom_flagOnly
                   (removeDefinedProtypes (afterGeneration findTemplateMultiline tags)) ∅)
                (skipTagsWhere_flagOnly prototypeAndCodeDontMatch _)) as Hchain.
  destruct (Forall2_lookup_l _ _ _ _ _ Hchain Hf3) as (f4 & Hf4 & Hflag).
  exists (if insideCLinkageBlock f4
          then setPrototypeModifiers (keywordExternC +:+ " " +:+ PrototypeModifiers f4) f4
          else f4).
  split; [reflexivity|].
  split; [apply fixCLinkage_lookup; exact Hf4|].
  assert (SkipMe f4 = true) as Hs by (apply (flagOnly_monotone _ _ Hflag); reflexivity).
  destruct (insideCLinkageBlock f4); simpl; exact Hs.
Qed.

(** C3 on a concrete input: a forward declaration and a definition of
    [foo], as rows of ctags output. *)
Example declared_foo_is_skipped :
  forall dm inC,
    exists out decl def,
      (rows <-! appendParsed [] 
         [ "foo" +:+ str1 tab +:+ "main.ino" +:+ str1 tab +:+ "/^void foo();$/;"
             +:+ str1 dquote +:+ str1 tab +:+ "kind:prototype" +:+ str1 tab +:+ "line:1"
             +:+ str1 tab +:+ "signature:()" +:+ str1 tab +:+ "returntype:void";
           "foo" +:+ str1 tab +:+ "main.ino" +:+ str1 tab +:+ "/^void foo() {$/;"
             +:+ str1 dquote +:+ str1 tab +:+ "kind:function" +:+ str1 tab +:+ "line:5"
             +:+ str1 tab +:+ "signature:()" +:+ str1 tab +:+ "returntype:void" ];
       runPasses (fun _ => "") dm inC rows) = Ok out
      /\ out = [decl; def]
      /\ Kind def = "function" /\ Prototype def = "void foo();" /\ SkipMe def = true.
Proof.
  intros dm inC. vm_compute appendParsed. cbn [bind].
  rewrite runPasses_Ok. vm_compute afterFilters.
  unfold fixCLinkageTagsDeclarations. cbn [map].
  eexists. eexists. eexists. split; [reflexivity|]. split; [reflexivity|].
  destruct (inC _); repeat split.
Qed.

(** C4: what the code does with a row of fewer than two tab-separated
    fields.  A row with no tab in it has one field, [parts[1]] is out of
    range and [parseTag] panics; a whole output made of such a row makes
    [Parse] panic, whatever the parser it is called on. *)
Theorem C4_short_row_panics (row : string) :
  Index row (str1 tab) = -1 ->
  parseTag row = Panic IndexOutOfRange
  /\ (forall findTemplateMultiline prototypeAndCodeDontMatch insideCLinkageBlock
             EquivalentTo noInsertion p mainFile,
        Index row (str1 newline) = -1 -> TrimSpace row = row -> 0 < len row ->
        Parse findTemplateMultiline prototypeAndCodeDontMatch insideCLinkageBlock
              EquivalentTo noInsertion p row mainFile = Panic IndexOutOfRange).
Proof.
  intros Htab.
  assert (Hp : parseTag row = Panic IndexOutOfRange).
  { apply (parseTag_one_field row row), Split_free, Htab. }
  split; [exact Hp|].
  intros ftm dm inC eqv noIns p mainFile Hnl Htrim Hlen. unfold Parse.
  rewrite (Split_free _ _ Hnl), (removeEmpty_single _ Htrim Hlen).
  simpl. rewrite Hp. reflexivity.
Qed.

(** C4 at the row "foo", alone in the output. *)
Lemma C4_short_row_panics_witness :
  Index "foo" (str1 tab) = -1
  /\ parseTag "foo" = Panic IndexOutOfRange
  /\ Parse (fun _ => "") (fun _ => false) (fun _ => false) String.eqb 0
           (mkParser [] "") "foo" "main.ino" = Panic IndexOutOfRange.
Proof.
  split; [reflexivity|].
  destruct (C4_short_row_panics "foo" eq_refl) as [H1 H2].
  split; [exact H1|].
  apply H2; [reflexivity | reflexivity | reflexivity].
Defined.

(** C9: what the code does when the end marker comes first.  In a row of
    two fields or more in which "$/;" first occurs before the first
    "/^", both markers are found, the slice is taken from behind the
    start marker back to the end marker, and [parseTag] panics. *)
Theorem C9_end_marker_first_panics (row name file : string) (rest : list string) :
  Split row tab = name :: file :: rest ->
  0 <= Index row "$/;" ->
  Index row "$/;" < Index row "/^" ->
  parseTag row = Panic SliceBoundsOutOfRange.
Proof.
  intros Hs H0 Hlt.
  destruct (parseTag_fields row name file rest Hs) as (st & _ & ->).
  unfold readCode, Contains.
  destruct (Z.leb_spec 0 (Index row "/^")); [|lia].
  destruct (Z.leb_spec 0 (Index row "$/;")); [|lia].
  cbn [andb]. rewrite slice_backwards by lia. reflexivity.
Qed.

(** C9 at a row ctags can print: the sketch lies in a directory whose
    path has "$/;" in it, so the end marker is first met in the file
    name, before the pattern field. *)
Lemma C9_end_marker_first_panics_witness :
  parseTag ("foo" +:+ str1 tab +:+ "/tmp/a$/;b/sketch.ino" +:+ str1 tab
            +:+ "/^void foo() {$/;" +:+ str1 dquote +:+ str1 tab
            +:+ "kind:function" +:+ str1 tab +:+ "line:3")
  = Panic SliceBoundsOutOfRange.
Proof.
  apply (C9_end_marker_first_panics _ "foo" "/tmp/a$/;b/sketch.ino"
           ["/^void foo() {$/;" +:+ str1 dquote; "kind:function"; "line:3"]).
  - reflexivity.
  - vm_compute. discriminate.
  - vm_compute. reflexivity.
Defined.

(** Only the key "line" writes the line number. *)
Lemma assignField_Line field value tag returntype :
  Line (assignField field value tag returntype).1
  = if decide (field = "line") then (GoStrconv.Atoi value).1 else Line tag.
Proof.
  unfold assignField.
  destruct (decide (field = "line")) as [->|Hn].
  - destruct (decide ("line" = "kind")); [discriminate | reflexivity].
  - repeat (destruct (decide _); [reflexivity|]). reflexivity.
Qed.

Lemma parsePart_line tag returntype v :
  parsePart (tag, returntype) ("line:" +:+ v)
  = Ok (setLine (GoStrconv.Atoi (TrimSpace v)).1 tag, returntype).
Proof.
  unfold parsePart.
  assert (Index ("line:" +:+ v) ":" = 4) as Hi by (vm_compute; reflexivity).
  unfold Contains. rewrite Hi. cbn [Z.leb Z.compare].
  assert (len ("line:" +:+ v) = 5 + len v) as Hl by (rewrite len_app; reflexivity).
  pose proof (len_nonneg v).
  rewrite sliceTo_Ok by lia. cbn [bind].
  rewrite sliceFrom_Ok by lia. cbn [bind].
  reflexivity.
Qed.

Lemma parseParts_Line_nonneg parts : forall st st',
  parseParts st parts = Ok st' ->
  0 <= Line st.1 ->
  (forall part v, part ∈ parts -> part = "line:" +:+ v ->
                  HasPrefix (TrimSpace v) "-" = false) ->
  0 <= Line st'.1.
Proof.
  induction parts as [|part parts IH]; intros st st' Hrun H0 Hvals; simpl in Hrun.
  - injection Hrun as <-. exact H0.
  - destruct (parsePart st part) as [st1|] eqn:Hpart; [|discriminate].
    cbn [bind] in Hrun. apply (IH st1 st' Hrun).
    + destruct (Contains part ":") eqn:Hc.
      * destruct (parsePart_colon st part Hc) as (field & rest & Hsplit & _ & Heq).
        rewrite Heq in Hpart. injection Hpart as <-.
        rewrite assignField_Line.
        destruct (decide (field = "line")) as [->|_]; [|exact H0].
        apply Atoi_nonneg, (Hvals part rest); [apply list_elem_of_here | exact Hsplit].
      * unfold parsePart in Hpart. rewrite Hc in Hpart. injection Hpart as <-. exact H0.
    + intros part' v Hin. apply Hvals. apply list_elem_of_further, Hin.
Qed.

(** C8, as amended: reading the fields of a row never fails, whatever
    their values; the value of a "line" key is trimmed and read by
    [Atoi] as a signed decimal integer; a value that is no decimal
    integer reads as [0] when it is shorter than 19 bytes, and as [0] or
    one of the two 64-bit bounds in general; a value with no leading
    minus sign never reads as a negative number, so the stored line
    number of a parsed record is non-negative unless some "line" value
    starts with a minus sign. *)
Theorem C8_line_value_is_read_as_signed_decimal :
  (forall st part, exists st', parsePart st part = Ok st')
  /\ (forall tag returntype v,
        parsePart (tag, returntype) ("line:" +:+ v)
        = Ok (setLine (GoStrconv.Atoi (TrimSpace v)).1 tag, returntype))
  /\ (forall s, wellFormedInt s = false ->
        (len s < 19 -> (GoStrconv.Atoi s).1 = 0)
        /\ ((GoStrconv.Atoi s).1 = 0
            \/ (GoStrconv.Atoi s).1 = GoStrconv.maxInt64
            \/ (GoStrconv.Atoi s).1 = GoStrconv.minInt64))
  /\ (forall s, HasPrefix s "-" = false -> 0 <= (GoStrconv.Atoi s).1)
  /\ (forall row tag,
        parseTag row = Ok tag ->
        (forall part v, part ∈ list.drop 2 (Split row tab) -> part = "line:" +:+ v ->
                        HasPrefix (TrimSpace v) "-" = false) ->
        0 <= Line tag).
Proof.
  split; [apply parsePart_total|].
  split; [apply parsePart_line|].
  split.
  { intros s Hw. split; [|apply Atoi_malformed; exact Hw].
    intros Hl. rewrite Atoi_malformed_short by assumption. reflexivity. }
  split; [apply Atoi_nonneg|].
  intros row tag Hparse Hvals.
  destruct (Split row tab) as [|name [|file rest]] eqn:Hs.
  - destruct (Split_nonempty row tab) as (? & ? & E). congruence.
  - rewrite (parseTag_one_field row name Hs) in Hparse. discriminate.
  - destruct (parseTag_fields row name file rest Hs) as (st & Hst & Heq).
    rewrite Heq in Hparse.
    assert (0 <= Line st.1) as Hline.
    { apply (parseParts_Line_nonneg rest _ st Hst); [simpl; lia | exact Hvals]. }
    unfold readCode in Hparse.
    destruct (Contains row "/^" && Contains row "$/;").
    + destruct (slice row _ _); [|discriminate]. cbn [bind] in Hparse.
      injection Hparse as <-. exact Hline.
    + injection Hparse as <-. exact Hline.
Qed.

(** C8, the claim as first stated, fails: a "line" value with a minus
    sign is stored as a negative line number. *)
Lemma C8_negative_line_is_stored :
  parseTag ("f" +:+ str1 tab +:+ "main.ino" +:+ str1 tab +:+ "line:-5")
  = Ok (mkTag "f" "" (-5) "" "" "" "" "main.ino" "" false "" " f;" "")
  /\ Line (mkTag "f" "" (-5) "" "" "" "" "main.ino" "" false "" " f;" "") < 0.
Proof. split; [vm_compute; reflexivity | reflexivity]. Qed.

(** A long run of digits overflows before the byte that is no digit is
    reached, and reads as the upper bound. *)
Example overflow_before_syntax_error :
  wellFormedInt "99999999999999999999x" = false
  /\ GoStrconv.Atoi "99999999999999999999x"
     = (GoStrconv.maxInt64, Some GoStrconv.ErrRange).
Proof. split; vm_compute; reflexivity. Qed.

(** From prototype generation to the end of the run: the record is still
    at its place, with its flag possibly raised and, inside an
    [extern "C"] block, its modifier text extended. *)
Lemma runPasses_lookup findTemplateMultiline prototypeAndCodeDontMatch
      insideCLinkageBlock tags k g :
  afterGeneration findTemplateMultiline tags !! k = Some g ->
  exists out f,
    runPasses findTemplateMultiline prototypeAndCodeDontMatch
              insideCLinkageBlock tags = Ok out
    /\ afterFilters findTemplateMultiline prototypeAndCodeDontMatch tags !! k = Some f
    /\ flagOnly g f
    /\ out !! k
       = Some (if insideCLinkageBlock f
               then setPrototypeModifiers
                      (keywordExternC +:+ " " +:+ PrototypeModifiers f) f
               else f).
Proof.
  intros Hg. rewrite runPasses_Ok.
  destruct (Forall2_lookup_l _ _ _ _ _
              (afterFilters_flagOnly findTemplateMultiline prototypeAndCodeDontMatch tags)
              Hg) as (f & Hf & Hflag).
  eexists. exists f. split; [reflexivity|]. split; [exact Hf|].
  split; [exact Hflag|]. apply fixCLinkage_lookup, Hf.
Qed.

Lemma runPasses_Prototype findTemplateMultiline prototypeAndCodeDontMatch
      insideCLinkageBlock tags k g :
  afterGeneration findTemplateMultiline tags !! k = Some g ->
  exists out t',
    runPasses findTemplateMultiline prototypeAndCodeDontMatch
              insideCLinkageBlock tags = Ok out
    /\ out !! k = Some t' /\ Prototype t' = Prototype g.
Proof.
  intros Hg.
  destruct (runPasses_lookup findTemplateMultiline prototypeAndCodeDontMatch
              insideCLinkageBlock tags k g Hg) as (out & f & Hrun & _ & Hflag & Hout).
  exists out. eexists. split; [exact Hrun|]. split; [exact Hout|].
  destruct Hflag as (v & -> & _). destruct (insideCLinkageBlock _); reflexivity.
Qed.

Lemma afterGeneration_unskipped findTemplateMultiline tags k t :
  skipTagsWhere tagIsUnhandled (skipTagsWhere tagIsUnknown tags) !! k = Some t ->
  SkipMe t = false ->
  afterGeneration findTemplateMultiline tags !! k
  = Some (generated findTemplateMultiline t).
Proof.
  intros Hk Hs. unfold afterGeneration. rewrite lookup_map, Hk. simpl.
  rewrite Hs. reflexivity.
Qed.

(** The snippet of the specification's example. *)
Lemma addPrototype_template_max findTemplateMultiline tag :
  HasPrefix (Prototype tag) keywordTemplate = true ->
  Code tag = "template <typename T> T max(T a, T b) {" ->
  addPrototype findTemplateMultiline tag
  = Ok (setPrototype "template <typename T> T max(T a, T b) ;" tag).
Proof.
  intros Hp Hc. unfold addPrototype. rewrite Index_zero_eqb, Hp, Hc.
  vm_compute. reflexivity.
Qed.

(** C6: the template branch.  Take a record that reaches prototype
    generation unskipped, whose derived prototype text and whose snippet
    both start with "template".  At the end of the run its prototype
    text is the snippet up to its first brace, the brace left out, with
    ";" appended; or, in a snippet with no brace, the snippet up to its
    last closing parenthesis, the parenthesis kept, with ";" appended
    (and ";" alone when the snippet has neither).  For the snippet
    "template <typename T> T max(T a, T b) {" the text is
    "template <typename T> T max(T a, T b) ;". *)
Theorem C6_template_prototype_from_snippet
    (findTemplateMultiline : Tag -> string)
    (prototypeAndCodeDontMatch insideCLinkageBlock : Tag -> bool)
    (tags : list Tag) (k : nat) (t : Tag) :
  skipTagsWhere tagIsUnhandled (skipTagsWhere tagIsUnknown tags) !! k = Some t ->
  SkipMe t = false ->
  HasPrefix (Prototype t) "template" = true ->
  HasPrefix (Code t) "template" = true ->
  exists out t',
    runPasses findTemplateMultiline prototypeAndCodeDontMatch
              insideCLinkageBlock tags = Ok out
    /\ out !! k = Some t'
    /\ (Contains (Code t) "{" = true ->
        exists pre post,
          Code t = pre +:+ "{" +:+ post /\ Contains pre "{" = false
          /\ Prototype t' = pre +:+ ";")
    /\ (Contains (Code t) "{" = false -> Contains (Code t) ")" = true ->
        exists pre post,
          Code t = pre +:+ ")" +:+ post /\ Contains post ")" = false
          /\ Prototype t' = pre +:+ ")" +:+ ";")
    /\ (Contains (Code t) "{" = false -> Contains (Code t) ")" = false ->
        Prototype t' = ";")
    /\ (Code t = "template <typename T> T max(T a, T b) {" ->
        Prototype t' = "template <typename T> T max(T a, T b) ;").
Proof.
  intros Hk Hs Hp Hc.
  pose proof (afterGeneration_unskipped findTemplateMultiline tags k t Hk Hs) as Hg.
  destruct (runPasses_Prototype findTemplateMultiline prototypeAndCodeDontMatch
              insideCLinkageBlock tags k _ Hg) as (out & t' & Hrun & Hout & Hproto).
  exists out, t'. split; [exact Hrun|]. split; [exact Hout|].
  rewrite Hproto. repeat split.
  - intros Hb.
    destruct (addPrototype_template_brace findTemplateMultiline t Hp Hc Hb)
      as (pre & post & Hcode & Hfree & Hadd).
    exists pre, post. rewrite (generated_eq _ _ _ Hadd). auto.
  - intros Hb Hparen.
    destruct (addPrototype_template_paren findTemplateMultiline t Hp Hc Hb Hparen)
      as (pre & post & Hcode & Hfree & Hadd).
    exists pre, post. rewrite (generated_eq _ _ _ Hadd). auto.
  - intros Hb Hparen.
    rewrite (generated_eq _ _ _
               (addPrototype_template_bare findTemplateMultiline t Hp Hc Hb Hparen)).
    reflexivity.
  - intros Hcode.
    rewrite (generated_eq _ _ _
               (addPrototype_template_max findTemplateMultiline t Hp Hcode)).
    reflexivity.
Qed.

(** C6 at a record with the snippet of the specification's example. *)
Lemma C6_template_prototype_from_snippet_witness :
  exists out t',
    runPasses (fun _ => "") (fun _ => false) (fun _ => false)
      [ mkTag "max" "function" 4 "template <typename T> T max(T a, T b) {" "" "" ""
              "main.ino" "" false "(T a, T b)"
              "template <typename T> T max(T a, T b);" "" ] = Ok out
    /\ out !! 0%nat = Some t'
    /\ Prototype t' = "template <typename T> T max(T a, T b) ;".
Proof.
  destruct (C6_template_prototype_from_snippet
              (fun _ => "") (fun _ => false) (fun _ => false)
              [ mkTag "max" "function" 4 "template <typename T> T max(T a, T b) {" "" "" ""
                      "main.ino" "" false "(T a, T b)"
                      "template <typename T> T max(T a, T b);" "" ]
              0%nat
              (mkTag "max" "function" 4 "template <typename T> T max(T a, T b) {" "" "" ""
                     "main.ino" "" false "(T a, T b)"
                     "template <typename T> T max(T a, T b);" ""))
    as (out & t' & Hrun & Hout & _ & _ & _ & Hmax).
  - vm_compute. reflexivity.
  - reflexivity.
  - reflexivity.
  - reflexivity.
  - exists out, t'. split; [exact Hrun|]. split; [exact Hout|].
    apply Hmax. reflexivity.
Defined.




(** A run on one record, given what the passes up to the duplicate
    filter make of it. *)
Lemma single_run findTemplateMultiline prototypeAndCodeDontMatch
      insideCLinkageBlock t g :
  skipDuplicates (removeDefinedProtypes (afterGeneration findTemplateMultiline [t])) = [g] ->
  runPasses findTemplateMultiline prototypeAndCodeDontMatch insideCLinkageBlock [t]
  = Ok (fixCLinkageTagsDeclarations insideCLinkageBlock
          [if negb (SkipMe g) then setSkipMe (prototypeAndCodeDontMatch g) g else g]).
Proof.
  intros H. rewrite runPasses_Ok. unfold afterFilters. rewrite H. reflexivity.
Qed.

(** C5: what the code does when a parser is used twice.  [Parse] appends
    to the records the parser already holds and never empties them.  On
    an empty output a fresh parser returns no prototype, with the line
    that stands for no insertion; a
    parser that has parsed a row before still holds its record after
    the second call, and returns its prototype again unless the
    consistency filter rejects the record. *)
Theorem C5_reused_parser_keeps_earlier_records
    (findTemplateMultiline : Tag -> string)
    (prototypeAndCodeDontMatch insideCLinkageBlock : Tag -> bool)
    (EquivalentTo : string -> string -> bool) (noInsertion : Z) :
  Parse findTemplateMultiline prototypeAndCodeDontMatch insideCLinkageBlock
        EquivalentTo noInsertion (mkParser [] "") "" "main.ino"
  = Ok (mkParser [] "main.ino", ([], noInsertion))
  /\ exists p1 r1,
       Parse findTemplateMultiline prototypeAndCodeDontMatch insideCLinkageBlock
             EquivalentTo noInsertion (mkParser [] "") fooRow "main.ino" = Ok (p1, r1)
       /\ exists p2 protos line,
            Parse findTemplateMultiline prototypeAndCodeDontMatch
                  insideCLinkageBlock EquivalentTo noInsertion p1 "" "main.ino"
            = Ok (p2, (protos, line))
            /\ length (tags p2) = 1%nat
            /\ length protos = (if prototypeAndCodeDontMatch fooParsed then 0 else 1)%nat.
Proof.
  split; [reflexivity|].
  assert (parseTag fooRow = Ok fooParsed) as Hrow by (vm_compute; reflexivity).
  unfold Parse.
  assert (removeEmpty (Split fooRow newline) = [fooRow]) as ->
    by (vm_compute; reflexivity).
  cbn [tags appendParsed app]. rewrite Hrow. cbn [bind app].
  change (removeEmpty (Split "" newline)) with (@nil string).
  cbn [appendParsed].
  rewrite (single_run _ _ _ fooParsed fooParsed) by (vm_compute; reflexivity).
  cbn [bind]. change (negb (SkipMe fooParsed)) with true. cbn iota.
  eexists. eexists. split; [reflexivity|]. cbn [tags bind].
  unfold fixCLinkageTagsDeclarations. cbn [map].
  destruct (prototypeAndCodeDontMatch fooParsed) eqn:Hdm.
  - (* rejected in the first run: the record stays, skipped *)
    destruct (insideCLinkageBlock (setSkipMe true fooParsed)).
    + erewrite (single_run _ _ _ _
                 (setPrototypeModifiers (keywordExternC +:+ " ") (setSkipMe true fooParsed)))
        by (vm_compute; reflexivity).
      cbn [bind]. eexists. eexists. eexists. split; [reflexivity|].
      unfold toPrototypes, fixCLinkageTagsDeclarations. cbn [tags map].
      change (negb (SkipMe (setPrototypeModifiers (keywordExternC +:+ " ")
                              (setSkipMe true fooParsed)))) with false. cbn iota.
      destruct (insideCLinkageBlock _); vm_compute; split; reflexivity.
    + erewrite (single_run _ _ _ _ (setSkipMe true fooParsed))
        by (vm_compute; reflexivity).
      cbn [bind]. eexists. eexists. eexists. split; [reflexivity|].
      unfold toPrototypes, fixCLinkageTagsDeclarations. cbn [tags map].
      change (negb (SkipMe (setSkipMe true fooParsed))) with false. cbn iota.
      destruct (insideCLinkageBlock _); vm_compute; split; reflexivity.
  - (* accepted: the second run generates its prototype again *)
    assert (forall X, skipDuplicates (removeDefinedProtypes
                        (afterGeneration findTemplateMultiline [X])) = [fooParsed] ->
              exists p2 protos line,
                (tags0 <-! runPasses findTemplateMultiline prototypeAndCodeDontMatch
                             insideCLinkageBlock [X];
                 Ok (mkParser tags0 "main.ino",
                     (toPrototypes (mkParser tags0 "main.ino"),
                      findLineWhereToInsertPrototypes EquivalentTo noInsertion
                        (mkParser tags0 "main.ino"))))
                = Ok (p2, (protos, line))
                /\ length (tags p2) = 1%nat /\ length protos = 1%nat) as Hsecond.
    { intros X HX. rewrite (single_run _ _ _ X fooParsed HX). cbn [bind].
      eexists. eexists. eexists. split; [reflexivity|].
      unfold toPrototypes, fixCLinkageTagsDeclarations. cbn [tags map].
      change (negb (SkipMe fooParsed)) with true. cbn iota. rewrite Hdm.
      destruct (insideCLinkageBlock _); vm_compute; split; reflexivity. }
    destruct (insideCLinkageBlock (setSkipMe false fooParsed));
      apply Hsecond; vm_compute; reflexivity.
Qed.

Lemma setSkipMe_false t : SkipMe t = false -> setSkipMe false t = t.
Proof. intros <-. apply setSkipMe_same. Qed.

Lemma function_is_known t : Kind t = "function" -> tagIsUnknown t = false.
Proof. intros H. unfold tagIsUnknown. rewrite H. vm_compute. reflexivity. Qed.

(** Two unskipped free functions with the same prototype text, and
    nothing else: the first is the one record left, with the modifier
    text its own snippet gives it. *)
Lemma two_records_one_prototype findTemplateMultiline prototypeAndCodeDontMatch
      insideCLinkageBlock t1 t2 main :
  SkipMe t1 = false -> SkipMe t2 = false ->
  Kind t1 = "function" -> Kind t2 = "function" ->
  isHandled t1 = true -> isHandled t2 = true ->
  Prototype t1 = Prototype t2 ->
  HasPrefix (Prototype t1) "template" = false ->
  prototypeAndCodeDontMatch (generated findTemplateMultiline t1) = false ->
  insideCLinkageBlock (generated findTemplateMultiline t1) = false ->
  exists out,
    runPasses findTemplateMultiline prototypeAndCodeDontMatch
              insideCLinkageBlock [t1; t2] = Ok out
    /\ toPrototypes (mkParser out main)
       = [ mkPrototypeRecord (FunctionName t1) (Prototype t1)
             (if Contains (Code t1) "static " then "static" else "") (Line t1) ].
Proof.
  intros Hs1 Hs2 Hk1 Hk2 Hh1 Hh2 Hp Ht Hdm HinC.
  rewrite runPasses_Ok. eexists. split; [reflexivity|].
  unfold afterFilters, afterGeneration.
  unfold skipTagsWhere at 2 3. cbn [map].
  rewrite Hs1, Hs2. cbn [negb].
  rewrite (function_is_known t1 Hk1), (function_is_known t2 Hk2).
  rewrite (setSkipMe_false t1 Hs1), (setSkipMe_false t2 Hs2).
  rewrite Hs1, Hs2. cbn [negb]. unfold tagIsUnhandled. rewrite Hh1, Hh2. cbn [negb].
  rewrite (setSkipMe_false t1 Hs1), (setSkipMe_false t2 Hs2).
  rewrite Hs1, Hs2. cbn [negb].
  assert (Ht2 : HasPrefix (Prototype t2) keywordTemplate = false)
    by (rewrite <- Hp; exact Ht).
  rewrite (generated_plain findTemplateMultiline t1 Ht) in *.
  rewrite (generated_plain findTemplateMultiline t2 Ht2).
  set (m1 := if Contains (Code t1) "static " then "static" else "") in *.
  set (m2 := if Contains (Code t2) "static " then "static" else "").
  unfold removeDefinedProtypes. cbn [collectDefined map].
  change (Kind (setPrototypeModifiers m1 t1)) with (Kind t1).
  change (Kind (setPrototypeModifiers m2 t2)) with (Kind t2).
  rewrite Hk1, Hk2. change (String.eqb "function" kindPrototype) with false. cbn iota.
  rewrite !mapGet_empty.
  unfold skipDuplicates. cbn [skipDuplicatesFrom].
  rewrite mapGet_empty.
  change (SkipMe (setPrototypeModifiers m1 t1)) with (SkipMe t1).
  rewrite Hs1. cbn [negb andb].
  change (Prototype (setPrototypeModifiers m2 t2)) with (Prototype t2).
  change (Prototype (setPrototypeModifiers m1 t1)) with (Prototype t1).
  rewrite <- Hp, mapGet_insert. rewrite decide_True by reflexivity. cbn [negb andb].
  unfold skipTagsWhere. cbn [map].
  change (SkipMe (setPrototypeModifiers m1 t1)) with (SkipMe t1).
  rewrite Hs1. cbn [negb]. rewrite Hdm.
  rewrite (setSkipMe_false (setPrototypeModifiers m1 t1)) by exact Hs1.
  change (negb (SkipMe (setSkipMe true (setPrototypeModifiers m2 t2)))) with false.
  cbn iota. unfold fixCLinkageTagsDeclarations. cbn [map]. rewrite HinC.
  unfold toPrototypes. cbn [tags].
  rewrite filter_cons_True by exact Hs1.
  rewrite filter_cons_False
    by (destruct (insideCLinkageBlock (setSkipMe true (setPrototypeModifiers m2 t2)));
        simpl; discriminate).
  rewrite filter_nil. reflexivity.
Qed.

(** C10, as amended: a record that reaches prototype generation
    unskipped, with a prototype text that does not start with
    "template", has after that pass the modifier text "static" when its
    snippet contains "static ", and the empty one otherwise.  End to
    end, two records for the same function, neither of kind
    "prototype", give exactly one Prototype Record, that of the earlier
    record (when the consistency filter accepts it and it lies in no
    [extern "C"] block): its modifier text is "static" when the earlier
    record's snippet contains "static ", and empty otherwise, whatever
    the later record's snippet. *)
Theorem C10_static_modifier_of_earliest_record
    (findTemplateMultiline : Tag -> string)
    (prototypeAndCodeDontMatch insideCLinkageBlock : Tag -> bool) :
  (forall tags k t,
     skipTagsWhere tagIsUnhandled (skipTagsWhere tagIsUnknown tags) !! k = Some t ->
     SkipMe t = false ->
     HasPrefix (Prototype t) "template" = false ->
     exists after t',
       stateAfter findTemplateMultiline prototypeAndCodeDontMatch
                  insideCLinkageBlock 3 tags = Ok after
       /\ after !! k = Some t'
       /\ PrototypeModifiers t'
          = (if Contains (Code t) "static " then "static" else ""))
  /\ (forall t1 t2 main,
        SkipMe t1 = false -> SkipMe t2 = false ->
        Kind t1 = "function" -> Kind t2 = "function" ->
        isHandled t1 = true -> isHandled t2 = true ->
        FunctionName t1 = FunctionName t2 -> Prototype t1 = Prototype t2 ->
        HasPrefix (Prototype t1) "template" = false ->
        prototypeAndCodeDontMatch (generated findTemplateMultiline t1) = false ->
        insideCLinkageBlock (generated findTemplateMultiline t1) = false ->
        exists out,
          runPasses findTemplateMultiline prototypeAndCodeDontMatch
                    insideCLinkageBlock [t1; t2] = Ok out
          /\ toPrototypes (mkParser out main)
             = [ mkPrototypeRecord (FunctionName t1) (Prototype t1)
                   (if Contains (Code t1) "static " then "static" else "")
                   (Line t1) ]).
Proof.
  split.
  - intros tags k t Hk Hs Hp. rewrite stateAfter_3.
    exists (afterGeneration findTemplateMultiline tags),
           (generated findTemplateMultiline t).
    split; [reflexivity|].
    split; [exact (afterGeneration_unskipped _ _ _ _ Hk Hs)|].
    rewrite generated_plain by exact Hp. reflexivity.
  - intros t1 t2 main Hs1 Hs2 Hk1 Hk2 Hh1 Hh2 _ Hp Ht Hdm HinC.
    apply two_records_one_prototype; assumption.
Qed.

(** The run of the passes from the state the duplicate filter leaves. *)
Lemma runPasses_from findTemplateMultiline prototypeAndCodeDontMatch
      insideCLinkageBlock tags mid :
  skipDuplicates (removeDefinedProtypes (afterGeneration findTemplateMultiline tags)) = mid ->
  runPasses findTemplateMultiline prototypeAndCodeDontMatch insideCLinkageBlock tags
  = Ok (fixCLinkageTagsDeclarations insideCLinkageBlock
          (skipTagsWhere prototypeAndCodeDontMatch mid)).
Proof.
  intros H. rewrite runPasses_Ok. unfold afterFilters. rewrite H. reflexivity.
Qed.

(** C10, the claim as first stated, fails: when the snippet with
    "static " belongs to the later of the two records, the one prototype
    returned has the empty modifier text, and under no consistency
    predicate and no placement of [extern "C"] blocks is a prototype
    with the modifier text "static" returned. *)
Lemma C10_static_on_later_record_is_lost :
  Parse (fun _ => "") (fun _ => false) (fun _ => false) String.eqb 0
        (mkParser [] "") (fooRow +:+ str1 newline +:+ staticFooRow) "main.ino"
  = Ok (mkParser [fooParsed;
                  setSkipMe true (setPrototypeModifiers "static" staticFooParsed)]
                 "main.ino",
        ([mkPrototypeRecord "foo" "void foo();" "" 3], 3))
  /\ (forall findTemplateMultiline prototypeAndCodeDontMatch insideCLinkageBlock
             EquivalentTo noInsertion p' protos line,
        Parse findTemplateMultiline prototypeAndCodeDontMatch insideCLinkageBlock
              EquivalentTo noInsertion (mkParser [] "")
              (fooRow +:+ str1 newline +:+ staticFooRow) "main.ino"
        = Ok (p', (protos, line)) ->
        forall r, r ∈ protos -> protoModifiers r <> "static").
Proof.
  split; [vm_compute; reflexivity|].
  intros ftm dm inC eqv noIns p' protos line. unfold Parse.
  assert (removeEmpty (Split (fooRow +:+ str1 newline +:+ staticFooRow) newline)
          = [fooRow; staticFooRow]) as -> by (vm_compute; reflexivity).
  assert (parseTag fooRow = Ok fooParsed) as Hrow1 by (vm_compute; reflexivity).
  assert (parseTag staticFooRow = Ok staticFooParsed) as Hrow2
    by (vm_compute; reflexivity).
  cbn [tags appendParsed app]. rewrite Hrow1. cbn [bind app]. rewrite Hrow2.
  cbn [bind app].
  rewrite (runPasses_from _ _ _ _
             [fooParsed; setSkipMe true (setPrototypeModifiers "static" staticFooParsed)])
    by (vm_compute; reflexivity).
  cbn [bind]. intros [= <- <- <-]. unfold toPrototypes. cbn [tags].
  unfold skipTagsWhere, fixCLinkageTagsDeclarations. cbn [map].
  change (negb (SkipMe fooParsed)) with true.
  change (negb (SkipMe (setSkipMe true (setPrototypeModifiers "static" staticFooParsed))))
    with false.
  cbn iota.
  intros r Hr.
  destruct (dm fooParsed); destruct (inC _); destruct (inC _);
    vm_compute in Hr;
    repeat (apply elem_of_cons in Hr as [->|Hr]; [vm_compute; discriminate|]);
    apply not_elem_of_nil in Hr; contradiction.
Qed.


(** * Further properties of the code *)

(** ** The helpers of the consistency filter *)

Lemma ReplaceAll_byte_empty s c :
  ReplaceAll s (str1 c) "" = keepBytes (fun d => negb (Ascii.eqb d c)) s.
Proof.
  unfold ReplaceAll. induction s as [|d s IH]; [reflexivity|].
  cbn [replaceFrom keepBytes]. rewrite HasPrefix_char.
  destruct (Ascii.eqb d c); cbn [negb].
  - change (String.length (str1 c) - 1)%nat with 0%nat. rewrite IH. reflexivity.
  - rewrite IH. reflexivity.
Qed.

Lemma keepBytes_keepBytes f g s :
  keepBytes f (keepBytes g s) = keepBytes (fun c => g c && f c) s.
Proof.
  induction s as [|c s IH]; [reflexivity|]. simpl.
  destruct (g c); simpl; [destruct (f c); rewrite IH; reflexivity | exact IH].
Qed.

Lemma keepBytes_app f s r : keepBytes f (s +:+ r) = keepBytes f s +:+ keepBytes f r.
Proof.
  induction s as [|c s IH]; [reflexivity|].
  rewrite app_String. simpl. destruct (f c); rewrite IH; reflexivity.
Qed.

Lemma keepBytes_free f s c : f c = false -> Index (keepBytes f s) (str1 c) = -1.
Proof.
  intros Hc. induction s as [|d s IH]; [reflexivity|]. simpl.
  destruct (f d) eqn:Hd; [|exact IH].
  rewrite Index_char_cons, IH.
  destruct (Ascii.eqb_spec d c) as [->|_]; [congruence | reflexivity].
Qed.

Lemma keepBytes_all f s :
  (forall c, f c = false -> Index s (str1 c) = -1) -> keepBytes f s = s.
Proof.
  induction s as [|d s IH]; intros H; [reflexivity|]. simpl.
  destruct (f d) eqn:Hd.
  - rewrite IH; [reflexivity|]. intros c Hc. specialize (H c Hc).
    rewrite Index_char_cons in H. destruct (Ascii.eqb d c); [discriminate|].
    destruct (Z.ltb_spec (Index s (str1 c)) 0) as [Hlt|Hge]; [|lia].
    destruct (Index_range s (str1 c)) as [E|[E _]]; [exact E | lia].
  - specialize (H d Hd). rewrite Index_char_cons, Ascii.eqb_refl in H. discriminate.
Qed.

Lemma removeSpacesAndTabs_keepBytes s :
  removeSpacesAndTabs s = keepBytes notSpaceOrTab s.
Proof.
  unfold removeSpacesAndTabs.
  change " " with (str1 " "%char). rewrite !ReplaceAll_byte_empty.
  apply keepBytes_keepBytes.
Qed.

(** X1: [removeSpacesAndTabs] returns the bytes of its argument that are
    neither a space nor a tab, in their order: the result contains no
    space and no tab, a string that has neither is returned as it is,
    and the function distributes over concatenation and is idempotent. *)
Theorem removeSpacesAndTabs_strips_exactly_blanks (s r : string) :
  removeSpacesAndTabs s = keepBytes notSpaceOrTab s
  /\ Contains (removeSpacesAndTabs s) " " = false
  /\ Contains (removeSpacesAndTabs s) (str1 tab) = false
  /\ (Contains s " " = false -> Contains s (str1 tab) = false ->
      removeSpacesAndTabs s = s)
  /\ removeSpacesAndTabs (s +:+ r) = removeSpacesAndTabs s +:+ removeSpacesAndTabs r
  /\ removeSpacesAndTabs (removeSpacesAndTabs s) = removeSpacesAndTabs s.
Proof.
  rewrite !removeSpacesAndTabs_keepBytes.
  split; [reflexivity|].
  split; [unfold Contains; change " " with (str1 " "%char);
          rewrite keepBytes_free by reflexivity; reflexivity|].
  split; [unfold Contains; rewrite keepBytes_free
            by (unfold notSpaceOrTab; rewrite Ascii.eqb_refl, andb_false_r; reflexivity);
          reflexivity|].
  split.
  - intros Hs Ht. apply Contains_false in Hs. apply Contains_false in Ht.
    apply keepBytes_all. intros c Hc. unfold notSpaceOrTab in Hc.
    apply andb_false_iff in Hc as [Hc|Hc]; apply negb_false_iff in Hc;
      apply Ascii.eqb_eq in Hc; subst c; assumption.
  - split; [apply keepBytes_app|].
    rewrite keepBytes_keepBytes. clear. induction s as [|c s IH]; [reflexivity|].
    simpl. destruct (notSpaceOrTab c); simpl; rewrite IH; reflexivity.
Qed.

Lemma firstBytes_init s c : firstBytes (String.length s) (s +:+ str1 c) = s.
Proof. apply take_app_len. Qed.

(** X2: [removeTralingSemicolon] panics on the empty string, and on any
    other string returns all but the last byte, whatever that byte is;
    so it undoes the ";" that [parseTag] puts at the end of a prototype
    text. *)
Theorem removeTralingSemicolon_drops_last_byte :
  removeTralingSemicolon "" = Panic SliceBoundsOutOfRange
  /\ (forall s c, removeTralingSemicolon (s +:+ str1 c) = Ok s)
  /\ (forall st,
        removeTralingSemicolon (Prototype (withPrototype st))
        = Ok (st.2 +:+ " " +:+ FunctionName st.1 +:+ Signature st.1)).
Proof.
  assert (Hlast : forall s c, removeTralingSemicolon (s +:+ str1 c) = Ok s).
  { intros s c. unfold removeTralingSemicolon.
    rewrite len_app. change (len (str1 c)) with 1.
    pose proof (len_nonneg s).
    rewrite slice_Ok by (rewrite ?len_app; change (len (str1 c)) with 1; lia).
    rewrite drop_zero.
    replace (len s + 1 - 1 - 0) with (len s) by lia.
    rewrite take_len_app. reflexivity. }
  split; [reflexivity|]. split; [exact Hlast|].
  intros st. unfold withPrototype. cbn [Prototype setPrototype].
  rewrite <- (Hlast (st.2 +:+ " " +:+ FunctionName st.1 +:+ Signature st.1) ";"%char).
  f_equal. rewrite !CharFacts.app_assoc. reflexivity.
Qed.

(** ** The fields of a row *)

Lemma skipBytes_key key rest :
  skipBytes (String.length key + 1) (key +:+ ":" +:+ rest) = rest.
Proof.
  assert ((String.length key + 1)%nat = Z.to_nat (len key + 1)) as ->
    by (unfold len; lia).
  apply (drop_succ_len_app key ":"%char rest).
Qed.

(** The key of a part is what stands before its first colon. *)
Lemma key_prefix field rest key :
  Index field ":" = -1 -> Index key ":" = -1 ->
  HasPrefix (field +:+ ":" +:+ rest) (key +:+ ":") = true -> field = key.
Proof.
  intros Hf Hk Hp. apply HasPrefix_split in Hp as [r Hr].
  rewrite CharFacts.app_assoc in Hr. change (":" +:+ r) with (String ":"%char r) in Hr.
  change (":" +:+ rest) with (String ":"%char rest) in Hr.
  pose proof (Index_char_app_free field ":"%char rest Hf) as H1.
  pose proof (Index_char_app_free key ":"%char r Hk) as H2.
  rewrite Hr in H1. rewrite H1 in H2.
  rewrite <- (take_len_app field (String ":"%char rest)), Hr, H2.
  apply take_len_app.
Qed.

Lemma keyValue_same key acc rest :
  keyValue key acc (key +:+ ":" +:+ rest) = TrimSpace rest.
Proof.
  unfold keyValue. rewrite <- CharFacts.app_assoc, HasPrefix_app.
  rewrite CharFacts.app_assoc, skipBytes_key. reflexivity.
Qed.

Lemma keyValue_other key acc field rest :
  Index field ":" = -1 -> Index key ":" = -1 -> field <> key ->
  keyValue key acc (field +:+ ":" +:+ rest) = acc.
Proof.
  intros Hf Hk Hne. unfold keyValue.
  destruct (HasPrefix _ _) eqn:Hp; [|reflexivity].
  destruct Hne. eapply key_prefix; eassumption.
Qed.

Lemma keyValue_no_colon key acc part :
  Contains part ":" = false -> keyValue key acc part = acc.
Proof.
  intros Hc. unfold keyValue.
  destruct (HasPrefix _ _) eqn:Hp; [|reflexivity].
  apply HasPrefix_split in Hp as [r ->].
  rewrite CharFacts.app_assoc in Hc.
  pose proof (Index_range (key +:+ ":" +:+ r) ":") as Hr.
  apply Contains_false in Hc.
  assert (0 <= Index (key +:+ ":" +:+ r) ":"); [|lia].
  clear. induction key as [|c key IH].
  - vm_compute. discriminate.
  - rewrite app_String. change ":" with (str1 ":"%char) in *.
    rewrite Index_char_cons. destruct (Ascii.eqb c ":"); [lia|].
    destruct (Z.ltb_spec (Index (key +:+ str1 ":" +:+ r) (str1 ":")) 0); lia.
Qed.

(** What a key other than the one written leaves alone, and what the
    one written becomes. *)
Lemma assignField_frame field value tag returntype :
  let st := assignField field value tag returntype in
  FunctionName st.1 = FunctionName tag /\ Filename st.1 = Filename tag
  /\ SkipMe st.1 = SkipMe tag /\ Code st.1 = Code tag
  /\ Prototype st.1 = Prototype tag
  /\ PrototypeModifiers st.1 = PrototypeModifiers tag.
Proof.
  unfold assignField. repeat (destruct (decide _); [repeat split|]). repeat split.
Qed.

Lemma assignField_values field value tag returntype :
  let st := assignField field value tag returntype in
  Kind st.1 = (if decide (field = "kind") then value else Kind tag)
  /\ Typeref st.1 = (if decide (field = "typeref") then value else Typeref tag)
  /\ Signature st.1 = (if decide (field = "signature") then value else Signature tag)
  /\ st.2 = (if decide (field = "returntype") then value else returntype)
  /\ Class st.1 = (if decide (field = "class") then value else Class tag)
  /\ Struct st.1 = (if decide (field = "struct") then value else Struct tag)
  /\ Namespace st.1 = (if decide (field = "namespace") then value else Namespace tag).
Proof.
  unfold assignField.
  repeat (destruct (decide (field = _)) as [->|?];
          [repeat split;
           repeat (destruct (decide _); try discriminate; try reflexivity); try congruence|]).
  repeat split.
Qed.

(** One part of a row: each key takes the value the part gives it. *)
Lemma parsePart_read st part st' :
  parsePart st part = Ok st' ->
  (FunctionName st'.1 = FunctionName st.1 /\ Filename st'.1 = Filename st.1
   /\ SkipMe st'.1 = SkipMe st.1 /\ Code st'.1 = Code st.1
   /\ Prototype st'.1 = Prototype st.1
   /\ PrototypeModifiers st'.1 = PrototypeModifiers st.1)
  /\ (Kind st'.1 = keyValue "kind" (Kind st.1) part
      /\ Typeref st'.1 = keyValue "typeref" (Typeref st.1) part
      /\ Signature st'.1 = keyValue "signature" (Signature st.1) part
      /\ st'.2 = keyValue "returntype" st.2 part
      /\ Class st'.1 = keyValue "class" (Class st.1) part
      /\ Struct st'.1 = keyValue "struct" (Struct st.1) part
      /\ Namespace st'.1 = keyValue "namespace" (Namespace st.1) part)
  /\ (forall acc, Line st.1 = (GoStrconv.Atoi acc).1 ->
                  Line st'.1 = (GoStrconv.Atoi (keyValue "line" acc part)).1).
Proof.
  intros H. destruct (Contains part ":") eqn:Hc.
  - destruct (parsePart_colon st part Hc) as (field & rest & -> & Hfree & Heq).
    rewrite Heq in H. injection H as <-.
    split; [apply assignField_frame|].
    pose proof (assignField_values field (TrimSpace rest) st.1 st.2)
      as (Hk & Ht & Hs & Hr & Hcl & Hst & Hn).
    split.
    + rewrite Hk, Ht, Hs, Hr, Hcl, Hst, Hn. clear Hk Ht Hs Hr Hcl Hst Hn.
      repeat split.
      * destruct (decide (field = "kind")) as [->|?];
          [rewrite keyValue_same
          |rewrite keyValue_other by (assumption || (vm_compute; reflexivity))];
          reflexivity.
      * destruct (decide (field = "typeref")) as [->|?];
          [rewrite keyValue_same
          |rewrite keyValue_other by (assumption || (vm_compute; reflexivity))];
          reflexivity.
      * destruct (decide (field = "signature")) as [->|?];
          [rewrite keyValue_same
          |rewrite keyValue_other by (assumption || (vm_compute; reflexivity))];
          reflexivity.
      * destruct (decide (field = "returntype")) as [->|?];
          [rewrite keyValue_same
          |rewrite keyValue_other by (assumption || (vm_compute; reflexivity))];
          reflexivity.
      * destruct (decide (field = "class")) as [->|?];
          [rewrite keyValue_same
          |rewrite keyValue_other by (assumption || (vm_compute; reflexivity))];
          reflexivity.
      * destruct (decide (field = "struct")) as [->|?];
          [rewrite keyValue_same
          |rewrite keyValue_other by (assumption || (vm_compute; reflexivity))];
          reflexivity.
      * destruct (decide (field = "namespace")) as [->|?];
          [rewrite keyValue_same
          |rewrite keyValue_other by (assumption || (vm_compute; reflexivity))];
          reflexivity.
    + intros acc Hacc. rewrite assignField_Line.
      destruct (decide (field = "line")) as [->|?];
          [rewrite keyValue_same
          |rewrite keyValue_other by (assumption || (vm_compute; reflexivity))];
          [reflexivity | exact Hacc].
  - unfold parsePart in H. rewrite Hc in H. injection H as <-.
    rewrite !keyValue_no_colon by exact Hc.
    split; [repeat split|]. split; [repeat split|].
    intros acc Hacc. rewrite keyValue_no_colon by exact Hc. exact Hacc.
Qed.

(** All the parts of a row. *)
Lemma parseParts_read parts : forall st st',
  parseParts st parts = Ok st' ->
  (FunctionName st'.1 = FunctionName st.1 /\ Filename st'.1 = Filename st.1
   /\ SkipMe st'.1 = SkipMe st.1 /\ Code st'.1 = Code st.1
   /\ Prototype st'.1 = Prototype st.1
   /\ PrototypeModifiers st'.1 = PrototypeModifiers st.1)
  /\ (Kind st'.1 = fold_left (keyValue "kind") parts (Kind st.1)
      /\ Typeref st'.1 = fold_left (keyValue "typeref") parts (Typeref st.1)
      /\ Signature st'.1 = fold_left (keyValue "signature") parts (Signature st.1)
      /\ st'.2 = fold_left (keyValue "returntype") parts st.2
      /\ Class st'.1 = fold_left (keyValue "class") parts (Class st.1)
      /\ Struct st'.1 = fold_left (keyValue "struct") parts (Struct st.1)
      /\ Namespace st'.1 = fold_left (keyValue "namespace") parts (Namespace st.1))
  /\ (forall acc, Line st.1 = (GoStrconv.Atoi acc).1 ->
                  Line st'.1
                  = (GoStrconv.Atoi (fold_left (keyValue "line") parts acc)).1).
Proof.
  induction parts as [|part parts IH]; intros st st' H; simpl in H.
  - injection H as <-. simpl. repeat split. intros acc Hacc. exact Hacc.
  - destruct (parsePart st part) as [st1|] eqn:Hpart; [|discriminate].
    cbn [bind] in H.
    destruct (parsePart_read st part st1 Hpart)
      as ((F1 & F2 & F3 & F4 & F5 & F6) & (V1 & V2 & V3 & V4 & V5 & V6 & V7) & VL).
    destruct (IH st1 st' H)
      as ((G1 & G2 & G3 & G4 & G5 & G6) & (W1 & W2 & W3 & W4 & W5 & W6 & W7) & WL).
    cbn [fold_left].
    split; [repeat split; congruence|].
    split; [repeat split; congruence|].
    intros acc Hacc. apply WL, VL, Hacc.
Qed.

(** ** The pattern markers *)

(** [Index] points at an occurrence. *)
Lemma Index_occurs s sub :
  0 <= Index s sub ->
  exists pre post, s = pre +:+ sub +:+ post /\ len pre = Index s sub.
Proof.
  induction s as [|c s IH]; simpl.
  - destruct (HasPrefix "" sub) eqn:Hp; [|lia]. intros _.
    apply HasPrefix_split in Hp as [r Hr]. exists "", r. split; [exact Hr | reflexivity].
  - destruct (HasPrefix (String c s) sub) eqn:Hp.
    + intros _. apply HasPrefix_split in Hp as [r Hr].
      exists "", r. split; [exact Hr | reflexivity].
    + destruct (Z.ltb_spec (Index s sub) 0) as [Hlt|Hge]; [lia|]. intros _.
      destruct (IH Hge) as (pre & post & Hs & Hl).
      exists (String c pre), post. split.
      * rewrite app_String, <- Hs. reflexivity.
      * rewrite len_String, Hl. reflexivity.
Qed.

Lemma skipBytes_add n m s : skipBytes (n + m) s = skipBytes m (skipBytes n s).
Proof.
  revert s. induction n as [|n IH]; intros s; simpl.
  - destruct s; reflexivity.
  - destruct s as [|c s]; [destruct m; reflexivity | apply IH].
Qed.

(** The two markers cannot overlap: an end marker that does not start
    before the start marker starts behind it. *)
Lemma markers_apart row :
  0 <= Index row "/^" -> Index row "/^" <= Index row "$/;" ->
  exists pre code post,
    row = pre +:+ "/^" +:+ code +:+ "$/;" +:+ post
    /\ Index row "/^" = len pre
    /\ Index row "$/;" = len pre + 2 + len code
    /\ slice row (Index row "/^" + 2) (Index row "$/;") = Ok code.
Proof.
  intros H0 Hle.
  destruct (Index_occurs row "/^" H0) as (p1 & r1 & Hrow1 & Hl1).
  destruct (Index_occurs row "$/;" ltac:(lia)) as (p2 & r2 & Hrow2 & Hl2).
  assert (Hs1 : skipBytes (String.length p1) row = "/^" +:+ r1)
    by (rewrite Hrow1 at 1; apply drop_app_len).
  assert (Hs2 : skipBytes (String.length p2) row = "$/;" +:+ r2)
    by (rewrite Hrow2 at 1; apply drop_app_len).
  assert (String.length p1 <= String.length p2)%nat as Hlen by (unfold len in *; lia).
  replace (String.length p2) with (String.length p1 + (String.length p2 - String.length p1))%nat
    in Hs2 by lia.
  rewrite skipBytes_add, Hs1 in Hs2.
  destruct (String.length p2 - String.length p1)%nat as [|[|d]] eqn:Hd;
    [discriminate Hs2 | discriminate Hs2 |].
  change (skipBytes (S (S d)) ("/^" +:+ r1)) with (skipBytes d r1) in Hs2.
  exists p1, (firstBytes d r1), r2.
  assert (Hr1 : r1 = firstBytes d r1 +:+ "$/;" +:+ r2)
    by (rewrite <- Hs2; symmetry; apply take_drop).
  assert (Hcode : String.length (firstBytes d r1) = d).
  { assert (String.length r1 = String.length (firstBytes d r1) + String.length (skipBytes d r1))%nat
      as Hsum.
    { rewrite <- (take_drop d r1) at 1. clear.
      generalize (firstBytes d r1) (skipBytes d r1). intros a b.
      induction a; simpl; [reflexivity | rewrite IHa; reflexivity]. }
    rewrite length_drop in Hsum.
    assert (d <= String.length r1)%nat; [|lia].
    destruct (Nat.le_gt_cases d (String.length r1)) as [?|Hgt]; [assumption|].
    rewrite (proj2 (Nat.sub_0_le _ _)) in Hsum by lia.
    assert (String.length (skipBytes d r1) = 0%nat) as Hz by (rewrite length_drop; lia).
    rewrite Hs2 in Hz. discriminate Hz. }
  split; [rewrite Hrow1 at 1; rewrite Hr1 at 1; reflexivity|].
  split; [symmetry; exact Hl1|].
  assert (Hj : Index row "$/;" = len p1 + 2 + len (firstBytes d r1)).
  { rewrite <- Hl2. unfold len. rewrite Hcode. lia. }
  split; [exact Hj|].
  pose proof (Index_range row "$/;") as [E|[_ Hup]]; [lia|].
  change (len "$/;") with 3 in Hup.
  pose proof (len_nonneg (firstBytes d r1)).
  rewrite slice_Ok by lia.
  rewrite Hj, <- Hl1.
  replace (len p1 + 2 + len (firstBytes d r1) - (len p1 + 2)) with (len (firstBytes d r1)) by lia.
  replace (len p1 + 2) with (len (p1 +:+ "/^")) by (rewrite len_app; reflexivity).
  rewrite Hrow1 at 1. rewrite <- CharFacts.app_assoc, drop_len_app.
  rewrite to_nat_len, Hcode. reflexivity.
Qed.

Lemma Split_app_free pre sep post :
  Index pre (str1 sep) = -1 ->
  Split (pre +:+ String sep post) sep = pre :: Split post sep.
Proof.
  induction pre as [|c pre IH]; intros H.
  - rewrite app_empty_l. simpl. rewrite Ascii.eqb_refl. reflexivity.
  - rewrite app_String. rewrite Index_char_cons in H. simpl.
    destruct (Ascii.eqb c sep); [discriminate|].
    rewrite IH; [reflexivity|].
    destruct (Index_range pre (str1 sep)) as [E|[E _]]; [exact E|].
    destruct (Z.ltb_spec (Index pre (str1 sep)) 0); lia.
Qed.

(** A row with a tab in it has two fields or more. *)
Lemma Split_two_fields row :
  Contains row (str1 tab) = true ->
  exists name file rest, Split row tab = name :: file :: rest.
Proof.
  intros Hc. apply Contains_range in Hc as [H0 _].
  destruct (Index_char_split row tab H0) as (pre & post & -> & _ & Hfree).
  rewrite (Split_app_free _ _ _ Hfree).
  destruct (Split_nonempty post tab) as (f & fs & ->). eauto.
Qed.

Lemma parseTag_result row name file rest tag :
  Split row tab = name :: file :: rest ->
  parseTag row = Ok tag ->
  exists st,
    parseParts (startTag name file, "") rest = Ok st
    /\ (tag = withPrototype st \/ exists code, tag = setCode code (withPrototype st)).
Proof.
  intros Hs Hp. destruct (parseTag_fields row name file rest Hs) as (st & Hst & Heq).
  exists st. split; [exact Hst|]. rewrite Heq in Hp. unfold readCode in Hp.
  destruct (Contains row "/^" && Contains row "$/;").
  - destruct (slice row _ _) as [code|]; [|discriminate]. cbn [bind] in Hp.
    injection Hp as <-. right. exists code. reflexivity.
  - injection Hp as <-. left. reflexivity.
Qed.

Lemma parseTag_is_Ok row : is_Ok (parseTag row) = accepted row.
Proof.
  unfold accepted.
  destruct (Contains row (str1 tab)) eqn:Ht.
  - destruct (Split_two_fields row Ht) as (name & file & rest & Hs).
    destruct (parseTag_fields row name file rest Hs) as (st & _ & ->).
    unfold readCode, Contains. cbn [andb].
    destruct (Z.leb_spec 0 (Index row "$/;")) as [Hj|Hj]; cbn [andb negb].
    + destruct (Z.ltb_spec (Index row "$/;") (Index row "/^")) as [Hlt|Hge]; cbn [negb].
      * destruct (Z.leb_spec 0 (Index row "/^")); [|lia]. cbn [andb].
        rewrite slice_backwards by lia. reflexivity.
      * destruct (Z.leb_spec 0 (Index row "/^")) as [Hi|Hi]; cbn [andb]; [|reflexivity].
        destruct (markers_apart row Hi Hge) as (pre & code & post & _ & _ & _ & ->).
        reflexivity.
    + rewrite andb_false_r. reflexivity.
  - cbn [andb]. apply Contains_false in Ht.
    rewrite (parseTag_one_field row row (Split_free _ _ Ht)). reflexivity.
Qed.

(** X3: [parseTag] returns a tag exactly when the row has a tab in it
    (two fields or more) and its first "$/;" does not come before its
    first "/^"; it panics in every other case and in no case besides. *)
Theorem parseTag_succeeds_exactly_when (row : string) :
  is_Ok (parseTag row)
  = Contains row (str1 tab)
    && negb ((0 <=? Index row "$/;") && (Index row "$/;" <? Index row "/^")).
Proof. exact (parseTag_is_Ok row). Qed.

(** X4: what [parseTag] reads from a row it accepts.  The function name
    is the first field; each of the keys kind, typeref, signature,
    class, struct and namespace takes the trimmed value of the last
    field that starts with the key and a colon, and the empty string
    when there is none; the line number is that value of the key line as
    [Atoi] reads it; fields with another key or with no colon change
    nothing; the prototype text is the return type, a space, the name,
    the signature and ";"; the record is not skipped and has no
    modifier text. *)
Theorem parseTag_reads_fields (row name file : string) (rest : list string) (tag : Tag) :
  Split row tab = name :: file :: rest ->
  parseTag row = Ok tag ->
  FunctionName tag = name
  /\ Kind tag = fieldValue "kind" rest
  /\ Line tag = (GoStrconv.Atoi (fieldValue "line" rest)).1
  /\ Typeref tag = fieldValue "typeref" rest
  /\ Signature tag = fieldValue "signature" rest
  /\ Class tag = fieldValue "class" rest
  /\ Struct tag = fieldValue "struct" rest
  /\ Namespace tag = fieldValue "namespace" rest
  /\ Prototype tag
     = fieldValue "returntype" rest +:+ " " +:+ name
       +:+ fieldValue "signature" rest +:+ ";"
  /\ SkipMe tag = false
  /\ PrototypeModifiers tag = "".
Proof.
  intros Hs Hp.
  destruct (parseTag_result row name file rest tag Hs Hp) as (st & Hst & Htag).
  destruct (parseParts_read rest _ st Hst)
    as ((F1 & F2 & F3 & F4 & F5 & F6) & (V1 & V2 & V3 & V4 & V5 & V6 & V7) & VL).
  specialize (VL "" eq_refl). cbn [fst snd startTag] in *.
  unfold fieldValue.
  destruct Htag as [->|[code ->]]; unfold withPrototype; simpl;
    rewrite V4, F1, V3; repeat split; assumption.
Qed.

(** X4 at the row of [foo]. *)
Lemma parseTag_reads_fields_witness :
  FunctionName fooParsed = "foo"
  /\ Kind fooParsed = "function" /\ Line fooParsed = 3
  /\ Prototype fooParsed = "void foo();".
Proof.
  destruct (parseTag_reads_fields fooRow "foo" "main.ino"
              ["/^void foo() {$/;" +:+ str1 dquote; "kind:function"; "line:3";
               "signature:()"; "returntype:void"] fooParsed)
    as (H1 & H2 & H3 & _ & _ & _ & _ & _ & H9 & _).
  - reflexivity.
  - vm_compute. reflexivity.
  - split; [exact H1|]. split; [exact H2|]. split; [exact H3 | exact H9].
Defined.

(** X5: the code snippet of a row [parseTag] accepts.  When the row has
    both markers it reads [pre "/^" code "$/;" post], where the "/^"
    shown is the first in the row and the "$/;" shown is the first in the
    row, and the snippet is [code]; when a marker is missing the snippet
    is empty. *)
Theorem parseTag_code_snippet (row : string) (tag : Tag) :
  parseTag row = Ok tag ->
  (Contains row "/^" = true -> Contains row "$/;" = true ->
   exists pre code post,
     row = pre +:+ "/^" +:+ code +:+ "$/;" +:+ post
     /\ Index row "/^" = len pre
     /\ Index row "$/;" = len pre + 2 + len code
     /\ Code tag = code)
  /\ (Contains row "/^" && Contains row "$/;" = false -> Code tag = "").
Proof.
  intros Hp.
  destruct (Split row tab) as [|name [|file rest]] eqn:Hs.
  - destruct (Split_nonempty row tab) as (? & ? & E). congruence.
  - rewrite (parseTag_one_field row name Hs) in Hp. discriminate.
  - destruct (parseTag_fields row name file rest Hs) as (st & Hst & Heq).
    destruct (parseParts_read rest _ st Hst) as ((_ & _ & _ & F4 & _) & _).
    assert (Code (withPrototype st) = "") as Hempty by exact F4.
    rewrite Heq in Hp. unfold readCode in Hp. split.
    + intros H1 H2. rewrite H1, H2 in Hp. cbn [andb] in Hp.
      apply Contains_range in H1 as [Hi _]. apply Contains_range in H2 as [Hj _].
      destruct (Z.lt_ge_cases (Index row "$/;") (Index row "/^")) as [Hlt|Hge].
      * rewrite slice_backwards in Hp by lia. discriminate.
      * destruct (markers_apart row Hi Hge) as (pre & code & post & Hrow & Hpre & Hcode & Hsl).
        rewrite Hsl in Hp. cbn [bind] in Hp. injection Hp as <-.
        exists pre, code, post. auto.
    + intros Hno. rewrite Hno in Hp. injection Hp as <-. exact Hempty.
Qed.

(** X5 at the row of [foo]. *)
Lemma parseTag_code_snippet_witness :
  exists pre code post,
    fooRow = pre +:+ "/^" +:+ code +:+ "$/;" +:+ post
    /\ Index fooRow "/^" = len pre
    /\ Index fooRow "$/;" = len pre + 2 + len code
    /\ Code fooParsed = code.
Proof.
  destruct (parseTag_code_snippet fooRow fooParsed) as [H _].
  - vm_compute. reflexivity.
  - apply H; vm_compute; reflexivity.
Defined.

(** ** The file name *)

Lemma ReplaceAll_absent s old new :
  Index s old = -1 -> ReplaceAll s old new = s.
Proof.
  unfold ReplaceAll. induction s as [|c s IH]; intros H; [reflexivity|].
  simpl in H. cbn [replaceFrom].
  destruct (HasPrefix (String c s) old); [discriminate|].
  destruct (Z.ltb_spec (Index s old) 0) as [Hlt|Hge]; [|lia].
  rewrite IH; [reflexivity|].
  destruct (Index_range s old) as [E|[E _]]; [exact E | lia].
Qed.

Lemma ReplaceAll_unescape s :
  ReplaceAll (escapeBackslashes s) (str1 backslash +:+ str1 backslash) (str1 backslash) = s.
Proof.
  unfold ReplaceAll. induction s as [|c s IH]; [reflexivity|].
  cbn [escapeBackslashes].
  destruct (Ascii.eqb_spec c backslash) as [->|Hne].
  - cbn [replaceFrom].
    change (HasPrefix (String backslash (String backslash (escapeBackslashes s)))
                      (str1 backslash +:+ str1 backslash)) with true.
    cbn iota.
    change (String.length (str1 backslash +:+ str1 backslash) - 1)%nat with 1%nat.
    cbn iota. rewrite IH. reflexivity.
  - cbn [replaceFrom].
    assert (HasPrefix (String c (escapeBackslashes s))
                      (str1 backslash +:+ str1 backslash) = false) as ->.
    { simpl. destruct (Ascii.eqb_spec c backslash); [contradiction | reflexivity]. }
    rewrite IH. reflexivity.
Qed.

(** X6: the file name of a row [parseTag] accepts is its second field
    with every "\\" (two backslashes) replaced by one, from the left.  A
    field with no doubled backslash is kept as it is, and a file name
    printed with each of its backslashes doubled, as the line markers
    of the compiler print it, is read back unchanged. *)
Theorem parseTag_unescapes_file_name
    (row name file : string) (rest : list string) (tag : Tag) :
  Split row tab = name :: file :: rest ->
  parseTag row = Ok tag ->
  Filename tag = ReplaceAll file (str1 backslash +:+ str1 backslash) (str1 backslash)
  /\ (Contains file (str1 backslash +:+ str1 backslash) = false -> Filename tag = file)
  /\ (forall original, file = escapeBackslashes original -> Filename tag = original).
Proof.
  intros Hs Hp.
  destruct (parseTag_result row name file rest tag Hs Hp) as (st & Hst & Htag).
  destruct (parseParts_read rest _ st Hst) as ((_ & F2 & _) & _).
  assert (Hf : Filename tag
               = ReplaceAll file (str1 backslash +:+ str1 backslash) (str1 backslash)).
  { destruct Htag as [->|[code ->]]; exact F2. }
  split; [exact Hf|]. rewrite Hf. split.
  - intros Hc. apply ReplaceAll_absent, Contains_false, Hc.
  - intros original ->. apply ReplaceAll_unescape.
Qed.

(** X6 at a row whose file name is a path with backslashes. *)
Lemma parseTag_unescapes_file_name_witness :
  parseTag ("foo" +:+ str1 tab
            +:+ escapeBackslashes ("C:" +:+ str1 backslash +:+ "Users"
                                   +:+ str1 backslash +:+ "a.ino")
            +:+ str1 tab +:+ "kind:function")
  = Ok (mkTag "foo" "function" 0 "" "" "" ""
              ("C:" +:+ str1 backslash +:+ "Users" +:+ str1 backslash +:+ "a.ino")
              "" false "" " foo;" "")
  /\ Filename (mkTag "foo" "function" 0 "" "" "" ""
                  ("C:" +:+ str1 backslash +:+ "Users" +:+ str1 backslash +:+ "a.ino")
                  "" false "" " foo;" "")
  = "C:" +:+ str1 backslash +:+ "Users" +:+ str1 backslash +:+ "a.ino".
Proof.
  split; [vm_compute; reflexivity|].
  destruct (parseTag_unescapes_file_name
              ("foo" +:+ str1 tab
               +:+ escapeBackslashes ("C:" +:+ str1 backslash +:+ "Users"
                                      +:+ str1 backslash +:+ "a.ino")
               +:+ str1 tab +:+ "kind:function")
              "foo"
              (escapeBackslashes ("C:" +:+ str1 backslash +:+ "Users"
                                  +:+ str1 backslash +:+ "a.ino"))
              ["kind:function"]
              (mkTag "foo" "function" 0 "" "" "" ""
                     ("C:" +:+ str1 backslash +:+ "Users" +:+ str1 backslash +:+ "a.ino")
                     "" false "" " foo;" ""))
    as (_ & _ & H).
  - vm_compute. reflexivity.
  - vm_compute. reflexivity.
  - apply H. reflexivity.
Defined.

(** ** The filter passes *)

Lemma skipTagsWhere_twice f g tags :
  skipTagsWhere f (skipTagsWhere g tags) = skipTagsWhere (fun t => g t || f t) tags.
Proof.
  unfold skipTagsWhere. rewrite map_map. apply map_ext. intros t.
  destruct t as [n k l c cl st ns fl ty [|] sg p m]; simpl; [reflexivity|].
  destruct (g _); reflexivity.
Qed.

(** X7: two [skipTagsWhere] passes in a row are one pass with the
    disjunction of the two predicates; so two such passes can be
    swapped, as the unknown-kind and the unhandled-scope filters of
    [Parse], and running a pass twice is running it once. *)
Theorem skipTagsWhere_passes_compose (f g : Tag -> bool) (tags : list Tag) :
  skipTagsWhere f (skipTagsWhere g tags) = skipTagsWhere (fun t => g t || f t) tags
  /\ skipTagsWhere f (skipTagsWhere g tags) = skipTagsWhere g (skipTagsWhere f tags)
  /\ skipTagsWhere f (skipTagsWhere f tags) = skipTagsWhere f tags
  /\ skipTagsWhere tagIsUnhandled (skipTagsWhere tagIsUnknown tags)
     = skipTagsWhere tagIsUnknown (skipTagsWhere tagIsUnhandled tags).
Proof.
  assert (Hswap : forall f g, skipTagsWhere f (skipTagsWhere g tags)
                              = skipTagsWhere g (skipTagsWhere f tags)).
  { intros f' g'. rewrite !skipTagsWhere_twice. unfold skipTagsWhere.
    apply map_ext. intros t. rewrite orb_comm. reflexivity. }
  split; [apply skipTagsWhere_twice|]. split; [apply Hswap|].
  split; [|apply Hswap].
  rewrite skipTagsWhere_twice. unfold skipTagsWhere. apply map_ext. intros t.
  rewrite orb_diag. reflexivity.
Qed.

(** X8: the three filters keep the records in place and write nothing
    but the flag: after [skipTagsWhere], [removeDefinedProtypes] or
    [skipDuplicates] the list is as long as before, and the record at
    each position is the record that was there with its flag set to some
    value, [true] if it was [true]. *)
Theorem filters_write_only_the_flag (skipFunc : Tag -> bool) (tags : list Tag) :
  Forall2 flagOnly tags (skipTagsWhere skipFunc tags)
  /\ Forall2 flagOnly tags (removeDefinedProtypes tags)
  /\ Forall2 flagOnly tags (skipDuplicates tags)
  /\ length (skipTagsWhere skipFunc tags) = length tags
  /\ length (removeDefinedProtypes tags) = length tags
  /\ length (skipDuplicates tags) = length tags
  /\ (forall pass i t,
        pass = skipTagsWhere skipFunc \/ pass = removeDefinedProtypes
        \/ pass = skipDuplicates ->
        tags !! i = Some t ->
        exists v, pass tags !! i = Some (setSkipMe v t) /\ (SkipMe t = true -> v = true)).
Proof.
  pose proof (skipTagsWhere_flagOnly skipFunc tags) as H1.
  pose proof (removeDefinedProtypes_flagOnly tags) as H2.
  pose proof (skipDuplicatesFrom_flagOnly tags ∅) as H3.
  fold (skipDuplicates tags) in H3.
  repeat split; try assumption;
    try (symmetry; eapply Forall2_length; eassumption).
  intros pass i t Hpass Hi.
  assert (Forall2 flagOnly tags (pass tags)) as Hf
    by (destruct Hpass as [->|[->| ->]]; assumption).
  destruct (Forall2_lookup_l _ _ _ _ _ Hf Hi) as (b & Hb & v & -> & Hv).
  exists v. auto.
Qed.

Lemma collectDefined_flagOnly l1 l2 :
  Forall2 flagOnly l1 l2 -> forall d, collectDefined d l1 = collectDefined d l2.
Proof.
  induction 1 as [|a b l1 l2 (v & -> & _) _ IH]; intros d; [reflexivity|].
  simpl. destruct (String.eqb (Kind a) kindPrototype); apply IH.
Qed.

Lemma removeDefinedProtypes_idempotent tags :
  removeDefinedProtypes (removeDefinedProtypes tags) = removeDefinedProtypes tags.
Proof.
  unfold removeDefinedProtypes at 1.
  rewrite <- (collectDefined_flagOnly _ _ (removeDefinedProtypes_flagOnly tags)).
  unfold removeDefinedProtypes. rewrite map_map. apply map_ext. intros t.
  destruct (mapGet _ (Prototype t)) eqn:Hm; simpl; rewrite Hm; reflexivity.
Qed.

Lemma skipDuplicatesFrom_idempotent tags : forall d,
  skipDuplicatesFrom d (skipDuplicatesFrom d tags) = skipDuplicatesFrom d tags.
Proof.
  induction tags as [|t tags IH]; intros d; [reflexivity|]. simpl.
  destruct (negb (mapGet d (Prototype t)) && negb (SkipMe t)) eqn:Hk; simpl.
  - rewrite Hk, IH. reflexivity.
  - rewrite andb_false_r, IH. reflexivity.
Qed.

(** X9: [removeDefinedProtypes] and [skipDuplicates] are idempotent:
    run a second time on their own result, they change nothing. *)
Theorem duplicate_and_declared_filters_idempotent (tags : list Tag) :
  removeDefinedProtypes (removeDefinedProtypes tags) = removeDefinedProtypes tags
  /\ skipDuplicates (skipDuplicates tags) = skipDuplicates tags.
Proof.
  split; [apply removeDefinedProtypes_idempotent | apply skipDuplicatesFrom_idempotent].
Qed.

(** ** The records that survive *)

Lemma lookup_map_Some {A B : Type} (f : A -> B) (l : list A) i y :
  map f l !! i = Some y -> exists x, l !! i = Some x /\ y = f x.
Proof.
  rewrite lookup_map. destruct (l !! i) as [x|]; [|discriminate].
  intros [= <-]. eauto.
Qed.

Lemma skipTagsWhere_survivor f tags i t' :
  skipTagsWhere f tags !! i = Some t' -> SkipMe t' = false ->
  tags !! i = Some t' /\ f t' = false.
Proof.
  intros Hi Hs. apply lookup_map_Some in Hi as (t & Ht & ->).
  destruct (SkipMe t) eqn:Hst; simpl in Hs; [congruence|].
  simpl. rewrite Hs, (setSkipMe_false t Hst). auto.
Qed.

Lemma removeDefinedProtypes_survivor tags i t' :
  removeDefinedProtypes tags !! i = Some t' -> SkipMe t' = false ->
  tags !! i = Some t' /\ ~ declaredText tags (Prototype t').
Proof.
  intros Hi Hs.
  destruct (Forall2_lookup_r _ _ _ _ _ (removeDefinedProtypes_flagOnly tags) Hi)
    as (t & Ht & _).
  destruct (removeDefinedProtypes_lookup tags i t Ht) as (t2 & Ht2 & Hyes & Hno).
  rewrite Hi in Ht2. injection Ht2 as <-.
  assert (~ declaredText tags (Prototype t)) as Hnd.
  { intros Hd. rewrite (Hyes Hd) in Hs. discriminate Hs. }
  rewrite (Hno Hnd) in *. auto.
Qed.

Lemma skipDuplicates_survivor tags i t' :
  skipDuplicates tags !! i = Some t' -> SkipMe t' = false ->
  tags !! i = Some t' /\ firstOfText tags i t'.
Proof.
  intros Hi Hs.
  destruct (Forall2_lookup_r _ _ _ _ _ (skipDuplicatesFrom_flagOnly tags ∅) Hi)
    as (t & Ht & _).
  destruct (skipDuplicates_lookup tags i t Ht) as (t2 & Ht2 & Heq & Hiff).
  rewrite Hi in Ht2. injection Ht2 as <-.
  apply Hiff in Hs as Hfirst. destruct Hfirst as [Hst Hfirst].
  rewrite Hs in Heq. rewrite (setSkipMe_false t Hst) in Heq. subst t'.
  split; [exact Ht|]. split; assumption.
Qed.

Lemma stateAfter_6 findTemplateMultiline prototypeAndCodeDontMatch
      insideCLinkageBlock tags :
  stateAfter findTemplateMultiline prototypeAndCodeDontMatch insideCLinkageBlock 6 tags
  = Ok (afterFilters findTemplateMultiline prototypeAndCodeDontMatch tags).
Proof. unfold stateAfter, passes. simpl. rewrite addPrototypes_Ok. reflexivity. Qed.

Lemma tagIsUnknown_false t :
  tagIsUnknown t = false -> Kind t = "function" \/ Kind t = "prototype".
Proof.
  unfold tagIsUnknown, mapGet, knownTagKinds. intros H. apply negb_false_iff in H.
  destruct (decide (Kind t = "prototype")) as [?|Hp]; [auto|].
  destruct (decide (Kind t = "function")) as [?|Hf]; [auto|].
  rewrite lookup_insert_ne in H by congruence.
  rewrite lookup_insert_ne in H by congruence.
  rewrite lookup_empty in H. discriminate H.
Qed.

Lemma isHandled_true t :
  isHandled t = true -> Class t = "" /\ Struct t = "" /\ Namespace t = "".
Proof.
  unfold isHandled.
  destruct (String.eqb_spec (Class t) ""); [|discriminate].
  destruct (String.eqb_spec (Struct t) ""); [|discriminate].
  destruct (String.eqb_spec (Namespace t) ""); [|discriminate]. auto.
Qed.

(** What a record that is unskipped after the six filter passes went
    through. *)
Lemma survivor_origin findTemplateMultiline prototypeAndCodeDontMatch tags i t' :
  afterFilters findTemplateMultiline prototypeAndCodeDontMatch tags !! i = Some t' ->
  SkipMe t' = false ->
  exists t0,
    tags !! i = Some t0 /\ SkipMe t0 = false
    /\ tagIsUnknown t0 = false /\ isHandled t0 = true
    /\ t' = generated findTemplateMultiline t0
    /\ prototypeAndCodeDontMatch t' = false
    /\ afterGeneration findTemplateMultiline tags !! i = Some t'
    /\ ~ declaredText (afterGeneration findTemplateMultiline tags) (Prototype t')
    /\ removeDefinedProtypes (afterGeneration findTemplateMultiline tags) !! i = Some t'
    /\ firstOfText (removeDefinedProtypes (afterGeneration findTemplateMultiline tags)) i t'.
Proof.
  intros Hi Hs. unfold afterFilters in Hi.
  apply skipTagsWhere_survivor in Hi as [H5 Hdm]; [|exact Hs].
  apply skipDuplicates_survivor in H5 as [H4 Hfirst]; [|exact Hs].
  pose proof H4 as H4'.
  apply removeDefinedProtypes_survivor in H4 as [H3 Hnd]; [|exact Hs].
  pose proof H3 as H3'. unfold afterGeneration in H3.
  apply lookup_map_Some in H3 as (t2 & H2 & Hgen).
  assert (SkipMe t2 = false) as Hs2.
  { destruct (SkipMe t2) eqn:E; [|reflexivity]. simpl in Hgen. congruence. }
  rewrite Hs2 in Hgen. simpl in Hgen.
  apply skipTagsWhere_survivor in H2 as [H1 Hh]; [|exact Hs2].
  apply skipTagsWhere_survivor in H1 as [H0 Hk]; [|exact Hs2].
  unfold tagIsUnhandled in Hh. apply negb_false_iff in Hh.
  exists t2. do 9 (split; [assumption|]). exact Hfirst.
Qed.

(** X10: the records left unskipped by the six filter passes of [Parse]
    (all but the linkage fix-up).  Such a record was unskipped in the
    input and is what [addPrototype] made of it; its kind is "function";
    its class, struct and namespace are empty; the consistency
    predicate accepts it; no record of kind "prototype" has its
    prototype text, and no other unskipped record has it. *)
Theorem survivors_are_unique_free_functions
    (findTemplateMultiline : Tag -> string)
    (prototypeAndCodeDontMatch insideCLinkageBlock : Tag -> bool)
    (tags out : list Tag) (i : nat) (t' : Tag) :
  stateAfter findTemplateMultiline prototypeAndCodeDontMatch insideCLinkageBlock 6 tags
  = Ok out ->
  out !! i = Some t' ->
  SkipMe t' = false ->
  (exists t0, tags !! i = Some t0 /\ SkipMe t0 = false
              /\ t' = generated findTemplateMultiline t0)
  /\ Kind t' = "function"
  /\ Class t' = "" /\ Struct t' = "" /\ Namespace t' = ""
  /\ prototypeAndCodeDontMatch t' = false
  /\ (forall j p, out !! j = Some p -> Prototype p = Prototype t' ->
                  Kind p <> "prototype" /\ (SkipMe p = false -> j = i)).
Proof.
  rewrite stateAfter_6. intros [= <-] Hi Hs.
  destruct (survivor_origin _ _ _ _ _ Hi Hs)
    as (t0 & H0 & Hs0 & Hk & Hh & Hgen & Hdm & H3 & Hnd & H4 & Hfirst).
  destruct (generated_fields findTemplateMultiline t0) as (_ & Gk & _).
  assert (Hsame : sameOrigin t0 t').
  { rewrite Hgen.
    destruct (generated_shape findTemplateMultiline t0) as [[x ->]|[x ->]];
      repeat split. }
  destruct Hsame as (_ & Sk & _ & _ & Sc & Sst & Sn & _).
  assert (Hnp : Kind t' <> "prototype").
  { intros Hp. apply Hnd. exists t'.
    split; [eapply list_elem_of_lookup_2; exact H3 | auto]. }
  split; [exists t0; auto|].
  split.
  { apply tagIsUnknown_false in Hk as [Hk|Hk]; [congruence|]. rewrite Sk in Hnp.
    contradiction. }
  apply isHandled_true in Hh as (Hc & Hst & Hn).
  split; [congruence|]. split; [congruence|]. split; [congruence|].
  split; [exact Hdm|].
  intros j p Hj Hp.
  pose proof (afterFilters_flagOnly findTemplateMultiline prototypeAndCodeDontMatch tags)
    as Hall.
  destruct (Forall2_lookup_r _ _ _ _ _ Hall Hj) as (p3 & Hp3 & (v & -> & _)).
  split.
  - intros Hkp. apply Hnd. exists p3.
    split; [eapply list_elem_of_lookup_2; exact Hp3 | auto].
  - intros Hsp.
    destruct (survivor_origin _ _ _ _ _ Hj Hsp)
      as (_ & _ & _ & _ & _ & _ & _ & _ & _ & Hj4 & [_ Hfirstj]).
    destruct Hfirst as [_ Hfirsti]. simpl in Hp.
    destruct (Nat.lt_trichotomy i j) as [Hlt|[Heq|Hgt]]; [|auto|].
    + specialize (Hfirstj i t' Hlt H4 (eq_sym Hp)). congruence.
    + specialize (Hfirsti j _ Hgt Hj4 Hp). congruence.
Qed.

(** X10 at the two records of [foo], the second with a static snippet. *)
Lemma survivors_are_unique_free_functions_witness :
  stateAfter (fun _ => "") (fun _ => false) (fun _ => false) 6
             [fooParsed; staticFooParsed]
  = Ok [fooParsed; setSkipMe true (setPrototypeModifiers "static" staticFooParsed)]
  /\ Kind fooParsed = "function"
  /\ (forall j p,
        [fooParsed; setSkipMe true (setPrototypeModifiers "static" staticFooParsed)] !! j
        = Some p ->
        Prototype p = Prototype fooParsed ->
        Kind p <> "prototype" /\ (SkipMe p = false -> j = 0%nat)).
Proof.
  assert (H : stateAfter (fun _ => "") (fun _ => false) (fun _ => false) 6
                         [fooParsed; staticFooParsed]
              = Ok [fooParsed;
                    setSkipMe true (setPrototypeModifiers "static" staticFooParsed)])
    by (vm_compute; reflexivity).
  split; [exact H|].
  destruct (survivors_are_unique_free_functions _ _ _ _ _ 0%nat fooParsed H eq_refl eq_refl)
    as (_ & Hk & _ & _ & _ & _ & Hu).
  split; [exact Hk | exact Hu].
Defined.

(** ** Prototype generation, whatever the tag *)

(** X11: [addPrototype] returns for every tag, its slices being within
    bounds, and leaves the flag and all that was read from the row as
    they are.  When the prototype text starts with "template" the
    modifier text is left alone, whatever the snippet, and the new text
    ends with ";": after a prefix of the snippet when the snippet starts
    with "template" too, after the text [findTemplateMultiline] returns
    otherwise.  When it does not, the prototype text is left alone. *)
Theorem addPrototype_returns_and_writes_one_field
    (findTemplateMultiline : Tag -> string) (tag : Tag) :
  exists tag',
    addPrototype findTemplateMultiline tag = Ok tag'
    /\ sameOrigin tag tag'
    /\ SkipMe tag' = SkipMe tag
    /\ (HasPrefix (Prototype tag) "template" = true ->
        PrototypeModifiers tag' = PrototypeModifiers tag
        /\ (HasPrefix (Code tag) "template" = true ->
            exists body rest,
              Code tag = body +:+ rest /\ Prototype tag' = body +:+ ";")
        /\ (HasPrefix (Code tag) "template" = false ->
            Prototype tag' = findTemplateMultiline tag +:+ ";"))
    /\ (HasPrefix (Prototype tag) "template" = false ->
        Prototype tag' = Prototype tag).
Proof.
  destruct (HasPrefix (Prototype tag) "template") eqn:Hp.
  - destruct (HasPrefix (Code tag) "template") eqn:Hc.
    + assert (exists body rest,
                Code tag = body +:+ rest
                /\ addPrototype findTemplateMultiline tag
                   = Ok (setPrototype (body +:+ ";") tag)) as (body & rest & Hcode & ->).
      { destruct (Contains (Code tag) "{") eqn:Hb.
        - destruct (addPrototype_template_brace findTemplateMultiline tag Hp Hc Hb) as (pre & post & E & _ & H).
          exists pre, ("{" +:+ post). auto.
        - destruct (Contains (Code tag) ")") eqn:Hparen.
          + destruct (addPrototype_template_paren findTemplateMultiline tag Hp Hc Hb Hparen)
              as (pre & post & E & _ & H).
            exists (pre +:+ ")"), post. split; [rewrite CharFacts.app_assoc; exact E|].
            rewrite CharFacts.app_assoc. exact H.
          + exists "", (Code tag). split; [reflexivity|].
            apply addPrototype_template_bare; assumption. }
      eexists. split; [reflexivity|]. split; [repeat split|]. split; [reflexivity|].
      split; [|discriminate]. intros _. split; [reflexivity|].
      split; [|discriminate]. intros _. exists body, rest. auto.
    + rewrite (addPrototype_multiline findTemplateMultiline tag Hp Hc).
      eexists. split; [reflexivity|]. split; [repeat split|]. split; [reflexivity|].
      split; [|discriminate]. intros _. split; [reflexivity|].
      split; [discriminate|]. intros _. reflexivity.
  - rewrite (addPrototype_plain findTemplateMultiline tag Hp).
    eexists. split; [reflexivity|]. split; [repeat split|]. split; [reflexivity|].
    split; [discriminate|]. intros _. reflexivity.
Qed.

(** ** [Parse] as a whole *)

Lemma appendParsed_is_Ok rows : forall tags,
  is_Ok (appendParsed tags rows) = forallb accepted rows.
Proof.
  induction rows as [|row rows IH]; intros tags; [reflexivity|].
  cbn [appendParsed forallb]. rewrite <- parseTag_is_Ok.
  destruct (parseTag row); cbn [bind is_Ok andb]; [apply IH | reflexivity].
Qed.

Lemma appendParsed_Ok rows : forall tags out,
  appendParsed tags rows = Ok out ->
  exists parsed,
    Forall2 (fun row t => parseTag row = Ok t) rows parsed /\ out = tags ++ parsed.
Proof.
  induction rows as [|row rows IH]; intros tags out H; simpl in H.
  - injection H as <-. exists []. split; [constructor | rewrite app_nil_r; reflexivity].
  - destruct (parseTag row) as [t|] eqn:Hrow; [|discriminate]. cbn [bind] in H.
    destruct (IH _ _ H) as (parsed & Hall & ->).
    exists (t :: parsed). split; [constructor; assumption|].
    rewrite <- List.app_assoc. reflexivity.
Qed.

Lemma sameOrigin_refl t : sameOrigin t t.
Proof. repeat split. Qed.

Lemma sameOrigin_trans a b c : sameOrigin a b -> sameOrigin b c -> sameOrigin a c.
Proof.
  unfold sameOrigin. intros (A1 & A2 & A3 & A4 & A5 & A6 & A7 & A8 & A9 & A10)
                            (B1 & B2 & B3 & B4 & B5 & B6 & B7 & B8 & B9 & B10).
  repeat split; congruence.
Qed.

Lemma Forall2_chain {A : Type} (R : A -> A -> Prop) l1 l2 l3 :
  (forall a b c, R a b -> R b c -> R a c) ->
  Forall2 R l1 l2 -> Forall2 R l2 l3 -> Forall2 R l1 l3.
Proof.
  intros Ht H12. revert l3.
  induction H12 as [|a b l1 l2 Hab _ IH]; intros l3 H23; inversion H23; subst;
    constructor; eauto.
Qed.

Lemma flagOnly_sameOrigin l1 l2 : Forall2 flagOnly l1 l2 -> Forall2 sameOrigin l1 l2.
Proof.
  intros H. eapply Forall2_impl; [exact H|].
  intros a b (v & -> & _). repeat split.
Qed.

(** The passes keep every record at its place, with what was read from
    its row. *)
Lemma runPasses_sameOrigin findTemplateMultiline prototypeAndCodeDontMatch
      insideCLinkageBlock tags out :
  runPasses findTemplateMultiline prototypeAndCodeDontMatch insideCLinkageBlock tags
  = Ok out ->
  Forall2 sameOrigin tags out.
Proof.
  rewrite runPasses_Ok. intros [= <-].
  eapply Forall2_chain; [apply sameOrigin_trans| |].
  - eapply Forall2_chain; [apply sameOrigin_trans| |].
    + eapply Forall2_chain; [apply sameOrigin_trans| |].
      * apply flagOnly_sameOrigin.
        apply (flagOnly_chain _ _ _ (skipTagsWhere_flagOnly tagIsUnknown tags)
                 (skipTagsWhere_flagOnly tagIsUnhandled _)).
      * apply (Forall2_map_self sameOrigin
                 (fun tag => if negb (SkipMe tag)
                             then generated findTemplateMultiline tag else tag)).
        intros t. destruct (SkipMe t); simpl; [apply sameOrigin_refl|].
        destruct (generated_shape findTemplateMultiline t) as [[x ->]|[x ->]];
          repeat split.
    + apply flagOnly_sameOrigin.
      apply (afterFilters_flagOnly findTemplateMultiline prototypeAndCodeDontMatch tags).
  - apply Forall2_map_self. intros t.
    destruct (insideCLinkageBlock t); repeat split.
Qed.

(** X12: [Parse] returns exactly when [parseTag] accepts every row that
    [removeEmpty] keeps of the output, that is when every such row has
    a tab in it and does not have its first "$/;" before its first
    "/^"; it panics otherwise.  The passes that follow the parsing of
    the rows never panic, as long as the template reconstruction and
    the consistency predicate return. *)
Theorem Parse_succeeds_exactly_when
    (findTemplateMultiline : Tag -> string)
    (prototypeAndCodeDontMatch insideCLinkageBlock : Tag -> bool)
    (EquivalentTo : string -> string -> bool) (noInsertion : Z)
    (p : Parser) (ctagsOutput mainFile : string) :
  is_Ok (Parse findTemplateMultiline prototypeAndCodeDontMatch insideCLinkageBlock
               EquivalentTo noInsertion p ctagsOutput mainFile)
  = forallb (fun row =>
               Contains row (str1 tab)
               && negb ((0 <=? Index row "$/;") && (Index row "$/;" <? Index row "/^")))
            (removeEmpty (Split ctagsOutput newline)).
Proof.
  change (forallb _ (removeEmpty (Split ctagsOutput newline)))
    with (forallb accepted (removeEmpty (Split ctagsOutput newline))).
  rewrite <- (appendParsed_is_Ok _ (tags p)). unfold Parse. cbn [tags].
  destruct (appendParsed _ _) as [parsed|]; cbn [bind is_Ok]; [|reflexivity].
  rewrite runPasses_Ok. reflexivity.
Qed.

(** X13: when [Parse] returns, the parser holds the records it held
    before followed by one record for each row that [removeEmpty] keeps,
    in the order of the rows; each record has the name, kind, line,
    snippet, scope, file name, typeref and signature that [parseTag]
    read (the passes write the flag, the prototype text and the
    modifier text only), and the main file is the one given. *)
Theorem Parse_keeps_one_record_per_row
    (findTemplateMultiline : Tag -> string)
    (prototypeAndCodeDontMatch insideCLinkageBlock : Tag -> bool)
    (EquivalentTo : string -> string -> bool) (noInsertion : Z)
    (p p' : Parser) (ctagsOutput main : string)
    (result : list PrototypeRecord * Z) :
  Parse findTemplateMultiline prototypeAndCodeDontMatch insideCLinkageBlock
        EquivalentTo noInsertion p ctagsOutput main = Ok (p', result) ->
  exists parsed,
    Forall2 (fun row t => parseTag row = Ok t)
            (removeEmpty (Split ctagsOutput newline)) parsed
    /\ Forall2 sameOrigin (tags p ++ parsed) (tags p')
    /\ length (tags p')
       = (length (tags p) + length (removeEmpty (Split ctagsOutput newline)))%nat
    /\ mainFile p' = main.
Proof.
  unfold Parse. cbn [tags]. intros H.
  destruct (appendParsed _ _) as [all|] eqn:Ha; [|discriminate]. cbn [bind] in H.
  destruct (runPasses _ _ _ all) as [out|] eqn:Hr; [|discriminate]. cbn [bind] in H.
  injection H as <- _.
  destruct (appendParsed_Ok _ _ _ Ha) as (parsed & Hall & ->).
  pose proof (runPasses_sameOrigin _ _ _ _ _ Hr) as Hsame.
  exists parsed. split; [exact Hall|]. split; [exact Hsame|]. split; [|reflexivity].
  cbn [tags]. rewrite <- (Forall2_length _ _ _ Hsame), length_app.
  rewrite (Forall2_length _ _ _ Hall). reflexivity.
Qed.

(** X13 at the two rows of [foo]. *)
Lemma Parse_keeps_one_record_per_row_witness :
  exists parsed,
    Forall2 (fun row t => parseTag row = Ok t)
            (removeEmpty (Split (fooRow +:+ str1 newline +:+ staticFooRow) newline))
            parsed
    /\ Forall2 sameOrigin ([] ++ parsed)
               [fooParsed; setSkipMe true (setPrototypeModifiers "static" staticFooParsed)]
    /\ length [fooParsed; setSkipMe true (setPrototypeModifiers "static" staticFooParsed)]
       = (length (@nil Tag)
          + length (removeEmpty (Split (fooRow +:+ str1 newline +:+ staticFooRow)
                                       newline)))%nat
    /\ "main.ino" = "main.ino".
Proof.
  apply (Parse_keeps_one_record_per_row
           (fun _ => "") (fun _ => false) (fun _ => false) String.eqb 0
           (mkParser [] "")
           (mkParser [fooParsed;
                      setSkipMe true (setPrototypeModifiers "static" staticFooParsed)]
                     "main.ino")
           (fooRow +:+ str1 newline +:+ staticFooRow) "main.ino"
           ([mkPrototypeRecord "foo" "void foo();" "" 3], 3)).
  vm_compute. reflexivity.
Defined.

(** ** Records that are skipped already *)

Lemma setSkipMe_true t : SkipMe t = true -> setSkipMe true t = t.
Proof. intros <-. apply setSkipMe_same. Qed.

Lemma flagOnly_skipped a b : flagOnly a b -> SkipMe a = true -> b = a.
Proof. intros (v & -> & Hv) Ha. rewrite (Hv Ha). apply setSkipMe_true, Ha. Qed.

Lemma runList_keeps_skipped ps :
  Forall (fun pass => forall tags out i t,
            pass tags = Ok out -> tags !! i = Some t -> SkipMe t = true ->
            out !! i = Some t) ps ->
  forall tags out i t,
    runList ps tags = Ok out -> tags !! i = Some t -> SkipMe t = true ->
    out !! i = Some t.
Proof.
  induction 1 as [|pass ps Hp _ IH]; intros tags out i t Hrun Hi Hs; simpl in Hrun.
  - injection Hrun as <-. exact Hi.
  - destruct (pass tags) as [mid|] eqn:Hpass; [|discriminate]. cbn [bind] in Hrun.
    eapply IH; [exact Hrun | eapply Hp; eassumption | exact Hs].
Qed.

(** X14: the six filter passes of [Parse] never touch a record that is
    skipped already: after any number of them, up to the linkage
    fix-up, such a record stands at its place with every field as it
    was, its prototype text and modifier text included. *)
Theorem skipped_records_are_left_alone
    (findTemplateMultiline : Tag -> string)
    (prototypeAndCodeDontMatch insideCLinkageBlock : Tag -> bool)
    (n : nat) (tags out : list Tag) (i : nat) (t : Tag) :
  (n <= 6)%nat ->
  stateAfter findTemplateMultiline prototypeAndCodeDontMatch insideCLinkageBlock n tags
  = Ok out ->
  tags !! i = Some t ->
  SkipMe t = true ->
  out !! i = Some t.
Proof.
  intros Hn. unfold stateAfter.
  replace n with (Nat.min n 6) by lia. rewrite <- take_take.
  apply runList_keeps_skipped. apply Forall_take.
  unfold passes. cbn [firstn].
  assert (Hflag : forall (f : list Tag -> list Tag),
            (forall l, Forall2 flagOnly l (f l)) ->
            forall l out' j u, Ok (f l) = Ok out' -> l !! j = Some u ->
                               SkipMe u = true -> out' !! j = Some u).
  { intros f Hf l out' j u [= <-] Hj Hu.
    destruct (Forall2_lookup_l _ _ _ _ _ (Hf l) Hj) as (b & Hb & Hfl).
    rewrite (flagOnly_skipped _ _ Hfl Hu) in Hb. exact Hb. }
  repeat (apply Forall_cons; split); try apply Forall_nil_2.
  - apply Hflag. apply skipTagsWhere_flagOnly.
  - apply Hflag. apply skipTagsWhere_flagOnly.
  - intros l out' j u. rewrite addPrototypes_Ok. intros [= <-] Hj Hu.
    rewrite lookup_map, Hj. simpl. rewrite Hu. reflexivity.
  - apply Hflag. apply removeDefinedProtypes_flagOnly.
  - apply Hflag. intros l. apply skipDuplicatesFrom_flagOnly.
  - apply Hflag. apply skipTagsWhere_flagOnly.
Qed.

(** X14 at the skipped method of [foo], followed by the function. *)
Lemma skipped_records_are_left_alone_witness :
  [fooMethod; fooFunction] !! 0%nat = Some fooMethod
  /\ SkipMe fooMethod = true
  /\ [fooMethod; fooFunction] !! 0%nat = Some fooMethod.
Proof.
  split; [reflexivity|]. split; [reflexivity|].
  apply (skipped_records_are_left_alone
           (fun _ => "") (fun _ => false) (fun _ => false) 6
           [fooMethod; fooFunction] [fooMethod; fooFunction] 0%nat fooMethod).
  - lia.
  - vm_compute. reflexivity.
  - reflexivity.
  - reflexivity.
Defined.

(** ** The query tokens of the library search *)

Lemma splitAtSpaces_nonempty query : exists field fields, splitAtSpaces query = field :: fields.
Proof.
  induction query as [|r query IH]; simpl; [eauto|].
  destruct (r =? runeSpace); [eauto|]. destruct IH as (f & fs & ->). eauto.
Qed.

Lemma dropLastEmpty_cons field fields :
  fields <> [] -> dropLastEmpty (field :: fields) = field :: dropLastEmpty fields.
Proof. destruct fields; [congruence | reflexivity]. Qed.

(** With no backslash and no quote, the loop cuts at the spaces. *)
Lemma tokensFrom_plain ToLower query : forall tokens sb field fields,
  plainQuery query ->
  splitAtSpaces query = field :: fields ->
  tokensFrom ToLower false false tokens sb query
  = tokens ++ map ToLower (dropLastEmpty ((sb ++ field) :: fields)).
Proof.
  induction query as [|r query IH]; intros tokens sb field fields Hplain Hsplit.
  - simpl in Hsplit. injection Hsplit as <- <-. rewrite app_nil_r. simpl.
    destruct sb; simpl; [rewrite app_nil_r; reflexivity | reflexivity].
  - apply Forall_cons in Hplain as [[Hb Hq] Hplain]. simpl in Hsplit. cbn [tokensFrom].
    destruct (Z.eqb_spec r runeBackslash); [contradiction|].
    destruct (Z.eqb_spec r runeQuote); [contradiction|]. cbn [negb andb].
    destruct (splitAtSpaces_nonempty query) as (f & fs & Hq').
    rewrite Hq' in Hsplit.
    destruct (r =? runeSpace).
    + injection Hsplit as <- <-. rewrite (IH _ [] f fs Hplain Hq').
      cbn [app]. rewrite app_nil_r.
      rewrite (dropLastEmpty_cons sb (f :: fs)) by discriminate.
      rewrite <- List.app_assoc. reflexivity.
    + injection Hsplit as <- <-. rewrite (IH _ (sb ++ [r]) f fs Hplain Hq').
      rewrite <- List.app_assoc. reflexivity.
Qed.

(** X15: on a query with no backslash and no double quote,
    [matcherTokensFromQueryString] returns the lower-cased stretches
    between the spaces, in their order, without the last stretch when
    it is empty: a space at the end adds no token, while a space in
    front, or two spaces in a row, give an empty token; the empty query
    has no token. *)
Theorem matcherTokens_of_plain_query (ToLower : list rune -> string) (query : list rune) :
  plainQuery query ->
  matcherTokensFromQueryString ToLower query
  = map ToLower (dropLastEmpty (splitAtSpaces query)).
Proof.
  intros Hplain. destruct (splitAtSpaces_nonempty query) as (f & fs & Hs).
  unfold matcherTokensFromQueryString.
  rewrite (tokensFrom_plain ToLower query [] [] f fs Hplain Hs), Hs. reflexivity.
Qed.

(** X15 at the query "a  b " (two spaces inside, one at the end). *)
Lemma matcherTokens_of_plain_query_witness :
  matcherTokensFromQueryString (fun runes => String.string_of_list_ascii
                                  (map (fun r => ascii_of_nat (Z.to_nat r)) runes))
                               [97; 32; 32; 98; 32]
  = ["a"; ""; "b"].
Proof.
  rewrite matcherTokens_of_plain_query.
  - reflexivity.
  - repeat (apply Forall_cons; split; [split; discriminate|]). apply Forall_nil_2.
Defined.

Lemma tokensFrom_inside_quotes ToLower body : forall tokens sb,
  plainQuery body ->
  (forall rest,
     tokensFrom ToLower false true tokens sb (body ++ runeQuote :: rest)
     = tokensFrom ToLower false false tokens (sb ++ body) rest)
  /\ tokensFrom ToLower false true tokens sb body
     = (if (0 <? length (sb ++ body))%nat
        then tokens ++ [ToLower (sb ++ body)] else tokens).
Proof.
  induction body as [|r body IH]; intros tokens sb Hplain.
  - rewrite app_nil_r. split; [intros rest|]; reflexivity.
  - apply Forall_cons in Hplain as [[Hb Hq] Hplain].
    destruct (IH tokens (sb ++ [r]) Hplain) as [IH1 IH2].
    rewrite <- List.app_assoc in IH1, IH2. cbn [app] in IH1, IH2.
    split; [intros rest|]; cbn [app tokensFrom];
      destruct (Z.eqb_spec r runeBackslash); try contradiction;
      destruct (Z.eqb_spec r runeQuote); try contradiction; cbn [negb andb];
      [apply IH1 | apply IH2].
Qed.

(** X16: quoting and escaping in [matcherTokensFromQueryString].  A
    stretch between two double quotes, with no quote or backslash
    inside, joins the token being built with its spaces kept, and the
    quotes are dropped; after a quote that is never closed the rest of
    the query is one token.  A backslash is dropped and makes the rune
    after it literal, a quote or a backslash too, except that a space
    outside quotes still ends the token; a backslash at the end of the
    query is dropped. *)
Theorem matcherTokens_quoting_and_escaping
    (ToLower : list rune -> string) (tokens : list string) (sb : list rune) :
  (forall body rest,
     plainQuery body ->
     tokensFrom ToLower false false tokens sb (runeQuote :: body ++ runeQuote :: rest)
     = tokensFrom ToLower false false tokens (sb ++ body) rest)
  /\ (forall body,
        plainQuery body ->
        tokensFrom ToLower false false tokens sb (runeQuote :: body)
        = (if (0 <? length (sb ++ body))%nat
           then tokens ++ [ToLower (sb ++ body)] else tokens))
  /\ (forall quoted r rest,
        tokensFrom ToLower false quoted tokens sb (runeBackslash :: r :: rest)
        = (if negb quoted && (r =? runeSpace)
           then tokensFrom ToLower false quoted (tokens ++ [ToLower sb]) [] rest
           else tokensFrom ToLower false quoted tokens (sb ++ [r]) rest))
  /\ (forall quoted,
        tokensFrom ToLower false quoted tokens sb [runeBackslash]
        = tokensFrom ToLower false quoted tokens sb []).
Proof.
  split; [|split; [|split]].
  - intros body rest Hplain. apply (tokensFrom_inside_quotes ToLower body tokens sb Hplain).
  - intros body Hplain. apply (tokensFrom_inside_quotes ToLower body tokens sb Hplain).
  - intros quoted r rest. cbn [tokensFrom negb andb].
    change (runeBackslash =? runeBackslash) with true. cbn iota.
    destruct (Z.eqb_spec r runeQuote) as [->|Hq].
    + rewrite andb_false_r. reflexivity.
    + reflexivity.
  - intros quoted. reflexivity.
Qed.

Lemma tokensFrom_length ToLower query : forall escaped quoted tokens sb,
  (length (tokensFrom ToLower escaped quoted tokens sb query)
   <= length tokens + 1 + length (filter (fun r => r = runeSpace) query))%nat
  /\ (length tokens <= length (tokensFrom ToLower escaped quoted tokens sb query))%nat.
Proof.
  induction query as [|r query IH]; intros escaped quoted tokens sb.
  - simpl. destruct (0 <? length sb)%nat; rewrite ?length_app; simpl; lia.
  - cbn [tokensFrom].
    assert (Hf : (length (filter (fun r0 => r0 = runeSpace) query)
                  <= length (filter (fun r0 => r0 = runeSpace) (r :: query)))%nat).
    { rewrite filter_cons. destruct (decide (r = runeSpace)); simpl; lia. }
    destruct (negb escaped && (r =? runeBackslash));
      [specialize (IH true quoted tokens sb); lia|].
    destruct (r =? runeQuote).
    { destruct (negb escaped);
        [specialize (IH false (negb quoted) tokens sb)
        |specialize (IH false quoted tokens (sb ++ [r]))]; lia. }
    destruct (negb quoted && (r =? runeSpace)) eqn:Hsp.
    + apply andb_prop in Hsp as [_ Hsp]. apply Z.eqb_eq in Hsp. subst r.
      rewrite filter_cons_True by reflexivity.
      specialize (IH false quoted (tokens ++ [ToLower sb]) []).
      rewrite length_app in IH. simpl in *. lia.
    + specialize (IH false quoted tokens (sb ++ [r])). lia.
Qed.

(** X17: [matcherTokensFromQueryString] returns at most one token more
    than the query has spaces, whatever the quoting. *)
Theorem matcherTokens_at_most_spaces_plus_one
    (ToLower : list rune -> string) (query : list rune) :
  (length (matcherTokensFromQueryString ToLower query)
   <= 1 + length (filter (fun r => r = runeSpace) query))%nat.
Proof.
  unfold matcherTokensFromQueryString.
  pose proof (tokensFrom_length ToLower query false false [] []) as [H _].
  simpl in H. lia.
Qed.

(** ** The order of the search results *)

Lemma ascii_compare_refl a : Ascii.compare a a = Eq.
Proof. unfold Ascii.compare. apply N.compare_refl. Qed.

Lemma ascii_compare_lt_trans a b c :
  Ascii.compare a b = Lt -> Ascii.compare b c = Lt -> Ascii.compare a c = Lt.
Proof.
  unfold Ascii.compare. rewrite !N.compare_lt_iff. apply N.lt_trans.
Qed.

Lemma string_compare_refl s : String.compare s s = Eq.
Proof.
  induction s as [|a s IH]; simpl; [reflexivity|].
  rewrite ascii_compare_refl. exact IH.
Qed.

Lemma string_compare_lt_trans a : forall b c,
  String.compare a b = Lt -> String.compare b c = Lt -> String.compare a c = Lt.
Proof.
  induction a as [|x a IH]; intros [|y b] [|z c]; simpl; try discriminate; auto.
  destruct (Ascii.compare x y) eqn:Hxy; try discriminate;
    destruct (Ascii.compare y z) eqn:Hyz; try discriminate; intros H1 H2.
  - apply Ascii.compare_eq_iff in Hxy, Hyz. subst. rewrite ascii_compare_refl.
    eapply IH; eassumption.
  - apply Ascii.compare_eq_iff in Hxy. subst. rewrite Hyz. reflexivity.
  - apply Ascii.compare_eq_iff in Hyz. subst. rewrite Hxy. reflexivity.
  - rewrite (ascii_compare_lt_trans _ _ _ Hxy Hyz). reflexivity.
Qed.

Lemma ltb_irrefl s : String.ltb s s = false.
Proof. unfold String.ltb. rewrite string_compare_refl. reflexivity. Qed.

Lemma ltb_trans a b c :
  String.ltb a b = true -> String.ltb b c = true -> String.ltb a c = true.
Proof.
  unfold String.ltb.
  destruct (String.compare a b) eqn:Hab; try discriminate.
  destruct (String.compare b c) eqn:Hbc; try discriminate. intros _ _.
  rewrite (string_compare_lt_trans _ _ _ Hab Hbc). reflexivity.
Qed.

Lemma ltb_asym a b : String.ltb a b = true -> String.ltb b a = false.
Proof.
  unfold String.ltb. rewrite (String.compare_antisym a b).
  destruct (String.compare b a); simpl; congruence.
Qed.

Lemma ltb_total a b : a <> b -> String.ltb a b = true \/ String.ltb b a = true.
Proof.
  intros Hne. unfold String.ltb. rewrite (String.compare_antisym a b).
  destruct (String.compare b a) eqn:Hc; simpl; auto.
  apply String.compare_eq_iff in Hc. congruence.
Qed.

(** X18: the order [searchLibrary] sorts its results by is a strict
    order on names: no name is before itself, two names are never
    before each other, and the order is transitive; of two different
    names one is before the other, so the sorted order of results with
    different names is fixed; and a name that equals the query under
    [EqualFold] is before every name that does not. *)
Theorem searchLess_is_a_strict_total_order
    (EqualFold : string -> string -> bool) (query : string) :
  (forall a, searchLess EqualFold query a a = false)
  /\ (forall a b, searchLess EqualFold query a b = true ->
                  searchLess EqualFold query b a = false)
  /\ (forall a b c, searchLess EqualFold query a b = true ->
                    searchLess EqualFold query b c = true ->
                    searchLess EqualFold query a c = true)
  /\ (forall a b, a <> b ->
                  searchLess EqualFold query a b = true
                  \/ searchLess EqualFold query b a = true)
  /\ (forall a b, EqualFold a query = true -> EqualFold b query = false ->
                  searchLess EqualFold query a b = true).
Proof.
  unfold searchLess. repeat split.
  - intros a. destruct (EqualFold a query); simpl; apply ltb_irrefl.
  - intros a b. destruct (EqualFold a query), (EqualFold b query); simpl;
      try discriminate; try reflexivity; apply ltb_asym.
  - intros a b c.
    destruct (EqualFold a query), (EqualFold b query), (EqualFold c query); simpl;
      try discriminate; try reflexivity; apply ltb_trans.
  - intros a b Hne. destruct (EqualFold a query), (EqualFold b query); simpl;
      auto using ltb_total.
  - intros a b -> ->. reflexivity.
Qed.

(** ** The query matcher *)

Lemma IndexAny_range s chars :
  IndexAny s chars = -1 \/ (0 <= IndexAny s chars /\ IndexAny s chars < len s).
Proof.
  induction s as [|c s IH]; [left; reflexivity|].
  cbn [IndexAny]. rewrite len_String.
  destruct (Contains chars (str1 c)).
  - right. pose proof (len_nonneg s). lia.
  - destruct IH as [->|[H0 H1]]; [left; reflexivity|].
    destruct (Z.ltb_spec (IndexAny s chars) 0); [lia|]. right. lia.
Qed.

(** The first byte of [chars] in a string splits it, and nothing before
    it is a byte of [chars]. *)
Lemma IndexAny_split s chars :
  0 <= IndexAny s chars ->
  exists pre c post,
    s = pre +:+ String c post
    /\ IndexAny s chars = len pre
    /\ IndexAny pre chars = -1
    /\ Contains chars (str1 c) = true.
Proof.
  induction s as [|d s IH]; cbn [IndexAny]; [lia|].
  destruct (Contains chars (str1 d)) eqn:Hd.
  - intros _. exists "", d, s. repeat split. exact Hd.
  - destruct (Z.ltb_spec (IndexAny s chars) 0) as [Hlt|Hge]; [lia|].
    intros _. destruct (IH Hge) as (pre & c & post & -> & Hi & Hpre & Hc).
    exists (String d pre), c, post. cbn [IndexAny]. rewrite Hd, Hpre, len_String, Hi.
    repeat split. exact Hc.
Qed.

Lemma IndexAny_app_free pre c post chars :
  IndexAny pre chars = -1 -> Contains chars (str1 c) = true ->
  IndexAny (pre +:+ String c post) chars = len pre.
Proof.
  intros Hpre Hc. induction pre as [|d pre IH].
  - rewrite app_empty_l. cbn [IndexAny]. rewrite Hc. reflexivity.
  - rewrite app_String. cbn [IndexAny] in *. rewrite len_String.
    destruct (Contains chars (str1 d)); [discriminate|].
    destruct (Z.ltb_spec (IndexAny pre chars) 0) as [Hlt|Hge]; [|lia].
    assert (Hp : IndexAny pre chars = -1).
    { destruct (IndexAny_range pre chars) as [H|H]; [exact H|lia]. }
    rewrite (IH Hp). pose proof (len_nonneg pre).
    destruct (Z.ltb_spec (len pre) 0); [lia|reflexivity].
Qed.

Lemma get_length_app pre c post :
  String.get (String.length pre) (pre +:+ String c post) = Some c.
Proof. induction pre as [|d pre IH]; [reflexivity|exact IH]. Qed.

Lemma byteAt_len_app pre c post : byteAt (pre +:+ String c post) (len pre) = Ok c.
Proof.
  unfold byteAt. rewrite len_app, len_String, to_nat_len, get_length_app.
  pose proof (len_nonneg pre). pose proof (len_nonneg post).
  destruct (Z.leb_spec 0 (len pre)); [|lia].
  destruct (Z.ltb_spec (len pre) (len pre + (len post + 1))); [|lia].
  reflexivity.
Qed.

Lemma sliceTo_len_app pre r : sliceTo (pre +:+ r) (len pre) = Ok pre.
Proof.
  rewrite sliceTo_Ok, take_len_app; [reflexivity|apply len_nonneg|].
  rewrite len_app. pose proof (len_nonneg r). lia.
Qed.

Lemma sliceFrom_succ_len_app pre c post :
  sliceFrom (pre +:+ String c post) (len pre + 1) = Ok post.
Proof.
  rewrite sliceFrom_Ok, drop_succ_len_app; [reflexivity| |].
  - pose proof (len_nonneg pre). lia.
  - rewrite len_app, len_String. pose proof (len_nonneg post). lia.
Qed.

Section MatcherFacts.

Variable runes : string -> list rune.
Variable builderString : list rune -> string.
Variable ToLower : string -> string.
Variable Match : string -> list string -> bool.
Variable SearchTermsFromQueryString : string -> list string.

(** A term with no separator is looked for in the default text. *)
Lemma matchTerm_plain lib matched term :
  IndexAny term "=:" = -1 ->
  matchTerm ToLower Match lib matched term
  = Ok (matched && Match (defaultLibraryMatchExtractor lib) [term]).
Proof. intros H. unfold matchTerm. rewrite H. reflexivity. Qed.

(** A term with a separator is cut at the first one. *)
Lemma matchTerm_split lib matched key sep target :
  IndexAny key "=:" = -1 -> Contains "=:" (str1 sep) = true ->
  matchTerm ToLower Match lib matched (key +:+ String sep target)
  = Ok (matched &&
        match qualifiers !! key with
        | Some extractor =>
            if Ascii.eqb sep ":" then Match (extractor lib) [target]
            else String.eqb (ToLower (extractor lib)) target
        | None =>
            Match (defaultLibraryMatchExtractor lib) [key +:+ String sep target]
        end).
Proof.
  intros Hkey Hsep. unfold matchTerm.
  rewrite (IndexAny_app_free key sep target "=:" Hkey Hsep).
  pose proof (len_nonneg key) as Hlen.
  destruct (Z.eqb_spec (len key) (-1)) as [Heq|_]; [lia|]. cbn [negb].
  rewrite sliceTo_len_app. cbn [bind].
  rewrite byteAt_len_app. cbn [bind].
  destruct (qualifiers !! key) as [extractor|]; [|reflexivity].
  rewrite sliceFrom_succ_len_app. cbn [bind].
  destruct (Ascii.eqb sep ":"); reflexivity.
Qed.

(** One turn of the loop returns, with the conjunction of [matched] and
    what the term says on its own. *)
Lemma matchTerm_Ok lib matched term :
  matchTerm ToLower Match lib matched term
  = Ok (matched && termAccepts ToLower Match lib term).
Proof.
  unfold termAccepts.
  destruct (IndexAny_range term "=:") as [H|[H _]].
  - rewrite !(matchTerm_plain _ _ _ H). reflexivity.
  - destruct (IndexAny_split term "=:" H) as (key & sep & target & -> & _ & Hkey & Hsep).
    rewrite !(matchTerm_split _ _ _ _ _ Hkey Hsep). reflexivity.
Qed.

Lemma matchTerms_Ok lib matched terms :
  matchTerms ToLower Match lib matched terms
  = Ok (matched && forallb (termAccepts ToLower Match lib) terms).
Proof.
  revert matched. induction terms as [|term terms IH]; intros matched; cbn [matchTerms forallb].
  - rewrite andb_true_r. reflexivity.
  - rewrite matchTerm_Ok. cbn [bind]. rewrite IH, andb_assoc. reflexivity.
Qed.

End MatcherFacts.

(** X19: the closure [matcherFromQueryString] returns never panics: in
    every term of a query in qualifier-value syntax the index
    [IndexAny] finds is within the term, so the two slices and the byte
    read at it are within bounds, whatever the query and the library. *)
Theorem matcherFromQueryString_never_panics
    (runes : string -> list rune) (builderString : list rune -> string)
    (ToLower : string -> string) (Match : string -> list string -> bool)
    (SearchTermsFromQueryString : string -> list string)
    (query : string) (lib : Library) :
  is_Ok (matcherFromQueryString runes builderString ToLower Match
                                SearchTermsFromQueryString query lib) = true
  /\ (forall matched term, is_Ok (matchTerm ToLower Match lib matched term) = true).
Proof.
  split.
  - unfold matcherFromQueryString.
    destruct (negb _); [reflexivity|]. rewrite matchTerms_Ok. reflexivity.
  - intros matched term. rewrite matchTerm_Ok. reflexivity.
Qed.

(** X20: in qualifier-value syntax the terms of a query are a
    conjunction: a library a query lets through is let through by every
    query whose tokens are among its tokens.  So a term more never adds
    a library to the result, and neither the order of the terms nor a
    term given twice changes it. *)
Theorem matcher_terms_are_a_conjunction
    (runes : string -> list rune) (builderString : list rune -> string)
    (ToLower : string -> string) (Match : string -> list string -> bool)
    (SearchTermsFromQueryString : string -> list string)
    (query1 query2 : string) (lib : Library) :
  Contains query1 ":" || Contains query1 "=" = true ->
  Contains query2 ":" || Contains query2 "=" = true ->
  queryTokens runes builderString ToLower query1
    ⊆ queryTokens runes builderString ToLower query2 ->
  matcherFromQueryString runes builderString ToLower Match
                         SearchTermsFromQueryString query2 lib = Ok true ->
  matcherFromQueryString runes builderString ToLower Match
                         SearchTermsFromQueryString query1 lib = Ok true.
Proof.
  intros Hq1 Hq2 Hsub. unfold matcherFromQueryString. rewrite Hq1, Hq2. cbn [negb].
  rewrite !matchTerms_Ok. cbn [andb]. intros [= H2]. f_equal.
  apply forallb_forall. intros term Hin.
  rewrite forallb_forall in H2. apply H2.
  apply list_elem_of_In, Hsub, list_elem_of_In, Hin.
Qed.

(** X20 at a library with author "arduino" and name "Servo": it matches
    the two terms, so it matches the one. *)
Lemma matcher_terms_are_a_conjunction_witness :
  matcherFromQueryString asciiRunes asciiString asciiLower occurAll (fun _ => [])
                         "author:arduino" servoLibrary = Ok true.
Proof.
  apply (matcher_terms_are_a_conjunction
           asciiRunes asciiString asciiLower occurAll (fun _ => [])
           "author:arduino" "name:servo author:arduino" servoLibrary).
  - reflexivity.
  - reflexivity.
  - intros term Hin. vm_compute in Hin. vm_compute.
    apply list_elem_of_singleton in Hin. subst term.
    apply list_elem_of_further, list_elem_of_here.
  - vm_compute. reflexivity.
Defined.

(** X21: a term of a query in qualifier-value syntax is cut at its
    first "=" or ":".  When what stands before is a qualifier name, the
    rest of the term, further separators and all, is the value: after
    ":" it is looked for in the text of the qualifier, after "=" it is
    compared with that text in lower case.  When it is no qualifier
    name, the whole term, separator included, is looked for in the
    default text, as a term with no separator is. *)
Theorem matcher_term_is_cut_at_first_separator
    (ToLower : string -> string) (Match : string -> list string -> bool)
    (lib : Library) (matched : bool) (key target : string) (sep : ascii) :
  IndexAny key "=:" = -1 ->
  sep = ":"%char \/ sep = "="%char ->
  matchTerm ToLower Match lib matched (key +:+ String sep target)
  = Ok (matched &&
        match qualifiers !! key with
        | Some extractor =>
            if Ascii.eqb sep ":" then Match (extractor lib) [target]
            else String.eqb (ToLower (extractor lib)) target
        | None =>
            Match (defaultLibraryMatchExtractor lib) [key +:+ String sep target]
        end)
  /\ matchTerm ToLower Match lib matched key
     = Ok (matched && Match (defaultLibraryMatchExtractor lib) [key]).
Proof.
  intros Hkey Hsep. split.
  - apply matchTerm_split; [exact Hkey|]. destruct Hsep as [->| ->]; reflexivity.
  - apply matchTerm_plain, Hkey.
Qed.

(** X21 at the term "name=servo:x": the value is "servo:x". *)
Lemma matcher_term_is_cut_at_first_separator_witness :
  matchTerm asciiLower occurAll servoLibrary true "name=servo:x"
  = Ok (String.eqb (asciiLower "Servo") "servo:x").
Proof.
  destruct (matcher_term_is_cut_at_first_separator
              asciiLower occurAll servoLibrary true "name" "servo:x" "="%char) as [H _].
  - reflexivity.
  - right. reflexivity.
  - exact H.
Defined.

(** * The insertion line *)

(** ** Decimal text and what [Atoi] reads of it *)

Import GoStrconv.












(** ** Reversal, and bytes that pass a test *)










(** ** Trimming a number *)








(** ** The row of a function at a given line *)

Section FunctionRow.

Variable z : Z.
Hypothesis Hz : minInt64 <= z <= maxInt64.







End FunctionRow.

(** ** The line [Parse] returns *)






